(** * The ESPN data repository of src/espn_data_reader.py

    A shallow embedding of [ESPNDataRepository]: the base-table store and its
    cache, the partition resolver, the partitioned file loader, the five
    detail accessors, the listing of events and the join engine, and of the
    quality probe of src/Fanta.py that calls them; followed by the properties
    the specification states about them, and by further properties of the
    code.

    Conventions.
    - Python values that can sit in a cell of a DataFrame or be passed as an
      event id are [pyval]; floats are IEEE binary64 values ([spec_float]
      with 53 bits of precision), text is ASCII.
    - Raised exceptions are values of [exn]; a computation that may raise
      returns a [result].
    - Methods of the repository run in the monad [M], which threads the state
      of the instance (cache, objects on the heap) and of the disk. *)

From Stdlib Require Import ZArith String Ascii.
From Stdlib Require Import Floats.SpecFloat.
From stdpp Require Import base option strings list gmap pretty relations.

Local Open Scope Z_scope.

(* ================================================================= *)
(** ** Python values, exceptions *)

Inductive pyval : Type :=
| PInt (z : Z)
| PFloat (f : spec_float)
| PStr (s : string)
| PNone.

(** The three ways the module ends up with a [KeyError]. *)
Inductive key_error : Type :=
| EventNotInFixtures (event_id : pyval)   (* line 299 *)
| UnknownBaseTable (name : string)        (* line 139 *)
| MissingLabel (label : string).          (* pandas: no such column *)

Inductive exn : Type :=
| KeyError (k : key_error)
| FileNotFoundError (path : string)
| ValueError
| TypeError
| OverflowError
| MergeError
| ParserError (file : string)
| BadZipFile (file : string)
| OutsideModel (why : string).   (* not a Python exception: see DataFrames *)

Inductive result (A : Type) : Type :=
| Ok (a : A)
| Raise (e : exn).
Arguments Ok {A} a.
Arguments Raise {A} e.

#[global] Instance result_ret : MRet result := @Ok.
#[global] Instance result_bind : MBind result := λ A B f m,
  match m with
  | Ok a => f a
  | Raise e => Raise e
  end.
#[global] Instance result_fmap : FMap result := λ A B f m,
  match m with
  | Ok a => Ok (f a)
  | Raise e => Raise e
  end.

Definition is_ok {A} (r : result A) : bool :=
  match r with Ok _ => true | Raise _ => false end.

(** The truth value of an argument, as in [if x:]. *)
Definition truthy (x : pyval) : bool :=
  match x with
  | PNone => false
  | PInt z => negb (z =? 0)
  | PFloat (S754_zero _) => false
  | PFloat _ => true
  | PStr s => negb (bool_decide (s = ""%string))
  end.

#[global] Instance spec_float_eq_dec : EqDecision spec_float.
Proof. solve_decision. Defined.
#[global] Instance pyval_eq_dec : EqDecision pyval.
Proof. solve_decision. Defined.
#[global] Instance key_error_eq_dec : EqDecision key_error.
Proof. solve_decision. Defined.
#[global] Instance exn_eq_dec : EqDecision exn.
Proof. solve_decision. Defined.

(* ----------------------------------------------------------------- *)
(** *** Strings: the [str] methods the module calls *)

Definition ascii_lower (c : ascii) : ascii :=
  let n := nat_of_ascii c in
  if ((65 <=? n) && (n <=? 90))%nat then ascii_of_nat (n + 32) else c.

(** [s.lower()] *)
Fixpoint lower (s : string) : string :=
  match s with
  | EmptyString => EmptyString
  | String c s' => String (ascii_lower c) (lower s')
  end.

Definition ascii_upper (c : ascii) : ascii :=
  let n := nat_of_ascii c in
  if ((97 <=? n) && (n <=? 122))%nat then ascii_of_nat (n - 32) else c.

(** [s.upper()], on the ASCII letters. *)
Fixpoint upper (s : string) : string :=
  match s with
  | EmptyString => EmptyString
  | String c s' => String (ascii_upper c) (upper s')
  end.

(** The characters of the class [[A-Za-z0-9]]. *)
Definition is_alnum (c : ascii) : bool :=
  let n := nat_of_ascii c in
  (((48 <=? n) && (n <=? 57)) || ((65 <=? n) && (n <=? 90))
   || ((97 <=? n) && (n <=? 122)))%nat.

(** [re.sub(r"[^A-Za-z0-9]", "", s)] *)
Fixpoint keep_alnum (s : string) : string :=
  match s with
  | EmptyString => EmptyString
  | String c s' => if is_alnum c then String c (keep_alnum s') else keep_alnum s'
  end.

(** [s.startswith(p)] and [s.endswith(p)] *)
Definition startswith (s p : string) : bool := String.prefix p s.
Definition endswith (s p : string) : bool :=
  String.prefix (String.rev p) (String.rev s).

Arguments startswith : simpl never.
Arguments endswith : simpl never.

(** [s.split(sep)[0]] for a one-character separator: the text before the
    first separator, the whole string when there is none. *)
Fixpoint split_first (sep : ascii) (s : string) : string :=
  match s with
  | EmptyString => EmptyString
  | String c s' => if Ascii.eqb c sep then EmptyString else String c (split_first sep s')
  end.

(** Characters that [str.strip], [int] and [float] treat as white space. *)
Definition py_isspace (c : ascii) : bool :=
  let n := nat_of_ascii c in
  (((9 <=? n) && (n <=? 13)) || ((28 <=? n) && (n <=? 32)))%nat.

Fixpoint lstrip (s : list ascii) : list ascii :=
  match s with
  | c :: s' => if py_isspace c then lstrip s' else s
  | [] => []
  end.
Definition strip (s : list ascii) : list ascii :=
  reverse (lstrip (reverse (lstrip s))).

Definition digit_val (c : ascii) : option Z :=
  let n := nat_of_ascii c in
  if ((48 <=? n) && (n <=? 57))%nat then Some (Z.of_nat n - 48) else None.

(** The characters [int()] and [float()] read as decimal digits. *)
Definition is_digit (c : ascii) : Prop := is_Some (digit_val c).

(** A [digitpart] of Python's numeric grammar, [digit (["_"] digit)*]:
    the digits read so far are [(v, n)] (value and count); the result is
    the value, the count and the unread text. *)
Fixpoint digitpart_go (s : list ascii) (v : Z) (n : Z) : Z * Z * list ascii :=
  match s with
  | c :: s' =>
      match digit_val c with
      | Some d => digitpart_go s' (10 * v + d) (n + 1)
      | None =>
          if Ascii.eqb c "_" then
            match s' with
            | c2 :: s'' =>
                match digit_val c2 with
                | Some d => digitpart_go s'' (10 * v + d) (n + 1)
                | None => (v, n, s)
                end
            | [] => (v, n, s)
            end
          else (v, n, s)
      end
  | [] => (v, n, [])
  end.

Definition digitpart (s : list ascii) : option (Z * Z * list ascii) :=
  match s with
  | c :: s' =>
      match digit_val c with
      | Some d => Some (digitpart_go s' d 1)
      | None => None
      end
  | [] => None
  end.

(** An optional sign: [true] for "-". *)
Definition sign_of (s : list ascii) : bool * list ascii :=
  match s with
  | c :: s' =>
      if Ascii.eqb c "-" then (true, s')
      else if Ascii.eqb c "+" then (false, s')
      else (false, s)
  | [] => (false, [])
  end.

(** [int(s)] for a string [s], base ten. *)
Definition py_int_of_str (s : string) : result Z :=
  let '(neg, s1) := sign_of (strip (list_ascii_of_string s)) in
  match digitpart s1 with
  | Some (v, _, []) => Ok (if neg then - v else v)
  | _ => Raise ValueError
  end.

(* ----------------------------------------------------------------- *)
(** *** Floats: [float(x)] and [int(f)] *)

Definition prec : Z := 53.
Definition emax : Z := 1024.

(** What a float literal denotes before rounding. *)
Inductive float_lit : Type :=
| LitInf
| LitNan
| LitDec (m : Z) (e10 : Z).   (* m * 10^e10, m >= 0 *)

Definition exponent_part (s : list ascii) : option (Z * list ascii) :=
  match s with
  | c :: s' =>
      if Ascii.eqb c "e" || Ascii.eqb c "E" then
        let '(neg, s1) := sign_of s' in
        match digitpart s1 with
        | Some (v, _, rest) => Some (if neg then - v else v, rest)
        | None => None
        end
      else Some (0, s)
  | [] => Some (0, [])
  end.

(** [number [exponent]] with
    [number ::= [digitpart] "." digitpart | digitpart ["."]]. *)
Definition decimal_literal (s : list ascii) : option float_lit :=
  let '(ip, s1) :=
    match digitpart s with
    | Some (v, n, rest) => (Some v, rest)
    | None => (None, s)
    end in
  let '(fp, s2) :=
    match s1 with
    | c :: s1' =>
        if Ascii.eqb c "." then
          match digitpart s1' with
          | Some (v, n, rest) => (Some (v, n), rest)
          | None => (None, s1')
          end
        else (None, s1)
    | [] => (None, [])
    end in
  let mant :=
    match ip, fp with
    | Some i, Some (f, n) => Some (i * 10 ^ n + f, n)
    | Some i, None => Some (i, 0)
    | None, Some (f, n) => Some (f, n)
    | None, None => None
    end in
  match mant with
  | Some (m, n) =>
      match exponent_part s2 with
      | Some (e, []) => Some (LitDec m (e - n))
      | _ => None
      end
  | None => None
  end.

Definition float_literal (s : string) : option (bool * float_lit) :=
  let '(neg, s1) := sign_of (strip (list_ascii_of_string s)) in
  let word := lower (string_of_list_ascii s1) in
  if decide (word = "inf" ∨ word = "infinity") then Some (neg, LitInf)
  else if decide (word = "nan") then Some (neg, LitNan)
  else pair neg <$> decimal_literal s1.

(** The binary64 nearest to [m * 10^e10] (ties to even). For a negative
    exponent the quotient is computed with 64 spare bits and the remainder
    is handed to the rounding as its location. *)
Definition float_of_decimal (neg : bool) (m e10 : Z) : spec_float :=
  match m with
  | Z0 => S754_zero neg
  | Zneg _ => S754_nan
  | Zpos _ =>
      if 0 <=? e10 then binary_normalize prec emax (if neg then - (m * 10 ^ e10) else m * 10 ^ e10) 0 neg
      else
        let d := 10 ^ (- e10) in
        let k := 64 + Z.log2_up d in
        let q := (m * 2 ^ k) / d in
        let r := (m * 2 ^ k) mod d in
        let loc := if r =? 0 then loc_Exact else loc_Inexact (2 * r ?= d) in
        binary_round_aux prec emax neg q (- k) loc
  end.

(** [float(z)] for a Python int: [OverflowError] when out of range. *)
Definition float_of_int (z : Z) : result spec_float :=
  match binary_normalize prec emax z 0 false with
  | S754_infinity _ => Raise OverflowError
  | f => Ok f
  end.

Definition float_of_str (s : string) : result spec_float :=
  match float_literal s with
  | Some (neg, LitInf) => Ok (S754_infinity neg)
  | Some (_, LitNan) => Ok S754_nan
  | Some (neg, LitDec m e) => Ok (float_of_decimal neg m e)
  | None => Raise ValueError
  end.

(** [float(x)] *)
Definition py_float (x : pyval) : result spec_float :=
  match x with
  | PInt z => float_of_int z
  | PFloat f => Ok f
  | PStr s => float_of_str s
  | PNone => Raise TypeError
  end.

(** [int(f)] for a float: truncation towards zero. *)
Definition py_int_of_float (f : spec_float) : result Z :=
  match f with
  | S754_zero _ => Ok 0
  | S754_infinity _ => Raise OverflowError
  | S754_nan => Raise ValueError
  | S754_finite s m e =>
      let a := if 0 <=? e then Z.shiftl (Zpos m) e else Z.shiftr (Zpos m) (- e) in
      Ok (if s then - a else a)
  end.

(** What the embedding takes from outside the repository: the text Python
    prints for a finite non-zero float, and the year pandas' [to_datetime]
    finds in a cell ([int(pd.to_datetime(v).year)], which raises on what it
    cannot read). *)
Class Library := {
  float_repr : spec_float → string;
  to_datetime_year : pyval → result Z;
}.

Section Program.
Context `{!Library}.

(** [str(x)] *)
Definition py_str (x : pyval) : string :=
  match x with
  | PInt z => pretty z
  | PFloat S754_nan => "nan"
  | PFloat (S754_infinity false) => "inf"
  | PFloat (S754_infinity true) => "-inf"
  | PFloat (S754_zero false) => "0.0"
  | PFloat (S754_zero true) => "-0.0"
  | PFloat f => float_repr f
  | PStr s => s
  | PNone => "None"
  end.

(** Lines 277-281:
<<
    def _id_str(self, x):
        try:
            return str(int(float(x)))
        except Exception:
            return str(x)
>> *)
Definition _id_str (x : pyval) : string :=
  match f ← py_float x; n ← py_int_of_float f; mret (py_str (PInt n)) with
  | Ok s => s
  | Raise _ => py_str x
  end.

End Program.

(* ================================================================= *)
(** ** DataFrames

    A frame has its column labels in order and its rows in order; a row maps
    each label to the cell under it. The index is not represented: every
    frame the module returns has been through [reset_index(drop=True)] or
    [ignore_index=True], or is never indexed by label. Column labels of a
    frame are distinct, as [pd.read_csv] makes them; where pandas would
    build a frame that repeats a label, the operation below stops with
    [OutsideModel]. *)

Abbreviation row := (gmap string pyval).

Record DataFrame : Type := mkDF {
  columns : list string;
  rows : list row;
}.

#[global] Instance DataFrame_eq_dec : EqDecision DataFrame.
Proof. solve_decision. Defined.

Definition NaN : pyval := PFloat S754_nan.

(** The cell of row [r] under label [c]; a cell that was never set reads as
    NaN, pandas' filler. *)
Definition cell (r : row) (c : string) : pyval := default NaN (r !! c).

(** [c in df.columns] *)
Definition in_columns (c : string) (df : DataFrame) : bool :=
  bool_decide (c ∈ columns df).

(** [df.empty]: some axis has length zero. *)
Definition df_empty (df : DataFrame) : bool :=
  bool_decide (columns df = []) || bool_decide (rows df = []).

(** [pd.DataFrame()] *)
Definition empty_frame : DataFrame := mkDF [] [].

(** [len(df)] *)
Definition n_rows (df : DataFrame) : nat := length (rows df).

Definition isna (v : pyval) : bool :=
  match v with
  | PFloat S754_nan | PNone => true
  | _ => false
  end.

Definition to_float_cell (v : pyval) : pyval :=
  match v with
  | PInt z => PFloat (binary_normalize prec emax z 0 false)
  | _ => v
  end.

(** Elementwise [==] of a column against a scalar: numbers are compared as
    binary64 (NaN equals nothing), text with text, and a number never equals
    a text. *)
Definition py_eq (a b : pyval) : bool :=
  match a, b with
  | PInt x, PInt y => x =? y
  | PStr s, PStr t => bool_decide (s = t)
  | PInt x, PFloat g => SFeqb (binary_normalize prec emax x 0 false) g
  | PFloat f, PInt y => SFeqb f (binary_normalize prec emax y 0 false)
  | PFloat f, PFloat g => SFeqb f g
  | _, _ => false
  end.

(** Equality of join keys and of rows in [drop_duplicates]: as [py_eq],
    and two missing values are the same key. *)
Definition same_key (a b : pyval) : bool :=
  (isna a && isna b) || py_eq a b.

(** [df[df[c] == v]] *)
Definition filter_eq (df : DataFrame) (c : string) (v : pyval) : DataFrame :=
  mkDF (columns df) (filter (λ r, py_eq (cell r c) v) (rows df)).

(** A row rebuilt over the labels [cols], each renamed by [f]. *)
Definition relabel (f : string → string) (cols : list string) (r : row) : row :=
  list_to_map ((λ c, (f c, cell r c)) <$> cols).

(** [df[cols]] for labels that are all in [df]. *)
Definition select (cols : list string) (df : DataFrame) : DataFrame :=
  mkDF cols (relabel id cols <$> rows df).

Fixpoint has_dup (l : list string) : bool :=
  match l with
  | [] => false
  | x :: l' => bool_decide (x ∈ l') || has_dup l'
  end.

Definition rename_label (ren : list (string * string)) (c : string) : string :=
  default c (snd <$> head (filter (λ p, bool_decide (p.1 = c)) ren)).

(** [df.rename(columns=ren)] *)
Definition rename_columns (ren : list (string * string)) (df : DataFrame)
  : result DataFrame :=
  let cols' := rename_label ren <$> columns df in
  if has_dup cols' then Raise (OutsideModel "rename repeats a column label")
  else Ok (mkDF cols' (relabel (rename_label ren) (columns df) <$> rows df)).

(** [df.drop(columns=[c], errors="ignore")] *)
Definition drop_column (c : string) (df : DataFrame) : DataFrame :=
  mkDF (filter (λ c', c' ≠ c) (columns df)) (delete c <$> rows df).

(** Distinct elements in order of first appearance. *)
Fixpoint dedup (l : list string) : list string :=
  match l with
  | [] => []
  | x :: l' => x :: filter (λ y, y ≠ x) (dedup l')
  end.

Definition is_numeric (v : pyval) : bool :=
  match v with PInt _ | PFloat _ => true | _ => false end.
Definition is_float (v : pyval) : bool :=
  match v with PFloat _ => true | _ => false end.

(** A column that pandas stores as float64: numbers only, one of them a
    float (a missing cell is the float NaN). *)
Definition float_column (rs : list row) (c : string) : bool :=
  forallb (λ r, is_numeric (cell r c)) rs && existsb (λ r, is_float (cell r c)) rs.

(** A row of the concatenation: over all the labels, ints of a float column
    as floats. *)
Definition conform (cols : list string) (rs : list row) (r : row) : row :=
  list_to_map
    ((λ c, (c, if float_column rs c then to_float_cell (cell r c) else cell r c))
       <$> cols).

(** [pd.concat(frames, ignore_index=True)] for a non-empty list: the rows of
    the frames one after the other, over the union of their labels in order
    of first appearance. *)
Definition pd_concat (frames : list DataFrame) : DataFrame :=
  let cols := dedup (concat (columns <$> frames)) in
  let rs := concat (rows <$> frames) in
  mkDF cols (conform cols rs <$> rs).

(** [hit.iloc[0]], where [hit] keeps rows of [df]: the row as a Series.
    When every column of the frame is numeric and one is float64 the Series
    is float64, otherwise it holds the cells as they are. *)
Definition as_series (df : DataFrame) (r : row) : row :=
  if forallb (λ c, forallb (λ r', is_numeric (cell r' c)) (rows df)) (columns df)
     && existsb (float_column (rows df)) (columns df)
  then to_float_cell <$> r
  else r.

(** Rows with no earlier row equal to them on all of [cols]. *)
Fixpoint drop_dups_go (cols : list string) (seen rs : list row) : list row :=
  match rs with
  | [] => []
  | r :: rs' =>
      if existsb (λ r', forallb (λ c, same_key (cell r c) (cell r' c)) cols) seen
      then drop_dups_go cols seen rs'
      else r :: drop_dups_go cols (r :: seen) rs'
  end.

(** [df.drop_duplicates()] *)
Definition drop_duplicates (df : DataFrame) : DataFrame :=
  mkDF (columns df) (drop_dups_go (columns df) [] (rows df)).

(** The rows [left.merge(right, on=key, how="left")] makes of one left row:
    one per right row with the same key, in the order of [right], and one
    with the right-hand cells missing when there is none. *)
Definition merge_row (key : string) (lname rname : string → string)
    (lcols rcols : list string) (right_rows : list row) (l : row) : list row :=
  let lrow := relabel lname lcols l in
  match filter (λ r, same_key (cell l key) (cell r key)) right_rows with
  | [] => [relabel rname rcols ∅ ∪ lrow]
  | ms => (λ r, relabel rname rcols r ∪ lrow) <$> ms
  end.

(** [left.merge(right, on=key, how="left")]. A label other than the key that
    both sides carry gets the suffixes [_x] and [_y]. *)
Definition merge_left (left right : DataFrame) (key : string) : result DataFrame :=
  if negb (in_columns key left && in_columns key right)
  then Raise (KeyError (MissingLabel key))
  else
    let rcols := filter (λ c, c ≠ key) (columns right) in
    let clash c := bool_decide (c ≠ key ∧ c ∈ columns left ∧ c ∈ rcols) in
    let lname c := if clash c then c +:+ "_x" else c in
    let rname c := if clash c then c +:+ "_y" else c in
    let lcols' := lname <$> columns left in
    let rcols' := rname <$> rcols in
    if has_dup lcols' || has_dup rcols' then Raise MergeError
    else if has_dup (lcols' ++ rcols')
    then Raise (OutsideModel "merge repeats a column label")
    else Ok (mkDF (lcols' ++ rcols')
               (rows left ≫= merge_row key lname rname (columns left) rcols (rows right))).

(** [df.get(c, pd.Series([None] * len(df)))]: the column under [c], or as
    many [None] when there is no such column. *)
Definition get_column (df : DataFrame) (c : string) : list pyval :=
  if in_columns c df then (λ r, cell r c) <$> rows df
  else (λ _, PNone) <$> rows df.

(** [s.fillna("")], on one cell. *)
Definition fillna_empty (v : pyval) : pyval :=
  if isna v then PStr "" else v.

(** [df.loc[mask, c].reset_index(drop=True)] for a Boolean mask as long as
    the frame. *)
Definition loc_mask (df : DataFrame) (mask : list bool) (c : string)
  : result (list pyval) :=
  if in_columns c df
  then Ok ((λ p, cell p.1 c) <$> filter (λ p, p.2 = true) (zip (rows df) mask))
  else Raise (KeyError (MissingLabel c)).

(* ================================================================= *)
(** ** The disk and the repository instance *)

(** What a directory entry is to the loader: what [pd.read_csv] makes of it,
    and what [zipfile.ZipFile] finds in it, the members in the order of
    [namelist()] with what [pd.read_csv] makes of each. *)
Record file : Type := mkFile {
  as_csv : result DataFrame;
  as_zip : result (list (string * result DataFrame));
}.

(** The dataset directory: the files of [base_data/] by name with what
    [pd.read_csv] makes of them, and the other sub-directories with their
    entries in the order [os.listdir] gives them. *)
Record filesystem : Type := mkFS {
  base_data : gmap string (result DataFrame);
  folders : gmap string (list (string * file));
}.

(** A DataFrame object is a location of the heap. *)
Abbreviation loc := nat.

(** The instance ([self]) with the world around it: the disk under
    [root_dir], the flag, the cache (table name to DataFrame object), the
    DataFrame objects created so far, and the number of accesses to the files
    of [base_data/], the ones the cache is there to save. *)
Record repo : Type := mkRepo {
  root_dir : filesystem;
  autocache : bool;
  _cache : gmap string loc;
  heap : list DataFrame;
  io_count : nat;
}.

Definition set_cache (f : gmap string loc → gmap string loc) (st : repo) : repo :=
  mkRepo (root_dir st) (autocache st) (f (_cache st)) (heap st) (io_count st).
Definition set_heap (f : list DataFrame → list DataFrame) (st : repo) : repo :=
  mkRepo (root_dir st) (autocache st) (_cache st) (f (heap st)) (io_count st).
Definition set_io_count (f : nat → nat) (st : repo) : repo :=
  mkRepo (root_dir st) (autocache st) (_cache st) (heap st) (f (io_count st)).
Definition set_root_dir (fs : filesystem) (st : repo) : repo :=
  mkRepo fs (autocache st) (_cache st) (heap st) (io_count st).

(** Methods: state in, result or exception and state out. *)
Definition M (A : Type) : Type := repo → result A * repo.

#[global] Instance M_ret : MRet M := λ A a st, (Ok a, st).
#[global] Instance M_bind : MBind M := λ A B f m st,
  match m st with
  | (Ok a, st') => f a st'
  | (Raise e, st') => (Raise e, st')
  end.

Definition raise {A} (e : exn) : M A := λ st, (Raise e, st).
Definition lift {A} (r : result A) : M A := λ st, (r, st).
Definition gets {A} (f : repo → A) : M A := λ st, (Ok (f st), st).
Definition modify (f : repo → repo) : M unit := λ st, (Ok tt, f st).

(** A new DataFrame object. *)
Definition alloc (df : DataFrame) : M loc :=
  λ st, (Ok (length (heap st)), set_heap (λ h, h ++ [df]) st).
(** The frame an object holds now. *)
Definition deref (l : loc) : M DataFrame :=
  gets (λ st, default empty_frame (heap st !! l)).
(** [df.copy()]: a new object with the same content. *)
Definition copy (l : loc) : M loc :=
  df ← deref l; alloc df.

(** One access to a file of [base_data/]. *)
Definition io : M unit := modify (set_io_count S).

(** [path.exists()] for [path = root_dir / "base_data" / fname] *)
Definition base_path_exists (fname : string) : M bool :=
  io;; gets (λ st, bool_decide (is_Some (base_data (root_dir st) !! fname))).

(** [pd.read_csv(path)] for a file of [base_data/]: a new object. *)
Definition read_csv_base (fname : string) : M loc :=
  io;;
  r ← gets (λ st, base_data (root_dir st) !! fname);
  match r with
  | Some (Ok df) => alloc df
  | Some (Raise e) => raise e
  | None => raise (FileNotFoundError fname)
  end.

(** Lines 99-109. *)
Definition BASE_TABLES : gmap string string :=
  list_to_map [
    ("fixtures", "fixtures.csv");
    ("teams", "teams.csv");
    ("players", "players.csv");
    ("leagues", "leagues.csv");
    ("venues", "venues.csv");
    ("team_stats", "teamStats.csv");
    ("standings", "standings.csv");
    ("team_roster", "teamRoster.csv");
    ("status", "status.csv")
  ]%string.

Arguments BASE_TABLES : simpl never.

(** Lines 120-146. *)
Definition _load_base_table (name : string) : M loc :=
  cache ← gets _cache;
  match cache !! name with
  | Some l => copy l
  | None =>
      match BASE_TABLES !! name with
      | None => raise (KeyError (UnknownBaseTable name))
      | Some fname =>
          found ← base_path_exists fname;
          if negb found then raise (FileNotFoundError fname)
          else
            df ← read_csv_base fname;
            ac ← gets autocache;
            (if ac : bool then modify (set_cache <[name := df]>) else mret tt);;
            copy df
      end
  end.

(** Lines 148-223. *)
Definition fixtures : M loc := _load_base_table "fixtures".
Definition teams : M loc := _load_base_table "teams".
Definition players : M loc := _load_base_table "players".
Definition leagues : M loc := _load_base_table "leagues".
Definition venues : M loc := _load_base_table "venues".
Definition team_stats : M loc := _load_base_table "team_stats".
Definition standings : M loc := _load_base_table "standings".
Definition team_roster : M loc := _load_base_table "team_roster".
Definition status : M loc := _load_base_table "status".

(** Lines 263-268: the members of an opened archive. *)
Fixpoint read_members (members : list (string * result DataFrame))
    (data_frames : list DataFrame) : result (list DataFrame) :=
  match members with
  | [] => Ok data_frames
  | (inner_name, content) :: members' =>
      if negb (endswith (lower inner_name) ".csv")
      then read_members members' data_frames
      else
        df ← content;
        read_members members' (data_frames ++ [df])
  end.

(** Lines 252-268: the loop over the entries of the folder. *)
Fixpoint read_entries (pattern : string) (entries : list (string * file))
    (data_frames : list DataFrame) : result (list DataFrame) :=
  match entries with
  | [] => Ok data_frames
  | (fname, f) :: entries' =>
      if negb (startswith fname pattern)
      then read_entries pattern entries' data_frames
      else if endswith (lower fname) ".csv" then
        df ← as_csv f;
        read_entries pattern entries' (data_frames ++ [df])
      else if endswith (lower fname) ".zip" then
        members ← as_zip f;
        data_frames' ← read_members members data_frames;
        read_entries pattern entries' data_frames'
      else read_entries pattern entries' data_frames
  end.

(** Lines 227-272. The method reads the disk and nothing else of the
    instance. *)
Definition _load_files_by_pattern (subfolder pattern : string) : M DataFrame :=
  fs ← gets root_dir;
  match folders fs !! subfolder with
  | None => raise (FileNotFoundError subfolder)
  | Some entries =>
      data_frames ← lift (read_entries pattern entries []);
      match data_frames with
      | [] => mret empty_frame
      | _ => mret (pd_concat data_frames)
      end
  end.

Section Program2.
Context `{!Library}.

(** [df[c] = df[c].astype(str)] *)
Definition astype_str (c : string) (df : DataFrame) : DataFrame :=
  mkDF (columns df) ((λ r, <[c := PStr (py_str (cell r c))]> r) <$> rows df).

Definition id_candidates : list string :=
  ["eventId"; "eventid"; "gameId"; "id"; "matchId"]%string.
Definition league_candidates : list string :=
  ["leagueId"; "midsizeName"; "league"; "league_code"]%string.

(** Lines 292-297: the first row of the first candidate column that holds
    the id. *)
Fixpoint find_event_row (fx : DataFrame) (eid : string) (candidates : list string)
  : option row :=
  match candidates with
  | [] => None
  | c :: candidates' =>
      match filter (λ r, _id_str (cell r c) = eid) (rows fx) with
      | r :: _ => Some (as_series fx r)
      | [] => find_event_row fx eid candidates'
      end
  end.

(** Lines 287 and 291-318: what the resolver makes of the fixtures [fx]. *)
Definition season_league_of (fx : DataFrame) (event_id : pyval)
  : result (Z * option string) :=
  let eid := _id_str event_id in
  let candidates := filter (λ c, c ∈ columns fx) id_candidates in
  match find_event_row fx eid candidates with
  | None => Raise (KeyError (EventNotInFixtures event_id))
  | Some row =>
      season_year ← (
        if in_columns "seasonYear" fx then
          py_int_of_str (_id_str (cell row "seasonYear"))
        else if in_columns "season" fx then
          let sv := py_str (cell row "season") in
          py_int_of_str (split_first "-" sv)
        else if in_columns "date" fx then
          to_datetime_year (cell row "date")
        else Raise (KeyError (MissingLabel "date")));
      let league_code :=
        (λ c, py_str (cell row c))
          <$> head (filter (λ c, c ∈ columns fx) league_candidates) in
      Ok (season_year, league_code)
  end.

(** Lines 284-318: [fx = self.fixtures().copy()], then the above. *)
Definition _derive_season_league_code (event_id : pyval) : M (Z * option string) :=
  l ← fixtures;
  l' ← copy l;
  fx ← deref l';
  lift (season_league_of fx event_id).

(** [f"{stem}_{season_year}_{league_code}"] *)
Definition partition_prefix (stem : string) (season_year : Z)
    (league_code : option string) : string :=
  stem +:+ "_" +:+ pretty season_year +:+ "_" +:+ default "None" league_code.

(** The body the five accessors of lines 323-395 share. *)
Definition detail_for_event (subfolder stem : string) (event_id : pyval)
  : M DataFrame :=
  '(season_year, league_code) ← _derive_season_league_code event_id;
  df ← _load_files_by_pattern subfolder (partition_prefix stem season_year league_code);
  let df :=
    if negb (df_empty df) && in_columns "eventId" df
    then filter_eq df "eventId" event_id
    else df in
  mret df.

Definition commentary_for_event : pyval → M DataFrame :=
  detail_for_event "commentary_data" "commentary".
Definition key_events_for_event : pyval → M DataFrame :=
  detail_for_event "keyEvents_data" "keyEvents".
Definition lineup_for_event : pyval → M DataFrame :=
  detail_for_event "lineup_data" "lineup".
Definition player_stats_for_event : pyval → M DataFrame :=
  detail_for_event "playerStats_data" "playerStats".

(** [re.sub(r"[^A-Za-z0-9]", "", s).upper()] *)
Definition clean_code (s : string) : string := upper (keep_alnum s).

(** Lines 423-426: a league column of the fixtures, cleaned:
    [fixtures.get(c, ...).fillna("").astype(str).str.replace(...).str.upper()] *)
Definition clean_column (fixtures_df : DataFrame) (c : string) : list string :=
  (λ v, clean_code (py_str (fillna_empty v))) <$> get_column fixtures_df c.

(** Lines 419-430: what [list_events] makes of the fixtures it loaded. *)
Definition events_of (fixtures_df : DataFrame) (league_code season_year : pyval)
  : result (list pyval) :=
  let mask := (λ _, true) <$> rows fixtures_df in
  mask ← (
    if truthy league_code then
      match league_code with
      | PStr s =>
          let code_clean := clean_code s in
          let league_ids_clean := clean_column fixtures_df "leagueId" in
          let mids_clean := clean_column fixtures_df "midsizeName" in
          Ok (zip_with andb mask
                (zip_with orb
                   ((λ x, bool_decide (x = code_clean)) <$> league_ids_clean)
                   ((λ x, bool_decide (x = code_clean)) <$> mids_clean)))
      | _ => Raise TypeError   (* [re.sub] on what is no text *)
      end
    else Ok mask);
  let mask :=
    if truthy season_year then
      zip_with andb mask
        ((λ v, bool_decide (py_str v = py_str season_year))
           <$> get_column fixtures_df "season")
    else mask in
  loc_mask fixtures_df mask "eventId".

(** Lines 399-430: [fixtures = self.fixtures()], then the above. *)
Definition list_events (league_code season_year : pyval) : M (list pyval) :=
  l ← fixtures;
  fixtures_df ← deref l;
  lift (events_of fixtures_df league_code season_year).

Definition position_candidates : list string :=
  ["position"; "positionName"; "playerPosition"; "positionFullName";
   "positionAbbr"]%string.

(** Lines 444-446: the join keys as text. *)
Definition keys_as_str (df : DataFrame) : DataFrame :=
  foldl (λ df c, if in_columns c df then astype_str c df else df) df
    ["athleteId"; "teamId"; "eventId"]%string.

(** Lines 449-462, with [players = self.players().copy()] given. *)
Definition join_players (df players : DataFrame) : result DataFrame :=
  let players :=
    if in_columns "athleteId" players
    then astype_str "athleteId" players else players in
  let keep_player_cols :=
    filter (λ c, c ∈ columns players)
      ["athleteId"; "shortName"; "displayName"; "nationality"]%string in
  players ← rename_columns
    (filter (λ kv, kv.1 ∈ keep_player_cols)
       [("shortName", "playerShortName");
        ("displayName", "playerName");
        ("nationality", "playerNationality")]%string)
    (select keep_player_cols players);
  merge_left df players "athleteId".

(** Lines 465-477, with [teams = self.teams().copy()] given. The key has the
    same name on both sides, so the merge keeps one [teamId] column, which
    the [drop] then removes. *)
Definition join_teams (out teams : DataFrame) : result DataFrame :=
  if in_columns "teamId" teams then
    let teams := astype_str "teamId" teams in
    let keep_team_cols :=
      filter (λ c, c ∈ columns teams)
        ["teamId"; "displayName"; "shortName"; "abbrev"]%string in
    teams ← rename_columns
      (filter (λ kv, kv.1 ∈ keep_team_cols)
         [("displayName", "teamName");
          ("shortName", "teamShortName");
          ("abbrev", "teamAbbrev")]%string)
      (select keep_team_cols teams);
    out ← merge_left out teams "teamId";
    Ok (drop_column "teamId" out)
  else Ok out.

(** Lines 480-482: the first event id of the statistics that is not
    missing, as text. *)
Definition first_event_id (df : DataFrame) : option string :=
  if in_columns "eventId" df
     && existsb (λ r, negb (isna (cell r "eventId"))) (rows df)
  then (λ r, py_str (PStr (py_str (cell r "eventId"))))
         <$> head (filter (λ r, negb (isna (cell r "eventId"))) (rows df))
  else None.

(** Lines 486-494, with [lineup = self.lineup_for_event(event_id)] given. *)
Definition join_position (out lineup : DataFrame) : result DataFrame :=
  if negb (df_empty lineup) && in_columns "athleteId" lineup then
    let lineup := astype_str "athleteId" lineup in
    match head (filter (λ c, c ∈ columns lineup) position_candidates) with
    | Some pos_col =>
        let lineup := drop_duplicates (select ["athleteId"; pos_col] lineup) in
        out ← merge_left out lineup "athleteId";
        rename_columns [(pos_col, "position")] out
    | None => Ok out
    end
  else Ok out.

(** Lines 434-496. *)
Definition merge_player_stats (player_stats_df : DataFrame) : M DataFrame :=
  let df := player_stats_df in
  if df_empty df then mret df
  else
    let df := keys_as_str df in
    (* players *)
    lp ← players;
    lp' ← copy lp;
    players_df ← deref lp';
    out ← lift (join_players df players_df);
    (* teams *)
    lt ← teams;
    lt' ← copy lt;
    teams_df ← deref lt';
    out ← lift (join_teams out teams_df);
    (* position from the lineup *)
    match first_event_id df with
    | Some event_id =>
        if bool_decide (event_id = "") then mret out
        else
          lineup ← lineup_for_event (PStr event_id);
          lift (join_position out lineup)
    | None => mret out
    end.

End Program2.

(** Lines 111-116: a new instance over the directory, when there is one. *)
Definition __init__ (root : option filesystem) (autocache : bool) : result repo :=
  match root with
  | None => Raise (FileNotFoundError "root_dir")
  | Some fs => Ok (mkRepo fs autocache ∅ [] 0%nat)
  end.

(* ================================================================= *)
(** ** The caller: the quality probe of src/Fanta.py *)

(** Lines 15-19: the first of [names] that is a column of [df]. *)
Definition pick (df : DataFrame) (names : list string) : option string :=
  head (filter (λ c, c ∈ columns df) names).

(** Line 101. *)
Definition has_rows (df : DataFrame) : bool := negb (df_empty df).

Definition is_ascii (c : ascii) : bool := (nat_of_ascii c <? 128)%nat.

(** [s.replace(ch, " ")] for a character [ch]. *)
Definition replace_by_space (ch : ascii) (s : list ascii) : list ascii :=
  (λ c, if Ascii.eqb c ch then " "%char else c) <$> s.

(** [s.split()]: the runs of characters that are not white space; [word]
    is the run being read. *)
Fixpoint split_ws (s : list ascii) (word : list ascii) : list (list ascii) :=
  match s with
  | [] => match word with [] => [] | _ => [word] end
  | c :: s' =>
      if py_isspace c then
        match word with
        | [] => split_ws s' []
        | _ => word :: split_ws s' []
        end
      else split_ws s' (word ++ [c])
  end.

(** [" ".join(words)] *)
Fixpoint join_space (words : list (list ascii)) : list ascii :=
  match words with
  | [] => []
  | [w] => w
  | w :: words' => w ++ " "%char :: join_space words'
  end.

(** Line 24: the characters [norm] turns into spaces. *)
Definition norm_separators : list ascii :=
  ["."; "-"; "_"; "/"; "\"; "("; ")"; "["; "]"; ","; ":"]%char.

(** Lines 21-26, on ASCII text, which [ud.normalize("NFKD", s)] and the
    round trip through ASCII bytes leave as it is:
<<
    def norm(s: str) -> str:
        s = str(s)
        s = ud.normalize("NFKD", s).encode("ascii", "ignore").decode("ascii")
        for ch in [".", "-", "_", "/", "\\", "(", ")", "[", "]", ",", ":"]:
            s = s.replace(ch, " ")
        return " ".join(s.lower().split())
>> *)
Definition norm_text (s : string) : result string :=
  if forallb is_ascii (list_ascii_of_string s) then
    let s := foldl (λ s ch, replace_by_space ch s) (list_ascii_of_string s)
               norm_separators in
    let s := list_ascii_of_string (lower (string_of_list_ascii s)) in
    Ok (string_of_list_ascii (join_space (split_ws s [])))
  else Raise (OutsideModel "text that is not ASCII").

Section Probe.
Context `{!Library}.

(** [norm] on a value: [s = str(s)] first. *)
Definition norm (x : pyval) : result string := norm_text (py_str x).

(** Lines 102-110, the body of the loop over the sampled ids: the four
    accessors one after the other, and a row of flags; any exception gives
    the row with every flag off. *)
Definition probe (eid : pyval) : M (pyval * bool * bool * bool * bool) :=
  λ st,
    match (c ← commentary_for_event eid;
           k ← key_events_for_event eid;
           l ← lineup_for_event eid;
           p ← player_stats_for_event eid;
           mret (eid, has_rows c, has_rows k, has_rows l, has_rows p)) st with
    | (Raise (OutsideModel why), st') => (Raise (OutsideModel why), st')
    | (Raise _, st') => (Ok (eid, false, false, false, false), st')
    | (Ok res, st') => (Ok res, st')
    end.

End Probe.

(* ================================================================= *)
(** ** Notions the statements use *)

(** The cache points into the heap. *)
Definition cache_wf (st : repo) : Prop :=
  ∀ name l, _cache st !! name = Some l → (l < length (heap st))%nat.

(** The table a call of [_load_base_table name] returns the content of, if
    it returns: the cached object when there is one, else the file. *)
Definition base_table (st : repo) (name : string) : option DataFrame :=
  match _cache st !! name with
  | Some l => heap st !! l
  | None =>
      match BASE_TABLES !! name with
      | Some fname =>
          match base_data (root_dir st) !! fname with
          | Some (Ok df) => Some df
          | _ => None
          end
      | None => None
      end
  end.

(** What one member of an archive adds to [data_frames] (lines 264-268). *)
Definition member_frames (m : string * result DataFrame) : result (list DataFrame) :=
  if negb (endswith (lower m.1) ".csv") then Ok []
  else df ← m.2; Ok [df].

(** What one entry of the folder adds to [data_frames] (lines 253-268). *)
Definition entry_frames (pattern : string) (e : string * file)
  : result (list DataFrame) :=
  if negb (startswith e.1 pattern) then Ok []
  else if endswith (lower e.1) ".csv" then df ← as_csv e.2; Ok [df]
  else if endswith (lower e.1) ".zip" then
    members ← as_zip e.2; read_members members []
  else Ok [].

Definition frames_or_nil {A} (r : result (list A)) : list A :=
  match r with Ok l => l | Raise _ => [] end.

(** The instance as it is with another disk under it. *)
Definition with_folder (subfolder : string) (entries : list (string * file))
    (st : repo) : repo :=
  set_root_dir
    (mkFS (base_data (root_dir st)) (<[subfolder := entries]> (folders (root_dir st))))
    st.

(** What a caller holding DataFrame objects can do to an instance: call
    [_load_base_table] (and own the object it returns), change an object it
    owns in place, and, as anybody, change the disk. The second component is
    the set of objects the caller owns. *)
Inductive caller_step : repo * gset loc → repo * gset loc → Prop :=
| step_load name st own l st' :
    _load_base_table name st = (Ok l, st') →
    caller_step (st, own) (st', {[l]} ∪ own)
| step_load_raises name st own e st' :
    _load_base_table name st = (Raise e, st') →
    caller_step (st, own) (st', own)
| step_mutate l (f : DataFrame → DataFrame) st own :
    l ∈ own →
    caller_step (st, own) (set_heap (alter f l) st, own)
| step_disk fs st own :
    caller_step (st, own) (set_root_dir fs st, own).

(** What holds of the instance and of the objects the caller owns, once the
    table [name] is cached with content [df0]: the cache points into the
    heap, the caller's objects are in the heap, none of them is a cached
    object, and the cached object of [name] holds [df0]. *)
Definition cache_inv (name : string) (df0 : DataFrame) (w : repo * gset loc) : Prop :=
  cache_wf w.1
  ∧ (∀ l, l ∈ w.2 → (l < length (heap w.1))%nat)
  ∧ (∀ n lc, _cache w.1 !! n = Some lc → lc ∉ w.2)
  ∧ ∃ lc, _cache w.1 !! name = Some lc ∧ heap w.1 !! lc = Some df0.

Section Notions.
Context `{!Library}.





End Notions.

(** What [norm] does to one character before it splits the text: the
    replacements of lines 24-25 one after the other, then [lower]. *)
Definition norm_char (c : ascii) : ascii :=
  ascii_lower
    (foldl (λ c ch, if Ascii.eqb c ch then " "%char else c) c norm_separators).

(** A word of [s.split()]: not empty, no white space in it. *)
Definition is_word (w : list ascii) : Prop :=
  w ≠ [] ∧ Forall (λ c, py_isspace c = false) w.

Section Listing.
Context `{!Library}.

(** The cell of row [r] that [df.get(c, ...)] reads: [None] when the frame
    has no column [c]. *)
Definition got_cell (df : DataFrame) (r : row) (c : string) : pyval :=
  if in_columns c df then cell r c else PNone.

(** The row passes the league filter of [list_events]. *)
Definition league_selects (fx : DataFrame) (code_clean : string) (r : row) : bool :=
  bool_decide (clean_code (py_str (fillna_empty (got_cell fx r "leagueId"))) = code_clean)
  || bool_decide (clean_code (py_str (fillna_empty (got_cell fx r "midsizeName"))) = code_clean).

(** The row passes the season filter of [list_events]. *)
Definition season_selects (fx : DataFrame) (season_year : pyval) (r : row) : bool :=
  bool_decide (py_str (got_cell fx r "season") = py_str season_year).

(** The row passes the filters that are on. *)
Definition listed (fx : DataFrame) (league_code season_year : pyval) (r : row) : bool :=
  (if truthy league_code then
     match league_code with
     | PStr s => league_selects fx (clean_code s) r
     | _ => false
     end
   else true)
  && (if truthy season_year then season_selects fx season_year r else true).

End Listing.

(** [st'] is [st] after some tables were loaded: the same disk and flag, a
    cache that still points into the heap, and the same table under every
    name. *)
Definition stable (st st' : repo) : Prop :=
  cache_wf st'
  ∧ root_dir st' = root_dir st
  ∧ autocache st' = autocache st
  ∧ ∀ name, base_table st' name = base_table st name.

(* ================================================================= *)
(** ** Sample data

    A small dataset in the layout of the Kaggle archive, for the examples. *)

(** A library for the examples. It prints a float with an integral value
    as Python does below 1e16 ("100.0"), and reads the year off an ISO
    date; the examples ask it nothing else. *)
Definition sample_library : Library := {|
  float_repr := λ f,
    match py_int_of_float f with
    | Ok n => pretty n +:+ ".0"
    | Raise _ => "nan"
    end;
  to_datetime_year := λ v,
    match v with
    | PStr s => py_int_of_str (substring 0 4 s)
    | _ => Raise ValueError
    end;
|}.

Definition record (cells : list (string * pyval)) : row := list_to_map cells.

(** [fixtures.csv]: one match, id 100, of the 2024-2025 season of ITA.1. *)
Definition sample_fixtures : DataFrame :=
  mkDF ["id"; "season"; "leagueId"]%string
    [record [("id", PInt 100); ("season", PStr "2024-2025");
             ("leagueId", PStr "ITA.1")]%string].

(** [commentary_2024_ITA.1_part1.csv]: a line for match 100 and one for
    match 200. *)
Definition sample_commentary : DataFrame :=
  mkDF ["eventId"; "text"]%string
    [record [("eventId", PInt 100); ("text", PStr "Kick off")]%string;
     record [("eventId", PInt 200); ("text", PStr "Goal")]%string].

(** [players.csv], where athlete 7 is listed twice. *)
Definition sample_players : DataFrame :=
  mkDF ["athleteId"; "displayName"]%string
    [record [("athleteId", PInt 7); ("displayName", PStr "A. Rossi")]%string;
     record [("athleteId", PInt 7); ("displayName", PStr "Antonio Rossi")]%string].

(** [players.csv] with one line per athlete. *)
Definition sample_players_unique : DataFrame :=
  mkDF ["athleteId"; "displayName"]%string
    [record [("athleteId", PInt 7); ("displayName", PStr "A. Rossi")]%string;
     record [("athleteId", PInt 9); ("displayName", PStr "B. Bianchi")]%string].

Definition sample_teams : DataFrame :=
  mkDF ["teamId"; "displayName"]%string
    [record [("teamId", PInt 1); ("displayName", PStr "Torino")]%string].

(** Player statistics of match 100: one line, for athlete 7. *)
Definition sample_stats : DataFrame :=
  mkDF ["athleteId"; "teamId"; "eventId"; "goals"]%string
    [record [("athleteId", PInt 7); ("teamId", PInt 1); ("eventId", PInt 100);
             ("goals", PInt 2)]%string].

(** Player statistics that name match 999, which the fixtures do not have. *)
Definition sample_stats_unknown_event : DataFrame :=
  mkDF ["athleteId"; "teamId"; "eventId"; "goals"]%string
    [record [("athleteId", PInt 7); ("teamId", PInt 1); ("eventId", PInt 999);
             ("goals", PInt 2)]%string].

Definition sample_plays_a : DataFrame :=
  mkDF ["eventId"; "playId"]%string
    [record [("eventId", PInt 100); ("playId", PInt 1)]%string].
Definition sample_plays_b : DataFrame :=
  mkDF ["eventId"; "playId"]%string
    [record [("eventId", PInt 100); ("playId", PInt 2)]%string].

Definition csv_file (df : DataFrame) : file :=
  mkFile (Ok df) (Raise (BadZipFile "not an archive")).
Definition zip_file (members : list (string * result DataFrame)) : file :=
  mkFile (Raise (ParserError "not a table")) (Ok members).
Definition other_file : file :=
  mkFile (Raise (ParserError "not a table")) (Raise (BadZipFile "not an archive")).

Definition sample_plays_entries : list (string * file) :=
  [("plays_2024_ITA.1_a.csv", csv_file sample_plays_a);
   ("plays_2024_ITA.1_b.csv", csv_file sample_plays_b)]%string.

Definition sample_key_events_entries : list (string * file) :=
  [("keyEvents_2024_ITA.1.txt", other_file);
   ("keyEvents_2024_ITA.1.zip",
    zip_file [("README.md", Raise (ParserError "not a table"));
              ("events.csv", Ok sample_plays_a)])]%string.

Definition sample_disk (players_table : DataFrame) : filesystem :=
  mkFS
    (list_to_map
       [("fixtures.csv", Ok sample_fixtures);
        ("players.csv", Ok players_table);
        ("teams.csv", Ok sample_teams)]%string)
    (list_to_map
       [("commentary_data",
         [("commentary_2024_ITA.1_part1.csv", csv_file sample_commentary)]);
        ("keyEvents_data", sample_key_events_entries);
        ("lineup_data", []);
        ("playerStats_data", []);
        ("plays_data", sample_plays_entries)]%string).

(** A new instance over the sample dataset. *)
Definition sample_repo : repo :=
  mkRepo (sample_disk sample_players) true ∅ [] 0%nat.
Definition sample_repo_unique : repo :=
  mkRepo (sample_disk sample_players_unique) true ∅ [] 0%nat.

(** A calendar with an [eventId] column: three matches, two of the 2024
    season, two of the league ita.1. *)
Definition sample_calendar : DataFrame :=
  mkDF ["eventId"; "season"; "leagueId"]%string
    [record [("eventId", PInt 100); ("season", PInt 2024);
             ("leagueId", PStr "ita.1")]%string;
     record [("eventId", PInt 101); ("season", PInt 2024);
             ("leagueId", PStr "eng.1")]%string;
     record [("eventId", PInt 102); ("season", PInt 2023);
             ("leagueId", PStr "ita.1")]%string].

(** A new instance over a dataset that has this calendar and nothing else. *)
Definition sample_repo_calendar : repo :=
  mkRepo (mkFS (list_to_map [("fixtures.csv", Ok sample_calendar)]%string) ∅)
         true ∅ [] 0%nat.

(** [lineup_2024_ITA.1.csv]: the lineup of match 100, the ids as numbers. *)
Definition sample_lineup : DataFrame :=
  mkDF ["eventId"; "athleteId"; "position"]%string
    [record [("eventId", PInt 100); ("athleteId", PInt 7);
             ("position", PStr "F")]%string].

(** A dataset where every detail folder has a file of the 2024 season of
    ITA.1. *)
Definition sample_disk_full : filesystem :=
  mkFS (base_data (sample_disk sample_players_unique))
    (list_to_map
       [("commentary_data",
         [("commentary_2024_ITA.1_part1.csv", csv_file sample_commentary)]);
        ("keyEvents_data", sample_key_events_entries);
        ("lineup_data", [("lineup_2024_ITA.1.csv", csv_file sample_lineup)]);
        ("playerStats_data",
         [("playerStats_2024_ITA.1.csv", csv_file sample_stats)]);
        ("plays_data", sample_plays_entries)]%string).

Definition sample_repo_full : repo :=
  mkRepo sample_disk_full true ∅ [] 0%nat.


(** Player statistics without the athlete column. *)
Definition sample_stats_no_athlete : DataFrame :=
  mkDF ["teamId"; "eventId"; "goals"]%string
    [record [("teamId", PInt 1); ("eventId", PInt 100);
             ("goals", PInt 2)]%string].

(** A folder where the second file of the partition does not read. *)
Definition sample_bad_entries : list (string * file) :=
  [("plays_2024_ITA.1_a.csv", csv_file sample_plays_a);
   ("plays_2024_ITA.1_b.csv", other_file)]%string.

(** The sample plays under names in other letter cases. *)
Definition sample_plays_entries_upper : list (string * file) :=
  [("plays_2024_ITA.1_a.CSV", csv_file sample_plays_a);
   ("plays_2024_ITA.1_b.Csv", csv_file sample_plays_b)]%string.

(** The frame of a result that is one. *)
Definition frame_of (r : result DataFrame) : DataFrame :=
  match r with Ok df => df | Raise _ => empty_frame end.

(** The caller changes a table it was given: it drops the rows. *)
Definition drop_rows (df : DataFrame) : DataFrame := mkDF (columns df) [].

(** Another disk: the teams file is gone. *)
Definition sample_disk_without_teams : filesystem :=
  mkFS (delete "teams.csv"%string (base_data (sample_disk sample_players)))
       (folders (sample_disk sample_players)).



(** ** Decimal text and the numbers it denotes *)

Lemma digit_val_pretty (x : N) :
  (x < 10)%N → digit_val (pretty_N_char x) = Some (Z.of_N x).
Proof.
  intros Hx.
  assert (x = 0 ∨ x = 1 ∨ x = 2 ∨ x = 3 ∨ x = 4 ∨ x = 5 ∨ x = 6 ∨ x = 7
          ∨ x = 8 ∨ x = 9)%N as Hcases by lia.
  repeat (destruct Hcases as [->|Hcases]; [reflexivity|]). by subst.
Qed.

Lemma is_digit_not_space c : is_digit c → py_isspace c = false.
Proof.
  unfold is_digit, digit_val, py_isspace. intros [d Hd].
  generalize dependent (nat_of_ascii c). intros n Hd.
  destruct ((48 <=? n)%nat && (n <=? 57)%nat) eqn:E; [|done].
  apply andb_true_iff in E as [E1%Nat.leb_le E2%Nat.leb_le].
  apply orb_false_iff; split; apply andb_false_iff.
  - right. apply Nat.leb_gt. lia.
  - right. apply Nat.leb_gt. lia.
Qed.

Lemma is_digit_range c :
  is_digit c ↔ (48 ≤ nat_of_ascii c ≤ 57)%nat.
Proof.
  unfold is_digit, digit_val. generalize (nat_of_ascii c). intros n.
  destruct ((48 <=? n)%nat && (n <=? 57)%nat) eqn:E.
  - apply andb_true_iff in E as [E1%Nat.leb_le E2%Nat.leb_le].
    split; [lia|by eexists].
  - apply andb_false_iff in E as [E%Nat.leb_gt|E%Nat.leb_gt];
      (split; [by intros [??]|lia]).
Qed.

Lemma ascii_eqb_nat c (d : ascii) :
  nat_of_ascii c ≠ nat_of_ascii d → Ascii.eqb c d = false.
Proof. intros Hne. apply Ascii.eqb_neq. by intros ->. Qed.

(** The digits [pretty] writes are read back by [digitpart_go]. *)
Lemma digitpart_go_pretty (x : N) :
  ∃ d, 0 ≤ d ∧ ∀ s v k,
    digitpart_go (list_ascii_of_string (pretty_N_go x s)) v k
    = digitpart_go (list_ascii_of_string s) (v * 10 ^ d + Z.of_N x) (k + d).
Proof.
  induction (N.lt_wf_0 x) as [x _ IH].
  destruct (decide (x = 0)%N) as [->|Hx].
  { exists 0. split; [done|]. intros s v k. rewrite pretty_N_go_0. f_equal; lia. }
  destruct (IH (x `div` 10)%N) as (d & Hd & Hgo).
  { apply N.div_lt; lia. }
  exists (d + 1). split; [lia|]. intros s v k.
  rewrite pretty_N_go_step by lia. rewrite Hgo. cbn [list_ascii_of_string digitpart_go].
  rewrite digit_val_pretty by (apply N.mod_lt; lia).
  f_equal; [|lia].
  rewrite Z.pow_add_r, Z.pow_1_r by lia.
  generalize (10 ^ d). intros P.
  pose proof (N.div_mod x 10 ltac:(lia)) as Hx'.
  apply (f_equal Z.of_N) in Hx'. rewrite N2Z.inj_add, N2Z.inj_mul in Hx'.
  rewrite Hx'. change (Z.of_N 10) with 10. ring.
Qed.

Lemma pretty_N_go_digits (x : N) s :
  Forall is_digit (list_ascii_of_string s) →
  Forall is_digit (list_ascii_of_string (pretty_N_go x s)).
Proof.
  revert s. induction (N.lt_wf_0 x) as [x _ IH]; intros s Hs.
  destruct (decide (x = 0)%N) as [->|Hx]; [by rewrite pretty_N_go_0|].
  rewrite pretty_N_go_step by lia. apply IH; [apply N.div_lt; lia|].
  cbn. constructor; [|done]. unfold is_digit.
  rewrite digit_val_pretty by (apply N.mod_lt; lia). by eexists.
Qed.

Lemma pretty_N_go_nonempty (x : N) s :
  (0 < x)%N → pretty_N_go x s ≠ ""%string.
Proof.
  revert s. induction (N.lt_wf_0 x) as [x _ IH]; intros s Hx.
  rewrite pretty_N_go_step by lia.
  destruct (decide (x `div` 10 = 0)%N) as [->|Hd]; [by rewrite pretty_N_go_0|].
  apply IH; [apply N.div_lt; lia|by apply N.neq_0_lt_0].
Qed.

(** The text of a natural number: digits only, at least one. *)
Lemma pretty_N_digits (x : N) :
  Forall is_digit (list_ascii_of_string (pretty x))
  ∧ list_ascii_of_string (pretty x) ≠ []
  ∧ ∃ d, digitpart_go (list_ascii_of_string (pretty x)) 0 0 = (Z.of_N x, d, []).
Proof.
  unfold pretty, pretty_N. case_decide as Hx.
  - subst. split_and!; [|done|by exists 1].
    repeat constructor. by eexists.
  - split_and!.
    + apply pretty_N_go_digits. constructor.
    + intros Hnil. apply (pretty_N_go_nonempty x ""); [lia|].
      destruct (pretty_N_go x ""); [done|discriminate].
    + destruct (digitpart_go_pretty x) as (d & _ & Hgo).
      exists d. rewrite Hgo. cbn. done.
Qed.

Lemma lstrip_digits l : Forall is_digit l → lstrip l = l.
Proof.
  destruct 1 as [|c l Hc _]; [done|]. cbn. by rewrite is_digit_not_space.
Qed.

Lemma strip_digits l : Forall is_digit l → strip l = l.
Proof.
  intros Hl. unfold strip. rewrite (lstrip_digits l Hl).
  rewrite lstrip_digits by by apply Forall_reverse.
  apply reverse_involutive.
Qed.

Lemma sign_of_digits l : Forall is_digit l → sign_of l = (false, l).
Proof.
  destruct 1 as [|c l Hc _]; [done|]. cbn [sign_of].
  apply is_digit_range in Hc.
  assert (Ascii.eqb c "-" = false) as ->
    by (apply ascii_eqb_nat; change (nat_of_ascii "-") with 45%nat; lia).
  assert (Ascii.eqb c "+" = false) as ->
    by (apply ascii_eqb_nat; change (nat_of_ascii "+") with 43%nat; lia).
  done.
Qed.

Lemma digitpart_head l :
  Forall is_digit l → l ≠ [] → digitpart l = Some (digitpart_go l 0 0).
Proof.
  destruct 1 as [|c l [d Hd] _]; [done|]. intros _. cbn. rewrite Hd. done.
Qed.

(** [int] reads back the text of a natural number. *)
Lemma py_int_of_str_pretty (x : N) : py_int_of_str (pretty x) = Ok (Z.of_N x).
Proof.
  destruct (pretty_N_digits x) as (Hdig & Hne & d & Hgo).
  unfold py_int_of_str.
  rewrite strip_digits, sign_of_digits, digitpart_head by done.
  by rewrite Hgo.
Qed.

Lemma split_first_digits (s rest : string) :
  Forall is_digit (list_ascii_of_string s) →
  split_first "-" s = s ∧ split_first "-" (s +:+ "-" +:+ rest) = s.
Proof.
  induction s as [|c s IH]; [done|].
  change (String c s +:+ "-" +:+ rest) with (String c (s +:+ "-" +:+ rest)).
  cbn [list_ascii_of_string split_first].
  intros [Hc Hs]%Forall_cons. apply is_digit_range in Hc.
  assert (Ascii.eqb c "-" = false) as ->
    by (apply ascii_eqb_nat; change (nat_of_ascii "-") with 45%nat; lia).
  destruct (IH Hs) as [-> ->]. done.
Qed.


Section SeasonText.
Context `{!Library}.


End SeasonText.

(** ** Integers below 2^53 are floats *)

Lemma digits2_pos_size m : digits2_pos m = Pos.size m.
Proof. induction m as [m IH|m IH|]; cbn; by rewrite ?IH. Qed.

Lemma small_digits m : Zpos m < 2 ^ 53 → Zpos (digits2_pos m) ≤ 53.
Proof.
  intros Hm. rewrite digits2_pos_size.
  destruct (Z_le_gt_dec (Zpos (Pos.size m)) 53) as [|Hgt]; [done|exfalso].
  pose proof (Pos.size_le m) as Hle.
  apply Pos2Z.pos_le_pos in Hle. rewrite Pos2Z.inj_pow in Hle.
  change (Z.pos m~0) with (2 * Z.pos m) in Hle.
  assert (2 ^ 54 ≤ 2 ^ Zpos (Pos.size m)) by (apply Z.pow_le_mono_r; lia).
  change (2 ^ 54) with (2 * 2 ^ 53) in *. lia.
Qed.

Lemma iter_xO m k :
  Zpos (Pos.iter xO m k) = Zpos m * 2 ^ Zpos k
  ∧ Zpos (digits2_pos (Pos.iter xO m k)) = Zpos (digits2_pos m) + Zpos k.
Proof.
  induction k as [|k [IH1 IH2]] using Pos.peano_ind.
  - cbn [Pos.iter]. split; [lia|]. cbn [digits2_pos]. lia.
  - rewrite Pos.iter_succ. cbn [digits2_pos].
    rewrite Pos2Z.inj_xO, !Pos2Z.inj_succ, IH1, IH2.
    rewrite Z.pow_succ_r by lia. split; lia.
Qed.

Lemma shr_fexp_exact m e :
  fexp prec emax (Zpos (digits2_pos m) + e) = e →
  shr_fexp prec emax (Zpos m) e loc_Exact
  = ({| shr_m := Zpos m; shr_r := false; shr_s := false |}, e).
Proof.
  intros He. unfold shr_fexp. cbn [Zdigits2 shr_record_of_loc].
  rewrite He, Z.sub_diag. reflexivity.
Qed.

Lemma binary_round_aux_exact s m e :
  fexp prec emax (Zpos (digits2_pos m) + e) = e →
  e ≤ emax - prec →
  binary_round_aux prec emax s (Zpos m) e loc_Exact = S754_finite s m e.
Proof.
  intros He Hle. unfold binary_round_aux.
  rewrite (shr_fexp_exact m e He). cbn [shr_m loc_of_shr_record round_nearest_even].
  rewrite (shr_fexp_exact m e He). cbn [shr_m].
  by rewrite (proj2 (Z.leb_le _ _) Hle).
Qed.

(** A positive integer below 2^53 rounds to itself. *)
Lemma binary_round_small s m :
  Zpos m < 2 ^ 53 →
  ∃ mz ez,
    binary_round prec emax s m 0 = S754_finite s mz ez
    ∧ -52 ≤ ez ≤ 0
    ∧ Zpos mz = Zpos m * 2 ^ (- ez)
    ∧ fexp prec emax (Zpos (digits2_pos mz) + ez) = ez.
Proof.
  intros Hm. pose proof (small_digits m Hm) as Hd.
  assert (0 < Zpos (digits2_pos m)) as Hd0 by lia.
  unfold binary_round, shl_align.
  assert (fexp prec emax (Zpos (digits2_pos m) + 0) = Zpos (digits2_pos m) - 53) as ->.
  { unfold fexp, SpecFloat.emin, prec, emax. lia. }
  destruct (Zpos (digits2_pos m) - 53 - 0) as [|k|k] eqn:Hk; [|lia|].
  - assert (fexp prec emax (Zpos (digits2_pos m) + 0) = 0) as Hcanon
      by (unfold fexp, SpecFloat.emin, prec, emax; lia).
    exists m, 0. split_and!; [|lia..|done].
    apply binary_round_aux_exact; [done|unfold emax, prec; lia].
  - destruct (iter_xO m k) as [Hval Hdig].
    assert (fexp prec emax (Zpos (digits2_pos (Pos.iter xO m k))
                            + (Zpos (digits2_pos m) - 53))
            = Zpos (digits2_pos m) - 53) as Hcanon
      by (rewrite Hdig; unfold fexp, SpecFloat.emin, prec, emax; lia).
    exists (Pos.iter xO m k), (Zpos (digits2_pos m) - 53).
    split_and!; [|lia..| |done].
    + apply binary_round_aux_exact; [done|unfold emax, prec; lia].
    + rewrite Hval. f_equal. f_equal. lia.
Qed.

Lemma py_int_of_float_exact s mz ez m :
  ez ≤ 0 → Zpos mz = Zpos m * 2 ^ (- ez) →
  py_int_of_float (S754_finite s mz ez) = Ok (if s then Zneg m else Zpos m).
Proof.
  intros Hez Hmz. unfold py_int_of_float.
  assert ((if 0 <=? ez then Z.shiftl (Zpos mz) ez else Z.shiftr (Zpos mz) (- ez))
          = Zpos m) as ->; [|by destruct s].
  destruct (Z.leb_spec 0 ez).
  - assert (ez = 0) as -> by lia. rewrite Z.shiftl_0_r, Hmz. cbn. lia.
  - rewrite Z.shiftr_div_pow2 by lia. rewrite Hmz.
    apply Z.div_mul. apply Z.pow_nonzero; lia.
Qed.

(** [int(float(z))] is [z] for an integer of magnitude below 2^53. *)
Lemma int_float_int (z : Z) :
  Z.abs z < 2 ^ 53 →
  ∃ f, float_of_int z = Ok f ∧ py_int_of_float f = Ok z.
Proof.
  intros Hz. unfold float_of_int, binary_normalize.
  destruct z as [|m|m].
  - by exists (S754_zero false).
  - destruct (binary_round_small false m) as (mz & ez & -> & Hez & Hmz & _); [lia|].
    eexists. split; [done|]. by rewrite (py_int_of_float_exact _ _ _ m) by lia.
  - destruct (binary_round_small true m) as (mz & ez & -> & Hez & Hmz & _); [lia|].
    eexists. split; [done|]. by rewrite (py_int_of_float_exact _ _ _ m) by lia.
Qed.

(** ** The text of an integer, read as a float *)

Lemma list_ascii_of_string_app s t :
  list_ascii_of_string (s +:+ t) = list_ascii_of_string s ++ list_ascii_of_string t.
Proof.
  induction s as [|c s IH]; [done|].
  change (String c s +:+ t) with (String c (s +:+ t)). cbn. by rewrite IH.
Qed.

Lemma pretty_N_go_app (x : N) s : pretty_N_go x s = pretty_N_go x "" +:+ s.
Proof.
  revert s. induction (N.lt_wf_0 x) as [x _ IH]; intros s.
  destruct (decide (x = 0)%N) as [->|Hx]; [by rewrite !pretty_N_go_0|].
  rewrite !(pretty_N_go_step x) by lia.
  rewrite (IH (x `div` 10)%N) by (apply N.div_lt; lia).
  rewrite (IH (x `div` 10)%N ltac:(apply N.div_lt; lia) (String _ "")).
  generalize (pretty_N_go (x `div` 10) ""). intros a.
  induction a as [|c a IHa]; [done|].
  change (String c a +:+ ?t) with (String c (a +:+ t)). by rewrite IHa.
Qed.

Lemma strip_no_space l : Forall (λ c, py_isspace c = false) l → strip l = l.
Proof.
  intros Hl. unfold strip.
  assert (∀ l', Forall (λ c, py_isspace c = false) l' → lstrip l' = l') as Hls.
  { destruct 1 as [|c l' Hc _]; [done|]. cbn. by rewrite Hc. }
  rewrite (Hls l Hl), Hls by by apply Forall_reverse.
  apply reverse_involutive.
Qed.

(** Reading the digits of a natural number that a text goes on after. *)
Lemma digitpart_pretty (x : N) (sfx : string) :
  ∃ d, digitpart (list_ascii_of_string (pretty x +:+ sfx))
       = Some (digitpart_go (list_ascii_of_string sfx) (Z.of_N x) d).
Proof.
  unfold pretty, pretty_N. case_decide as Hx.
  { subst. exists 1. reflexivity. }
  rewrite <-pretty_N_go_app.
  destruct (digitpart_go_pretty x) as (d & _ & Hgo).
  exists d.
  assert (Forall is_digit (list_ascii_of_string (pretty_N_go x "")))
    as Hdig by (apply pretty_N_go_digits; constructor).
  pose proof (pretty_N_go_nonempty x "" ltac:(lia)) as Hne.
  rewrite (pretty_N_go_app x sfx), list_ascii_of_string_app.
  destruct (list_ascii_of_string (pretty_N_go x "")) as [|c l] eqn:Hl.
  { destruct (pretty_N_go x ""); [done|discriminate]. }
  apply Forall_cons in Hdig as [[dv Hc] _].
  specialize (Hgo sfx 0 0).
  rewrite (pretty_N_go_app x sfx), list_ascii_of_string_app, Hl in Hgo.
  cbn [app digitpart digitpart_go] in Hgo |- *. rewrite Hc in Hgo |- *.
  change (10 * 0 + dv) with dv in Hgo. change (0 + 1) with 1 in Hgo.
  rewrite Hgo. do 2 f_equal.
Qed.

Lemma lower_digit_head c s :
  is_digit c → ∃ t, lower (String c s) = String c t.
Proof.
  intros Hc%is_digit_range. cbn. exists (lower s). f_equal.
  unfold ascii_lower.
  destruct ((65 <=? nat_of_ascii c)%nat && (nat_of_ascii c <=? 90)%nat) eqn:E; [|done].
  apply andb_true_iff in E as [E1%Nat.leb_le E2%Nat.leb_le]. lia.
Qed.

(** Tests on given characters, computed. *)
Ltac eval_chars :=
  repeat match goal with
  | |- context [digit_val (Ascii ?a ?b ?c ?d ?e ?f ?g ?h)] =>
      let v := eval vm_compute in (digit_val (Ascii a b c d e f g h)) in
      change (digit_val (Ascii a b c d e f g h)) with v
  | |- context [Ascii.eqb (Ascii ?a ?b ?c ?d ?e ?f ?g ?h)
                          (Ascii ?a' ?b' ?c' ?d' ?e' ?f' ?g' ?h')] =>
      let v := eval vm_compute in
        (Ascii.eqb (Ascii a b c d e f g h) (Ascii a' b' c' d' e' f' g' h')) in
      change (Ascii.eqb (Ascii a b c d e f g h) (Ascii a' b' c' d' e' f' g' h')) with v
  end; cbn beta iota.

(** The float literal that the text of a natural number is, alone and
    followed by ".0", with or without a "-" before it. *)
Lemma float_literal_pretty (neg : bool) (x : N) :
  let sign := if neg then "-"%string else ""%string in
  float_literal (sign +:+ pretty x) = Some (neg, LitDec (Z.of_N x) 0)
  ∧ float_literal (sign +:+ pretty x +:+ ".0") = Some (neg, LitDec (Z.of_N x * 10) (-1)).
Proof.
  intros sign.
  assert (∀ sfx, sfx = ""%string ∨ sfx = ".0"%string →
    ∃ l, list_ascii_of_string (pretty x +:+ sfx) = l
         ∧ strip (list_ascii_of_string (sign +:+ pretty x +:+ sfx))
           = list_ascii_of_string sign ++ l
         ∧ sign_of (list_ascii_of_string sign ++ l) = (neg, l)
         ∧ ∃ c t, lower (string_of_list_ascii l) = String c t ∧ is_digit c)
    as Hparse.
  { intros sfx Hsfx.
    destruct (pretty_N_digits x) as (Hdig & Hne & _).
    exists (list_ascii_of_string (pretty x +:+ sfx)). split; [done|].
    rewrite !list_ascii_of_string_app.
    destruct (list_ascii_of_string (pretty x)) as [|c l] eqn:Hl; [done|].
    apply Forall_cons in Hdig as [Hc Hdig].
    split_and!.
    - apply strip_no_space. apply Forall_app. split.
      + destruct neg; repeat constructor.
      + apply Forall_app. split.
        * constructor; [by apply is_digit_not_space|].
          eapply Forall_impl; [exact Hdig|]. apply is_digit_not_space.
        * destruct Hsfx as [->| ->]; repeat constructor.
    - destruct neg; cbn; [done|].
      apply is_digit_range in Hc.
      assert (Ascii.eqb c "-" = false) as ->
        by (apply ascii_eqb_nat; change (nat_of_ascii "-") with 45%nat; lia).
      assert (Ascii.eqb c "+" = false) as ->
        by (apply ascii_eqb_nat; change (nat_of_ascii "+") with 43%nat; lia).
      done.
    - cbn [app string_of_list_ascii].
      destruct (lower_digit_head c (string_of_list_ascii (l ++ list_ascii_of_string sfx)) Hc)
        as [t Ht].
      by exists c, t. }
  assert (∀ sfx lit, sfx = ""%string ∨ sfx = ".0"%string →
    decimal_literal (list_ascii_of_string (pretty x +:+ sfx)) = Some lit →
    float_literal (sign +:+ pretty x +:+ sfx) = Some (neg, lit)) as Hlit.
  { intros sfx lit Hsfx Hdec.
    destruct (Hparse sfx Hsfx) as (l & Hl & Hstrip & Hsign & c & t & Hlower & Hc).
    unfold float_literal. rewrite Hstrip, Hsign, Hlower, <-Hl, Hdec.
    apply is_digit_range in Hc.
    rewrite decide_False, decide_False; [done|..].
    - intros [= -> _]. vm_compute in Hc. lia.
    - intros [[= -> _]|[= -> _]]; vm_compute in Hc; lia. }
  split.
  - assert (sign +:+ pretty x = sign +:+ pretty x +:+ "") as ->.
    { f_equal. clear. induction (pretty x) as [|c s IH]; [done|].
      change (String c s +:+ "") with (String c (s +:+ "")). by rewrite <-IH. }
    apply Hlit; [by left|].
    destruct (digitpart_pretty x "") as [d Hd].
    unfold decimal_literal. rewrite Hd. cbn. by rewrite Z.sub_0_r.
  - apply Hlit; [by right|].
    destruct (digitpart_pretty x ".0") as [d Hd].
    unfold decimal_literal. rewrite Hd. cbn [list_ascii_of_string digitpart_go].
    eval_chars. cbn [digitpart digitpart_go exponent_part]. eval_chars.
    cbn. do 2 f_equal. lia.
Qed.

Lemma iter_pos_iter {A} (f : A → A) (n : positive) (x : A) :
  SpecFloat.iter_pos f n x = Pos.iter f x n.
Proof.
  revert x. induction n as [n IH|n IH|]; intros x;
    cbn [SpecFloat.iter_pos Pos.iter].
  - by rewrite !IH, !Pos.iter_swap.
  - by rewrite !IH.
  - done.
Qed.

Lemma iter_shr_1 (n q : positive) :
  SpecFloat.iter_pos shr_1 n
    {| shr_m := Zpos (Pos.iter xO q n); shr_r := false; shr_s := false |}
  = {| shr_m := Zpos q; shr_r := false; shr_s := false |}.
Proof.
  rewrite iter_pos_iter. revert q.
  induction n as [|n IH] using Pos.peano_ind; intros q; [done|].
  rewrite Pos.iter_succ_r, Pos.iter_succ. cbn [shr_1 orb]. apply IH.
Qed.

(** A canonical mantissa with [n] more zero bits rounds to itself. *)
Lemma binary_round_aux_scaled s (mz : positive) (ez : Z) (n : positive) :
  fexp prec emax (Zpos (digits2_pos mz) + ez) = ez →
  ez ≤ emax - prec →
  binary_round_aux prec emax s (Zpos (Pos.iter xO mz n)) (ez - Zpos n) loc_Exact
  = S754_finite s mz ez.
Proof.
  intros He Hle. unfold binary_round_aux.
  assert (shr_fexp prec emax (Zpos (Pos.iter xO mz n)) (ez - Zpos n) loc_Exact
          = ({| shr_m := Zpos mz; shr_r := false; shr_s := false |}, ez)) as ->.
  { unfold shr_fexp. cbn [Zdigits2 shr_record_of_loc].
    destruct (iter_xO mz n) as [_ ->].
    replace (Zpos (digits2_pos mz) + Zpos n + (ez - Zpos n))
      with (Zpos (digits2_pos mz) + ez) by lia.
    rewrite He. replace (ez - (ez - Zpos n)) with (Zpos n) by lia.
    cbn [shr]. rewrite iter_shr_1. f_equal. lia. }
  cbn [shr_m loc_of_shr_record round_nearest_even].
  rewrite (shr_fexp_exact mz ez He). cbn [shr_m].
  by rewrite (proj2 (Z.leb_le _ _) Hle).
Qed.

(** The literals of an integer below 2^53 are that integer as a float. *)
Lemma float_of_decimal_int (neg : bool) (m : positive) :
  Zpos m < 2 ^ 53 →
  float_of_decimal neg (Zpos m) 0 = binary_round prec emax neg m 0
  ∧ float_of_decimal neg (Zpos m * 10) (-1) = binary_round prec emax neg m 0.
Proof.
  intros Hm. split.
  - unfold float_of_decimal. cbn [Z.leb Z.compare]. unfold binary_normalize.
    change (10 ^ 0) with 1. rewrite Z.mul_1_r. by destruct neg.
  - destruct (binary_round_small neg m Hm) as (mz & ez & -> & Hez & Hmz & Hcanon).
    unfold float_of_decimal. change (Zpos m * 10) with (Zpos (m * 10)).
    change (0 <=? -1) with false. cbn iota.
    change (10 ^ (- -1)) with 10. change (64 + Z.log2_up 10) with 68.
    assert (Zpos (m * 10) * 2 ^ 68 = (Zpos m * 2 ^ 68) * 10) as -> by lia.
    rewrite Z.div_mul, Z.mod_mul by lia. cbn [Z.eqb].
    assert (∃ n, 68 + ez = Zpos n) as [n Hn].
    { destruct (68 + ez) as [|n|n] eqn:E; [lia|by exists n|lia]. }
    assert (Zpos m * 2 ^ 68 = Zpos (Pos.iter xO mz n)) as ->.
    { destruct (iter_xO mz n) as [-> _]. rewrite Hmz, <-Hn, <-Z.mul_assoc.
      f_equal. rewrite <-Z.pow_add_r by lia. f_equal. lia. }
    replace (Z.opp 68) with (ez - Zpos n) by lia.
    apply binary_round_aux_scaled; [done|unfold emax, prec; lia].
Qed.

Section IdText.
Context `{!Library}.

Lemma float_of_str_integer (z : Z) (f : spec_float) :
  Z.abs z < 2 ^ 53 →
  float_of_int z = Ok f →
  float_of_str (pretty z) = Ok f ∧ float_of_str (pretty z +:+ ".0") = Ok f.
Proof.
  intros Hz Hf. unfold float_of_str, float_of_int, binary_normalize in *.
  destruct z as [|m|m].
  - injection Hf as <-. by vm_compute.
  - assert (float_literal (pretty (Zpos m)) = Some (false, LitDec (Zpos m) 0)
            ∧ float_literal (pretty (Zpos m) +:+ ".0")
              = Some (false, LitDec (Zpos m * 10) (-1))) as [H1 H2]
      by exact (float_literal_pretty false (Npos m)).
    rewrite H1, H2.
    destruct (float_of_decimal_int false m) as [-> ->]; [lia|].
    by destruct (binary_round prec emax false m 0).
  - assert (float_literal (pretty (Zneg m)) = Some (true, LitDec (Zpos m) 0)
            ∧ float_literal (pretty (Zneg m) +:+ ".0")
              = Some (true, LitDec (Zpos m * 10) (-1))) as [H1 H2]
      by exact (float_literal_pretty true (Npos m)).
    rewrite H1, H2.
    destruct (float_of_decimal_int true m) as [-> ->]; [lia|].
    by destruct (binary_round prec emax true m 0).
Qed.

(** An integer of magnitude below 2^53, its decimal text, and its decimal
    text followed by ".0" have the same normal form: the decimal text. *)
Lemma id_str_integer (z : Z) :
  Z.abs z < 2 ^ 53 →
  _id_str (PInt z) = pretty z
  ∧ _id_str (PStr (pretty z)) = pretty z
  ∧ _id_str (PStr (pretty z +:+ ".0")) = pretty z.
Proof.
  intros Hz.
  destruct (int_float_int z Hz) as (f & Hf & Hint).
  destruct (float_of_str_integer z f Hz Hf) as [Hs1 Hs2].
  unfold _id_str, py_float. rewrite Hf, Hs1, Hs2. cbn. by rewrite Hint.
Qed.

End IdText.

Section YearCell.
Context `{!Library}.


End YearCell.


(* ================================================================= *)
(** * Properties *)

(** ** The monads *)

Lemma result_bind_ok {A B} (m : result A) (f : A → result B) b :
  m ≫= f = Ok b ↔ ∃ a, m = Ok a ∧ f a = Ok b.
Proof.
  destruct m as [a|e]; cbn.
  - split; [eauto|]. by intros (a' & [= <-] & ?).
  - split; [done|]. by intros (a' & ? & _).
Qed.

Lemma M_bind_run {A B} (m : M A) (f : A → M B) st :
  (m ≫= f) st =
  match m st with
  | (Ok a, st') => f a st'
  | (Raise e, st') => (Raise e, st')
  end.
Proof. reflexivity. Qed.

(** ** The partitioned file loader *)

Lemma read_members_frames ms acc :
  read_members ms acc = gs ← read_members ms []; Ok (acc ++ gs).
Proof.
  revert acc. induction ms as [|[inner content] ms IH]; intros acc; cbn.
  - by rewrite app_nil_r.
  - destruct (endswith (lower inner) ".csv"); cbn; [|apply IH].
    destruct content as [df|e]; cbn; [|done].
    rewrite (IH (acc ++ [df])), (IH [df]).
    destruct (read_members ms []) as [gs|e]; cbn; [|done].
    by rewrite <-app_assoc.
Qed.

Lemma read_members_cons m ms acc :
  read_members (m :: ms) acc = gs ← member_frames m; read_members ms (acc ++ gs).
Proof.
  destruct m as [inner content]. unfold member_frames; cbn.
  destruct (endswith (lower inner) ".csv"); cbn.
  - by destruct content.
  - by rewrite app_nil_r.
Qed.

Lemma read_entries_cons pattern e es acc :
  read_entries pattern (e :: es) acc =
  gs ← entry_frames pattern e; read_entries pattern es (acc ++ gs).
Proof.
  destruct e as [fname f]. unfold entry_frames; cbn.
  destruct (startswith fname pattern); cbn; [|by rewrite app_nil_r].
  destruct (endswith (lower fname) ".csv"); cbn.
  { by destruct (as_csv f). }
  destruct (endswith (lower fname) ".zip"); cbn; [|by rewrite app_nil_r].
  destruct (as_zip f) as [ms|]; cbn; [|done].
  rewrite read_members_frames. by destruct (read_members ms []).
Qed.

Lemma read_entries_ok pattern es acc :
  Forall (λ e, is_ok (entry_frames pattern e) = true) es →
  read_entries pattern es acc
  = Ok (acc ++ (es ≫= λ e, frames_or_nil (entry_frames pattern e))).
Proof.
  intros Hes. revert acc.
  induction Hes as [|e es He _ IH]; intros acc.
  - cbn. by rewrite app_nil_r.
  - rewrite read_entries_cons, bind_cons.
    destruct (entry_frames pattern e) as [gs|]; [|done]. cbn.
    by rewrite IH, <-app_assoc.
Qed.

Lemma read_entries_ok_inv pattern es acc fs :
  read_entries pattern es acc = Ok fs →
  Forall (λ e, is_ok (entry_frames pattern e) = true) es.
Proof.
  revert acc. induction es as [|e es IH]; intros acc; [by constructor|].
  rewrite read_entries_cons.
  destruct (entry_frames pattern e) as [gs|] eqn:He; [|done]. cbn.
  intros H. constructor; [by rewrite He | by eapply IH].
Qed.

Lemma load_files_run subfolder pattern st :
  _load_files_by_pattern subfolder pattern st =
  (match folders (root_dir st) !! subfolder with
   | None => Raise (FileNotFoundError subfolder)
   | Some entries =>
       data_frames ← read_entries pattern entries [];
       Ok (match data_frames with
           | [] => empty_frame
           | _ => pd_concat data_frames
           end)
   end, st).
Proof.
  unfold _load_files_by_pattern. rewrite M_bind_run. cbn.
  destruct (folders (root_dir st) !! subfolder) as [es|]; [|done].
  rewrite M_bind_run. unfold lift.
  destruct (read_entries pattern es []) as [[|df dfs]|]; done.
Qed.

(** C9. When the folder exists and none of its entries starts with the
    prefix, the loader returns the empty frame: no rows, no exception. *)
Theorem load_no_match_is_empty subfolder pattern st entries :
  folders (root_dir st) !! subfolder = Some entries →
  Forall (λ e, startswith e.1 pattern = false) entries →
  _load_files_by_pattern subfolder pattern st = (Ok empty_frame, st)
  ∧ n_rows empty_frame = 0%nat.
Proof.
  intros Hdir Hno. split; [|done].
  rewrite load_files_run, Hdir.
  rewrite read_entries_ok.
  - assert (entries ≫= (λ e, frames_or_nil (entry_frames pattern e)) = []) as ->; [|done].
    clear Hdir. induction Hno as [|e es He _ IH]; [done|].
    rewrite bind_cons, IH. unfold entry_frames. by rewrite He.
  - eapply Forall_impl; [exact Hno|]. intros e He. unfold entry_frames. by rewrite He.
Qed.

(** The failure the empty result is told apart from. *)
Lemma load_missing_folder subfolder pattern st :
  folders (root_dir st) !! subfolder = None →
  _load_files_by_pattern subfolder pattern st
  = (Raise (FileNotFoundError subfolder), st).
Proof. intros H. by rewrite load_files_run, H. Qed.


Lemma read_members_app ms1 ms2 acc :
  read_members (ms1 ++ ms2) acc = fs ← read_members ms1 acc; read_members ms2 fs.
Proof.
  revert acc. induction ms1 as [|m ms1 IH]; intros acc; [done|].
  rewrite <-app_comm_cons, !read_members_cons.
  destruct (member_frames m) as [gs|]; cbn; [apply IH|done].
Qed.

Lemma read_entries_app pattern es1 es2 acc :
  read_entries pattern (es1 ++ es2) acc
  = fs ← read_entries pattern es1 acc; read_entries pattern es2 fs.
Proof.
  revert acc. induction es1 as [|e es1 IH]; intros acc; [done|].
  rewrite <-app_comm_cons, !read_entries_cons.
  destruct (entry_frames pattern e) as [gs|]; cbn; [apply IH|done].
Qed.

Lemma folders_with_folder subfolder entries st :
  folders (root_dir (with_folder subfolder entries st)) !! subfolder = Some entries.
Proof. cbn. apply lookup_insert_eq. Qed.

Lemma load_files_result subfolder pattern st entries :
  folders (root_dir st) !! subfolder = Some entries →
  (_load_files_by_pattern subfolder pattern st).1
  = data_frames ← read_entries pattern entries [];
    Ok (match data_frames with
        | [] => empty_frame
        | _ => pd_concat data_frames
        end).
Proof. intros H. by rewrite load_files_run, H. Qed.

(** C10. An entry that starts with the prefix but is neither [.csv] nor
    [.zip] (case ignored) might as well not be in the folder, and a member
    of an archive that is not [.csv] might as well not be in the archive:
    the loader returns the same with and without them, whatever they hold. *)
Theorem load_skips_other_names subfolder pattern st :
  (∀ es1 fname f es2,
     folders (root_dir st) !! subfolder = Some (es1 ++ (fname, f) :: es2) →
     endswith (lower fname) ".csv" = false →
     endswith (lower fname) ".zip" = false →
     (_load_files_by_pattern subfolder pattern st).1
     = (_load_files_by_pattern subfolder pattern
          (with_folder subfolder (es1 ++ es2) st)).1)
  ∧ (∀ es1 fname f es2 ms1 inner_name content ms2,
       folders (root_dir st) !! subfolder = Some (es1 ++ (fname, f) :: es2) →
       as_zip f = Ok (ms1 ++ (inner_name, content) :: ms2) →
       endswith (lower inner_name) ".csv" = false →
       (_load_files_by_pattern subfolder pattern st).1
       = (_load_files_by_pattern subfolder pattern
            (with_folder subfolder
               (es1 ++ (fname, mkFile (as_csv f) (Ok (ms1 ++ ms2))) :: es2) st)).1).
Proof.
  split.
  - intros es1 fname f es2 Hdir Hcsv Hzip.
    rewrite (load_files_result _ _ _ _ Hdir).
    rewrite (load_files_result _ _ _ _ (folders_with_folder _ _ _)).
    f_equal. rewrite !read_entries_app.
    destruct (read_entries pattern es1 []) as [fs|]; [|done].
    change (read_entries pattern ((fname, f) :: es2) fs = read_entries pattern es2 fs).
    rewrite read_entries_cons. unfold entry_frames; cbn.
    rewrite Hcsv, Hzip. destruct (startswith fname pattern); cbn; by rewrite app_nil_r.
  - intros es1 fname f es2 ms1 inner content ms2 Hdir Hms Hcsv.
    rewrite (load_files_result _ _ _ _ Hdir).
    rewrite (load_files_result _ _ _ _ (folders_with_folder _ _ _)).
    f_equal. rewrite !read_entries_app.
    destruct (read_entries pattern es1 []) as [fs|]; [|done].
    change (read_entries pattern ((fname, f) :: es2) fs
            = read_entries pattern ((fname, mkFile (as_csv f) (Ok (ms1 ++ ms2))) :: es2) fs).
    rewrite !read_entries_cons. f_equal.
    unfold entry_frames. simpl fst; simpl snd. rewrite Hms.
    destruct (startswith fname pattern); [|done].
    destruct (endswith (lower fname) ".csv"); [done|].
    destruct (endswith (lower fname) ".zip"); [|done].
    change (read_members (ms1 ++ (inner, content) :: ms2) []
            = read_members (ms1 ++ ms2) []).
    rewrite !read_members_app.
    destruct (read_members ms1 []) as [gs|]; [|done].
    change (read_members ((inner, content) :: ms2) gs = read_members ms2 gs).
    rewrite read_members_cons. unfold member_frames. simpl fst. rewrite Hcsv.
    cbn. by rewrite app_nil_r.
Qed.


(** ** Concatenation and the order of the frames *)

Lemma elem_of_dedup x l : x ∈ dedup l ↔ x ∈ l.
Proof.
  induction l as [|y l IH]; cbn; [done|].
  rewrite !elem_of_cons, list_elem_of_filter, IH.
  destruct (decide (x = y)); tauto.
Qed.

Lemma NoDup_dedup l : NoDup (dedup l).
Proof.
  induction l as [|y l IH]; cbn; constructor.
  - rewrite list_elem_of_filter. tauto.
  - by apply NoDup_filter.
Qed.

Lemma dedup_Permutation l1 l2 : l1 ≡ₚ l2 → dedup l1 ≡ₚ dedup l2.
Proof.
  intros Hp. apply NoDup_Permutation; [apply NoDup_dedup..|].
  intros x. by rewrite !elem_of_dedup, Hp.
Qed.

Lemma forallb_Permutation {A} (f : A → bool) l1 l2 :
  l1 ≡ₚ l2 → forallb f l1 = forallb f l2.
Proof.
  induction 1 as [|x l1 l2 _ IH|x y l|l1 l2 l3 _ IH1 _ IH2]; cbn.
  - done.
  - by rewrite IH.
  - by destruct (f x), (f y).
  - by rewrite IH1.
Qed.

Lemma existsb_Permutation {A} (f : A → bool) l1 l2 :
  l1 ≡ₚ l2 → existsb f l1 = existsb f l2.
Proof.
  induction 1 as [|x l1 l2 _ IH|x y l|l1 l2 l3 _ IH1 _ IH2]; cbn.
  - done.
  - by rewrite IH.
  - by destruct (f x), (f y).
  - by rewrite IH1.
Qed.

Lemma float_column_Permutation rs1 rs2 c :
  rs1 ≡ₚ rs2 → float_column rs1 c = float_column rs2 c.
Proof.
  intros Hp. unfold float_column.
  by rewrite (forallb_Permutation _ _ _ Hp), (existsb_Permutation _ _ _ Hp).
Qed.

(** A row built over a list of labels holds, under a label of the list,
    what the rule says, and nothing under the others. *)
Lemma lookup_row_over (g : string → pyval) (cols : list string) (k : string) :
  (list_to_map ((λ c, (c, g c)) <$> cols) : row) !! k
  = if decide (k ∈ cols) then Some (g k) else None.
Proof.
  induction cols as [|c cols IH].
  - rewrite decide_False by apply not_elem_of_nil. apply lookup_empty.
  - rewrite fmap_cons, list_to_map_cons.
    destruct (decide (c = k)) as [->|Hne].
    + rewrite lookup_insert_eq. by rewrite decide_True by apply list_elem_of_here.
    + rewrite lookup_insert_ne, IH by done.
      destruct (decide (k ∈ cols)) as [Hin|Hnin].
      * by rewrite decide_True by by apply list_elem_of_further.
      * rewrite decide_False; [done|]. rewrite elem_of_cons. intros [?|?]; congruence.
Qed.

Lemma conform_Permutation cols1 cols2 rs1 rs2 r :
  cols1 ≡ₚ cols2 → rs1 ≡ₚ rs2 → conform cols1 rs1 r = conform cols2 rs2 r.
Proof.
  intros Hc Hr. apply map_eq. intros k. unfold conform.
  rewrite !(lookup_row_over
    (λ c, if float_column _ c then to_float_cell (cell r c) else cell r c)).
  rewrite (float_column_Permutation _ _ _ Hr).
  destruct (decide (k ∈ cols1)) as [H1|H1].
  - by rewrite decide_True by by rewrite <-Hc.
  - by rewrite decide_False by by rewrite <-Hc.
Qed.

Lemma pd_concat_Permutation fs1 fs2 :
  fs1 ≡ₚ fs2 →
  rows (pd_concat fs1) ≡ₚ rows (pd_concat fs2)
  ∧ columns (pd_concat fs1) ≡ₚ columns (pd_concat fs2).
Proof.
  intros Hp. unfold pd_concat; cbn.
  assert (concat (rows <$> fs1) ≡ₚ concat (rows <$> fs2)) as Hrows by by rewrite Hp.
  assert (dedup (concat (columns <$> fs1)) ≡ₚ dedup (concat (columns <$> fs2)))
    as Hcols by (apply dedup_Permutation; by rewrite Hp).
  split; [|done].
  rewrite (list_fmap_ext (conform _ (concat (rows <$> fs1)))
             (conform (dedup (concat (columns <$> fs2))) (concat (rows <$> fs2)))).
  - by apply fmap_Permutation.
  - intros _ r _. by apply conform_Permutation.
Qed.

Lemma load_files_same_listing subfolder pattern st st' :
  folders (root_dir st) !! subfolder = folders (root_dir st') !! subfolder →
  (_load_files_by_pattern subfolder pattern st).1
  = (_load_files_by_pattern subfolder pattern st').1.
Proof. intros H. by rewrite !load_files_run, H. Qed.

(** C3, as the code has it. The result is a function of the listing, so it
    is the same whenever the enumeration is; and when the loader returns on
    one enumeration of the folder it returns on any other, with the same
    rows and the same labels, in another order. *)
Theorem load_order_permutes subfolder pattern st entries entries' df :
  folders (root_dir st) !! subfolder = Some entries →
  entries ≡ₚ entries' →
  (_load_files_by_pattern subfolder pattern st).1 = Ok df →
  (∀ st', folders (root_dir st') !! subfolder = Some entries →
     (_load_files_by_pattern subfolder pattern st').1 = Ok df)
  ∧ ∃ df',
      (_load_files_by_pattern subfolder pattern
         (with_folder subfolder entries' st)).1 = Ok df'
      ∧ rows df' ≡ₚ rows df
      ∧ columns df' ≡ₚ columns df.
Proof.
  intros Hdir Hperm Hload. split.
  { intros st' Hdir'. rewrite <-Hload. apply load_files_same_listing. congruence. }
  rewrite (load_files_result _ _ _ _ Hdir) in Hload.
  rewrite (load_files_result _ _ _ _ (folders_with_folder _ _ _)).
  apply result_bind_ok in Hload as (fs & Hfs & Hdf).
  pose proof (read_entries_ok_inv _ _ _ _ Hfs) as Hok.
  rewrite (read_entries_ok _ _ _ Hok) in Hfs.
  rewrite read_entries_ok by by rewrite <-Hperm.
  injection Hfs as <-. injection Hdf as <-. cbn.
  set (got := λ e, frames_or_nil (entry_frames pattern e)).
  assert (entries ≫= got ≡ₚ entries' ≫= got) as Hfs by by rewrite Hperm.
  eexists; split; [done|].
  destruct (entries ≫= got) as [|f1 fs1] eqn:E1.
  - apply Permutation_nil in Hfs as ->. done.
  - destruct (entries' ≫= got) as [|f2 fs2] eqn:E2.
    { symmetry in Hfs. by apply Permutation_nil in Hfs. }
    apply pd_concat_Permutation in Hfs as [??]. done.
Qed.


(** ** The base table store *)

Lemma stable_refl st : cache_wf st → stable st st.
Proof. by intros ?. Qed.

Lemma stable_trans st1 st2 st3 : stable st1 st2 → stable st2 st3 → stable st1 st3.
Proof.
  intros (_ & Hr1 & Ha1 & Hb1) (Hwf & Hr2 & Ha2 & Hb2).
  split_and!; [done|congruence..|]. intros n. by rewrite Hb2.
Qed.

Lemma base_table_append st dfs name :
  cache_wf st →
  base_table (set_heap (λ h, h ++ dfs) st) name = base_table st name.
Proof.
  intros Hwf. unfold base_table; cbn.
  destruct (_cache st !! name) as [l|] eqn:Hl; [|done].
  apply lookup_app_l. by eapply Hwf.
Qed.

Lemma stable_append st dfs :
  cache_wf st → stable st (set_heap (λ h, h ++ dfs) st).
Proof.
  intros Hwf. split_and!; [|done..|intros; by apply base_table_append].
  intros n l Hl; cbn in *. rewrite length_app. apply Hwf in Hl. lia.
Qed.

Lemma stable_io st : cache_wf st → stable st (set_io_count S st).
Proof. by intros ?. Qed.

Lemma copy_run l st :
  copy l st
  = (Ok (length (heap st)),
     set_heap (λ h, h ++ [default empty_frame (heap st !! l)]) st).
Proof. reflexivity. Qed.

Lemma lookup_new {A} (h : list A) (x : A) : (h ++ [x]) !! length h = Some x.
Proof. by rewrite lookup_app_r, Nat.sub_diag by lia. Qed.

(** What a call of [_load_base_table] does: it returns an object holding
    the table, or raises when there is no table, and either way leaves every
    table as it was. *)
(** Running a method step by step. *)
Ltac mrun :=
  unfold copy, deref, io, modify, gets, raise, lift, alloc, mbind, M_bind,
    mret, M_ret in *;
  cbn beta iota zeta in *.

Lemma load_base_table_run name st r st' :
  cache_wf st →
  _load_base_table name st = (r, st') →
  stable st st'
  ∧ match r with
    | Ok l => l = pred (length (heap st'))
              ∧ is_Some (base_table st name)
              ∧ heap st' !! l = base_table st name
    | Raise _ => base_table st name = None
    end.
Proof.
  intros Hwf. unfold _load_base_table, base_table, base_path_exists, read_csv_base.
  mrun.
  destruct (_cache st !! name) as [lc|] eqn:Hc.
  { intros [= <- <-].
    split; [by apply stable_append|]. cbn.
    rewrite length_app; cbn. replace (pred (length (heap st) + 1)) with (length (heap st)) by lia.
    destruct (lookup_lt_is_Some_2 (heap st) lc) as [df Hdf]; [by eapply Hwf|].
    rewrite Hdf; cbn. split_and!; [done|by eexists|apply lookup_new]. }
  destruct (BASE_TABLES !! name) as [fname|] eqn:Hn.
  2:{ intros H; injection H as <- <-. split; [by apply stable_refl|done]. }
  cbn [root_dir set_io_count].
  destruct (base_data (root_dir st) !! fname) as [[df|e]|] eqn:Hf.
  - rewrite bool_decide_true by by eexists. cbn. rewrite Hf. cbn.
    assert (∀ x : DataFrame,
              ((heap st ++ [df]) ++ [x]) !! (length (heap st) + 1)%nat = Some x)
      as Hnew2.
    { intros x. replace (length (heap st) + 1)%nat with (length (heap st ++ [df]))
        by (rewrite length_app; cbn; lia). apply lookup_new. }
    assert (∀ x : DataFrame, ∀ l, (l < length (heap st))%nat →
              ((heap st ++ [df]) ++ [x]) !! l = heap st !! l) as Hold.
    { intros x l Hl. rewrite <-app_assoc. by apply lookup_app_l. }
    destruct (autocache st) eqn:Hac; cbn.
    + intros [= <- <-]. cbn. rewrite !length_app; cbn.
      split_and!; [|lia|by eexists|by rewrite Hnew2, lookup_new].
      * split_and!; [|done..|].
        -- unfold cache_wf; cbn. intros n l. rewrite !length_app; cbn.
           intros [[-> <-]|[_ Hl]]%lookup_insert_Some; [lia|].
           apply Hwf in Hl. lia.
        -- intros n. unfold base_table; cbn.
           destruct (decide (name = n)) as [<-|Hne].
           ++ rewrite lookup_insert_eq, Hc, Hn, Hf.
              by apply lookup_app_l_Some, lookup_new.
           ++ rewrite lookup_insert_ne by done.
              destruct (_cache st !! n) as [l|] eqn:Hl; [|done].
              apply Hold. by eapply Hwf.
    + intros [= <- <-]. cbn. rewrite !length_app; cbn.
      split_and!; [|lia|by eexists|by rewrite Hnew2, lookup_new].
      * split_and!; [|done..|].
        -- unfold cache_wf; cbn. intros n l Hl. rewrite !length_app; cbn.
           apply Hwf in Hl. lia.
        -- intros n. unfold base_table; cbn.
           destruct (_cache st !! n) as [l|] eqn:Hl; [|done].
           apply Hold. by eapply Hwf.
  - rewrite bool_decide_true by by eexists. cbn. rewrite Hf.
    intros [= <- <-]. split; [|done].
    split_and!; try done.
  - rewrite bool_decide_false by (by intros [??]). cbn.
    intros [= <- <-]. split; [|done]. split_and!; try done.
Qed.


(** ** The partition resolver and the detail accessors *)

Section Resolver.
Context `{!Library}.

(** A table loaded and copied, as in [fx = self.fixtures().copy()]. *)
Lemma load_copy_run name st :
  cache_wf st →
  ∃ st', stable st st' ∧
    (l ← _load_base_table name; l' ← copy l; deref l') st
    = (match base_table st name with
       | Some df => Ok df
       | None => (_load_base_table name st).1 ≫= λ _, Ok empty_frame
       end, st')
    ∧ (base_table st name = None → is_ok (_load_base_table name st).1 = false).
Proof.
  intros Hwf. rewrite M_bind_run.
  destruct (_load_base_table name st) as [[l|e] st1] eqn:E;
    apply load_base_table_run in E as (Hst & E); [|done|..|done].
  - destruct E as (-> & [df Hdf] & Hl). rewrite Hdf in Hl |- *.
    eexists. split; [|split; [|done]].
    2:{ mrun. cbn. rewrite lookup_new. cbn. rewrite Hl. cbn. reflexivity. }
    eapply stable_trans; [done|]. apply stable_append, Hst.
  - rewrite E. eexists. by split_and!.
Qed.

Lemma derive_run event_id st :
  cache_wf st →
  ∃ st', stable st st' ∧
    _derive_season_league_code event_id st
    = (match base_table st "fixtures" with
       | Some fx => season_league_of fx event_id
       | None => (fixtures st).1 ≫= λ _, Raise ValueError
       end, st')
    ∧ (base_table st "fixtures" = None → is_ok (fixtures st).1 = false).
Proof.
  intros Hwf. unfold _derive_season_league_code, fixtures.
  destruct (load_copy_run "fixtures" st Hwf) as (st' & Hst & Hrun & Hno).
  exists st'. split; [done|]. split; [|done].
  assert (∀ (f : DataFrame → M (Z * option string)),
    (l ← _load_base_table "fixtures"; l' ← copy l; fx ← deref l'; f fx) st
    = ((l ← _load_base_table "fixtures"; l' ← copy l; deref l') ≫= f) st) as ->.
  { intros f. rewrite !M_bind_run.
    destruct (_load_base_table "fixtures" st) as [[l|e] st1]; [|done].
    rewrite !M_bind_run. by destruct (copy l st1) as [[l'|e] st2]. }
  rewrite M_bind_run, Hrun.
  destruct (base_table st "fixtures") as [fx|]; [done|].
  specialize (Hno eq_refl).
  by destruct ((_load_base_table "fixtures" st).1).
Qed.

Lemma detail_run subfolder stem event_id st :
  cache_wf st →
  ∃ st', stable st st' ∧
    detail_for_event subfolder stem event_id st
    = (match base_table st "fixtures" with
       | Some fx =>
           '(season_year, league_code) ← season_league_of fx event_id;
           df ← (_load_files_by_pattern subfolder
                   (partition_prefix stem season_year league_code) st).1;
           Ok (if negb (df_empty df) && in_columns "eventId" df
               then filter_eq df "eventId" event_id
               else df)
       | None => (fixtures st).1 ≫= λ _, Raise ValueError
       end, st')
    ∧ (base_table st "fixtures" = None → is_ok (fixtures st).1 = false).
Proof.
  intros Hwf. unfold detail_for_event.
  destruct (derive_run event_id st Hwf) as (st' & Hst & Hrun & Hno).
  exists st'. split; [done|]. split; [|done].
  rewrite M_bind_run, Hrun.
  destruct (base_table st "fixtures") as [fx|].
  - destruct (season_league_of fx event_id) as [[y lc]|e]; [|done].
    rewrite M_bind_run, load_files_run. cbn.
    rewrite load_files_run. cbn. destruct Hst as (_ & -> & _).
    by destruct (folders (root_dir st) !! subfolder) as [es|];
      [destruct (read_entries _ es [])|].
  - specialize (Hno eq_refl). by destruct ((fixtures st).1).
Qed.

End Resolver.


Section ResolverProperties.
Context `{!Library}.

Lemma find_event_row_None fx eid candidates :
  find_event_row fx eid candidates = None ↔
  ∀ c r, c ∈ candidates → r ∈ rows fx → _id_str (cell r c) ≠ eid.
Proof.
  induction candidates as [|c cs IH]; cbn.
  { split; [|done]. intros _ c r Hc. by apply not_elem_of_nil in Hc. }
  destruct (filter (λ r, _id_str (cell r c) = eid) (rows fx)) as [|r0 rs] eqn:Hf.
  - rewrite IH. split.
    + intros Hcs c' r [->|Hc']%elem_of_cons Hr; [|by apply Hcs].
      intros Heq. assert (r ∈ filter (λ r, _id_str (cell r c) = eid) (rows fx)) as Hin
        by by apply list_elem_of_filter.
      rewrite Hf in Hin. by apply not_elem_of_nil in Hin.
    + intros Hall c' r Hc' Hr. apply Hall; [by apply list_elem_of_further|done].
  - split; [done|]. intros Hall. exfalso.
    assert (r0 ∈ filter (λ r, _id_str (cell r c) = eid) (rows fx)) as Hin
      by (rewrite Hf; apply list_elem_of_here).
    apply list_elem_of_filter in Hin as [Heq Hin].
    apply (Hall c r0); [apply list_elem_of_here|done..].
Qed.





End ResolverProperties.


(** ** The cache and the objects handed out *)

(** The three ways a call of [_load_base_table] goes: a hit copies the
    cached object and touches no file; a miss that fails changes nothing but
    the count of accesses; a miss that reads the file makes two objects, the
    one it caches when [autocache] is on and the copy it returns. *)
Lemma load_base_table_cases name st :
  (∃ lc, _cache st !! name = Some lc
     ∧ _load_base_table name st
       = (Ok (length (heap st)),
          set_heap (λ h, h ++ [default empty_frame (heap st !! lc)]) st))
  ∨ (_cache st !! name = None
     ∧ ∃ e k, _load_base_table name st = (Raise e, set_io_count (λ n, k + n)%nat st))
  ∨ (_cache st !! name = None
     ∧ ∃ df, _load_base_table name st
       = (Ok (S (length (heap st))),
          mkRepo (root_dir st) (autocache st)
            (if autocache st then <[name := length (heap st)]> (_cache st)
             else _cache st)
            ((heap st ++ [df]) ++ [df])
            (S (S (io_count st))))).
Proof.
  unfold _load_base_table, base_path_exists, read_csv_base. mrun.
  destruct (_cache st !! name) as [lc|] eqn:Hc; [left; by eexists|right].
  destruct (BASE_TABLES !! name) as [fname|].
  2:{ left. split; [done|]. exists (KeyError (UnknownBaseTable name)), 0%nat.
      by destruct st. }
  cbn [root_dir set_io_count].
  destruct (base_data (root_dir st) !! fname) as [[df|e]|] eqn:Hf.
  - right. split; [done|]. exists df.
    rewrite bool_decide_true by by eexists. cbn. rewrite Hf. cbn.
    destruct st as [fs ac c h n]; cbn in *.
    destruct ac; cbn; rewrite lookup_new, length_app; cbn;
      by replace (length h + 1)%nat with (S (length h)) by lia.
  - left. split; [done|]. exists e, 2%nat.
    rewrite bool_decide_true by by eexists. cbn. rewrite Hf.
    by destruct st.
  - left. split; [done|]. exists (FileNotFoundError fname), 1%nat.
    rewrite bool_decide_false by (by intros [??]). cbn.
    by destruct st.
Qed.

Ltac simpl_st :=
  cbn [fst snd heap set_heap _cache set_cache root_dir set_root_dir
       io_count set_io_count autocache] in *.

Lemma cache_inv_step name df0 w w' :
  cache_inv name df0 w → caller_step w w' → cache_inv name df0 w'.
Proof.
  intros (Hwf & Hown & Hsep & lc0 & Hc0 & Hh0) Hstep.
  destruct Hstep as [n st own l st' Hload|n st own e st' Hload|l f st own Hl|fs st own];
    cbn in *.
  - destruct (load_base_table_cases n st)
      as [(lc & Hc & Hrun)|[(Hc & e & k & Hrun)|(Hc & df & Hrun)]];
      rewrite Hrun in Hload; [|done|]; injection Hload as <- <-;
      unfold cache_inv; simpl_st.
    + split_and!.
      * intros n' l' Hl'; cbn in *. rewrite length_app. apply Hwf in Hl'. lia.
      * intros l' [->%elem_of_singleton|Hl']%elem_of_union; rewrite length_app; cbn;
          [lia|]. apply Hown in Hl'. lia.
      * intros n' l' Hl' [->%elem_of_singleton|Hin]%elem_of_union.
        -- apply Hwf in Hl'. lia.
        -- by eapply Hsep.
      * exists lc0. split; [done|]. by apply lookup_app_l_Some.
    + assert (n ≠ name) as Hne by congruence.
      split_and!.
      * intros n' l'; cbn. rewrite !length_app; cbn.
        destruct (autocache st).
        -- intros [[-> <-]|[_ Hl']]%lookup_insert_Some; [lia|].
           apply Hwf in Hl'. lia.
        -- intros Hl'. apply Hwf in Hl'. lia.
      * intros l' [->%elem_of_singleton|Hl']%elem_of_union; rewrite !length_app; cbn;
          [lia|]. apply Hown in Hl'. lia.
      * intros n' l' Hl' Hin.
        assert (l' = length (heap st) ∨ _cache st !! n' = Some l') as [->|Hold].
        { destruct (autocache st); [|by right].
          apply lookup_insert_Some in Hl' as [[_ <-]|[_ ?]]; auto. }
        -- apply elem_of_union in Hin as [Hin%elem_of_singleton|Hin]; [lia|].
           apply Hown in Hin. lia.
        -- apply elem_of_union in Hin as [->%elem_of_singleton|Hin].
           ++ apply Hwf in Hold. lia.
           ++ by eapply Hsep.
      * exists lc0. split.
        -- destruct (autocache st); [|done]. by rewrite lookup_insert_ne.
        -- by apply lookup_app_l_Some, lookup_app_l_Some.
  - destruct (load_base_table_cases n st)
      as [(lc & Hc & Hrun)|[(Hc & e' & k & Hrun)|(Hc & df & Hrun)]];
      rewrite Hrun in Hload; [done| |done]; injection Hload as <- <-;
      unfold cache_inv; simpl_st.
    split_and!; [done..|]. by exists lc0.
  - unfold cache_inv; simpl_st. split_and!.
    + intros n' l' Hl'; cbn in *. rewrite length_alter. by eapply Hwf.
    + intros l' Hl'. rewrite length_alter. by apply Hown.
    + done.
    + exists lc0. split; [done|]. rewrite list_lookup_alter_ne; [done|].
      intros ->. by eapply Hsep.
  - unfold cache_inv; simpl_st. split_and!; [done..|]. by exists lc0.
Qed.

Lemma cache_inv_steps name df0 w w' :
  cache_inv name df0 w → rtc caller_step w w' → cache_inv name df0 w'.
Proof. induction 2; eauto using cache_inv_step. Qed.

(** C8. Once [_load_base_table name] has returned on an instance with
    [autocache] on, then whatever the caller does next (more calls, changes
    in place to the objects it was given, changes to the disk), a further
    call for the same name returns, reads no file, and returns a table
    equal to the one the first call returned. *)
Theorem cached_load_repeats name st own l1 st1 st2 own2 :
  cache_wf st →
  autocache st = true →
  (∀ l, l ∈ own → (l < length (heap st))%nat) →
  (∀ n lc, _cache st !! n = Some lc → lc ∉ own) →
  _load_base_table name st = (Ok l1, st1) →
  rtc caller_step (st1, {[l1]} ∪ own) (st2, own2) →
  ∃ l2 st3 df,
    _load_base_table name st2 = (Ok l2, st3)
    ∧ io_count st3 = io_count st2
    ∧ root_dir st3 = root_dir st2
    ∧ heap st1 !! l1 = Some df
    ∧ heap st3 !! l2 = Some df.
Proof.
  intros Hwf Hac Hown Hsep Hload Hsteps.
  assert (∃ df, heap st1 !! l1 = Some df ∧ cache_inv name df (st1, {[l1]} ∪ own))
    as (df & Hdf & Hinv).
  { assert (caller_step (st, own) (st1, {[l1]} ∪ own)) as Hfirst
      by by econstructor.
    destruct (load_base_table_cases name st)
      as [(lc & Hc & Hrun)|[(Hc & e & k & Hrun)|(Hc & df & Hrun)]];
      rewrite Hrun in Hload; [|done|]; injection Hload as <- <-.
    - destruct (lookup_lt_is_Some_2 (heap st) lc) as [df Hlc]; [by eapply Hwf|].
      exists df. split; [cbn; rewrite Hlc; apply lookup_new|].
      eapply cache_inv_step; [|exact Hfirst]. split_and!; [done..|]. by exists lc.
    - exists df. cbn. rewrite Hac.
      split.
      { replace (S (length (heap st))) with (length (heap st ++ [df]))
          by (rewrite length_app; cbn; lia). apply lookup_new. }
      unfold cache_inv; simpl_st. split_and!; cbn.
      + intros n' l'; cbn. rewrite !length_app; cbn.
        intros [[-> <-]|[_ Hl']]%lookup_insert_Some; [lia|].
        apply Hwf in Hl'. lia.
      + intros l' [->%elem_of_singleton|Hl']%elem_of_union; rewrite !length_app; cbn;
          [lia|]. apply Hown in Hl'. lia.
      + intros n' l' [[_ <-]|[_ Hl']]%lookup_insert_Some Hin.
        * apply elem_of_union in Hin as [Hin%elem_of_singleton|Hin]; [lia|].
          apply Hown in Hin. lia.
        * apply elem_of_union in Hin as [->%elem_of_singleton|Hin].
          -- apply Hwf in Hl'. lia.
          -- by eapply Hsep.
      + exists (length (heap st)). split; [apply lookup_insert_eq|].
        by apply lookup_app_l_Some, lookup_new. }
  pose proof (cache_inv_steps _ _ _ _ Hinv Hsteps) as (Hwf2 & _ & _ & lc & Hc & Hlc).
  cbn in *.
  destruct (load_base_table_cases name st2)
    as [(lc' & Hc' & Hrun)|[(Hc' & _)|(Hc' & _)]]; [|congruence..].
  assert (lc' = lc) as -> by congruence.
  eexists _, _, df. split; [exact Hrun|]. cbn. rewrite Hlc. cbn.
  split_and!; [done..|apply lookup_new].
Qed.


(** ** Left joins and row counts *)






Lemma rename_columns_rows ren df out :
  rename_columns ren df = Ok out →
  rows out = relabel (rename_label ren) (columns df) <$> rows df
  ∧ columns out = rename_label ren <$> columns df.
Proof.
  unfold rename_columns. destruct (has_dup _); [done|]. by intros [= <-].
Qed.








Lemma rename_label_to ren k c :
  (∀ p, p ∈ ren → p.2 ≠ k) → rename_label ren c = k → c = k.
Proof.
  intros Hren. unfold rename_label.
  destruct (filter (λ p, bool_decide (p.1 = c)) ren) as [|p ps] eqn:Hf; [done|].
  assert (p ∈ filter (λ p, bool_decide (p.1 = c)) ren) as [Hp Hin]%list_elem_of_filter
    by (rewrite Hf; apply list_elem_of_here).
  cbn. intros Heq. by destruct (Hren p Hin).
Qed.

Section Joins.
Context `{!Library}.












End Joins.


(** ** The join engine *)

Section JoinEngine.
Context `{!Library}.

Lemma load_copy_bind {A} name (k : DataFrame → M A) st :
  (l ← _load_base_table name; l' ← copy l; df ← deref l'; k df) st
  = ((l ← _load_base_table name; l' ← copy l; deref l') ≫= k) st.
Proof.
  rewrite !M_bind_run.
  destruct (_load_base_table name st) as [[l|e] st1]; [|done].
  rewrite !M_bind_run. by destruct (copy l st1) as [[l'|e] st2].
Qed.

(** A table loaded and copied, then used. *)
Lemma with_table_run {A} name (k : DataFrame → M A) st :
  cache_wf st →
  ∃ st1, stable st st1 ∧
    (l ← _load_base_table name; l' ← copy l; df ← deref l'; k df) st
    = match base_table st name with
      | Some df => k df st1
      | None => ((_load_base_table name st).1 ≫= λ _, Raise ValueError, st1)
      end
    ∧ (base_table st name = None → is_ok (_load_base_table name st).1 = false).
Proof.
  intros Hwf. destruct (load_copy_run name st Hwf) as (st1 & Hst & Hrun & Hno).
  exists st1. split; [done|]. split; [|done].
  rewrite load_copy_bind, M_bind_run, Hrun.
  destruct (base_table st name) as [df|]; [done|].
  specialize (Hno eq_refl). by destruct ((_load_base_table name st).1).
Qed.

(** The result of an accessor depends on the fixtures and the disk only. *)
Lemma detail_result_stable subfolder stem event_id st st' :
  cache_wf st → stable st st' →
  is_Some (base_table st "fixtures") →
  (detail_for_event subfolder stem event_id st').1
  = (detail_for_event subfolder stem event_id st).1.
Proof.
  intros Hwf (Hwf' & Hroot & _ & Htab) [fx Hfx].
  destruct (detail_run subfolder stem event_id st Hwf) as (s1 & _ & -> & _).
  destruct (detail_run subfolder stem event_id st' Hwf') as (s2 & _ & -> & _).
  cbn. rewrite Htab, Hfx.
  destruct (season_league_of fx event_id) as [[y lc]|]; [|done]. cbn.
  by rewrite (load_files_same_listing _ _ st' st) by by rewrite Hroot.
Qed.

Lemma detail_raises_without_fixtures subfolder stem event_id st :
  cache_wf st → base_table st "fixtures" = None →
  is_ok (detail_for_event subfolder stem event_id st).1 = false.
Proof.
  intros Hwf Hfx.
  destruct (detail_run subfolder stem event_id st Hwf) as (s1 & _ & -> & Hno).
  cbn. rewrite Hfx. specialize (Hno Hfx). by destruct ((fixtures st).1).
Qed.

(** What [merge_player_stats] returns on statistics that are not empty, in
    terms of the tables and of the lineup the accessor returns. *)
Lemma merge_player_stats_run D st :
  cache_wf st → df_empty D = false →
  let df := keys_as_str D in
  let r := (merge_player_stats D st).1 in
  match base_table st "players" with
  | None => is_ok r = false
  | Some players =>
      match join_players df players with
      | Raise e => r = Raise e
      | Ok out1 =>
          match base_table st "teams" with
          | None => is_ok r = false
          | Some teams =>
              match join_teams out1 teams with
              | Raise e => r = Raise e
              | Ok out2 =>
                  match first_event_id df with
                  | None => r = Ok out2
                  | Some event_id =>
                      if bool_decide (event_id = ""%string) then r = Ok out2
                      else
                        match base_table st "fixtures" with
                        | None => is_ok r = false
                        | Some _ =>
                            r = (lineup ← (lineup_for_event (PStr event_id) st).1;
                                 join_position out2 lineup)
                        end
                  end
              end
          end
      end
  end.
Proof.
  intros Hwf Hne df r.
  assert (r = (merge_player_stats D st).1) as Hr by done. clearbody r.
  unfold merge_player_stats in Hr. rewrite Hne in Hr.
  fold df in Hr. unfold players, teams in Hr.
  destruct (with_table_run "players"
    (λ players_df,
       out ← lift (join_players df players_df);
       lt ← _load_base_table "teams"; lt' ← copy lt; teams_df ← deref lt';
       out ← lift (join_teams out teams_df);
       match first_event_id df with
       | Some event_id =>
           if bool_decide (event_id = ""%string) then mret out
           else lineup ← lineup_for_event (PStr event_id);
                lift (join_position out lineup)
       | None => mret out
       end) st Hwf) as (st1 & Hst1 & Hrun1 & Hno1).
  rewrite Hrun1 in Hr. clear Hrun1.
  destruct (base_table st "players") as [P|].
  2:{ subst r. cbn. specialize (Hno1 eq_refl).
      by destruct ((_load_base_table "players" st).1). }
  rewrite M_bind_run in Hr. unfold lift at 1 in Hr.
  destruct (join_players df P) as [out1|e]; [|done].
  destruct (with_table_run "teams"
    (λ teams_df,
       out ← lift (join_teams out1 teams_df);
       match first_event_id df with
       | Some event_id =>
           if bool_decide (event_id = ""%string) then mret out
           else lineup ← lineup_for_event (PStr event_id);
                lift (join_position out lineup)
       | None => mret out
       end) st1 (proj1 Hst1)) as (st2 & Hst2 & Hrun2 & Hno2).
  rewrite Hrun2 in Hr. clear Hrun2.
  assert (stable st st2) as Hst by (eapply stable_trans; [|exact Hst2]; done).
  destruct Hst1 as (Hwf1 & Hroot1 & Hac1 & Htab1).
  rewrite Htab1 in *.
  destruct (base_table st "teams") as [T|].
  2:{ subst r. cbn. specialize (Hno2 eq_refl).
      by destruct ((_load_base_table "teams" st1).1). }
  rewrite M_bind_run in Hr. unfold lift at 1 in Hr.
  destruct (join_teams out1 T) as [out2|e]; [|done].
  destruct (first_event_id df) as [eid|]; [|done].
  case_bool_decide; [done|].
  rewrite M_bind_run in Hr. unfold lineup_for_event in *.
  destruct (base_table st "fixtures") as [fx|] eqn:Hfx.
  - rewrite <-(detail_result_stable _ _ _ st st2) by (try done; by eexists).
    subst r.
    by destruct (detail_for_event "lineup_data" "lineup" (PStr eid) st2)
      as [[L|e] st3].
  - pose proof (detail_raises_without_fixtures "lineup_data" "lineup" (PStr eid) st2
                  (proj1 Hst)) as Hraise.
    destruct Hst as (_ & _ & _ & Htab). rewrite Htab, Hfx in Hraise.
    specialize (Hraise eq_refl). subst r.
    by destruct (detail_for_event "lineup_data" "lineup" (PStr eid) st2)
      as [[L|e] st3].
Qed.



End JoinEngine.


(* ================================================================= *)
(** * Further properties *)

(** ** The listing of events *)

Lemma mask_and {A} (f g : A → bool) (l : list A) :
  zip_with andb (f <$> l) (g <$> l) = (λ x, f x && g x) <$> l.
Proof. induction l as [|x l IH]; [done|]. cbn. by rewrite IH. Qed.

Lemma mask_or {A} (f g : A → bool) (l : list A) :
  zip_with orb (f <$> l) (g <$> l) = (λ x, f x || g x) <$> l.
Proof. induction l as [|x l IH]; [done|]. cbn. by rewrite IH. Qed.

Lemma mask_filter {A} (f : A → bool) (l : list A) :
  filter (λ p, p.2 = true) (zip l (f <$> l))
  = (λ x, (x, f x)) <$> filter (λ x, f x = true) l.
Proof.
  induction l as [|x l IH]; [done|]. cbn [fmap list_fmap zip zip_with].
  rewrite !filter_cons. cbn [snd]. rewrite IH.
  destruct (f x) eqn:E; repeat case_decide; try done; cbn; by rewrite ?E.
Qed.

Lemma loc_mask_rows (df : DataFrame) (f : row → bool) c :
  loc_mask df (f <$> rows df) c
  = if in_columns c df
    then Ok ((λ r, cell r c) <$> filter (λ r, f r = true) (rows df))
    else Raise (KeyError (MissingLabel c)).
Proof.
  unfold loc_mask. destruct (in_columns c df); [|done].
  by rewrite mask_filter, <-list_fmap_compose.
Qed.

Section ListEvents.
Context `{!Library}.

Lemma get_column_got fx c : get_column fx c = (λ r, got_cell fx r c) <$> rows fx.
Proof. unfold get_column, got_cell. by destruct (in_columns c fx). Qed.

(** What the two masks select, row by row. *)
Lemma events_of_rows fx league_code season_year :
  events_of fx league_code season_year
  = if truthy league_code && negb (if league_code is PStr _ then true else false)
    then Raise TypeError
    else if in_columns "eventId" fx
    then Ok ((λ r, cell r "eventId")
               <$> filter (λ r, listed fx league_code season_year r = true) (rows fx))
    else Raise (KeyError (MissingLabel "eventId")).
Proof.
  unfold events_of, listed, clean_column.
  rewrite !get_column_got, <-!list_fmap_compose.
  destruct (truthy league_code) eqn:Hl; cbn [andb negb].
  - destruct league_code as [z|f|s|]; try done. cbn [mbind result_bind negb].
    rewrite <-!list_fmap_compose, mask_or, mask_and.
    destruct (truthy season_year).
    + rewrite mask_and, loc_mask_rows. unfold league_selects, season_selects.
      destruct (in_columns "eventId" fx); [|done]. do 2 f_equal.
    + rewrite loc_mask_rows. unfold league_selects.
      destruct (in_columns "eventId" fx); [|done]. do 2 f_equal.
      apply list_filter_iff. intros r. cbn. by rewrite andb_true_r.
  - cbn [mbind result_bind].
    destruct (truthy season_year).
    + rewrite mask_and, loc_mask_rows. unfold season_selects.
      destruct (in_columns "eventId" fx); done.
    + by rewrite loc_mask_rows.
Qed.

(** [list_events] on an instance: the fixtures are loaded, and listed. *)
Lemma list_events_run league_code season_year st :
  cache_wf st →
  ∃ st', stable st st' ∧
    list_events league_code season_year st
    = (match base_table st "fixtures" with
       | Some fx => events_of fx league_code season_year
       | None => (fixtures st).1 ≫= λ _, Raise ValueError
       end, st')
    ∧ (base_table st "fixtures" = None → is_ok (fixtures st).1 = false).
Proof.
  intros Hwf. unfold list_events, fixtures. rewrite M_bind_run.
  destruct (_load_base_table "fixtures" st) as [[l|e] st1] eqn:E;
    apply load_base_table_run in E as (Hst & E); [|done|..|done].
  - destruct E as (-> & [df Hdf] & Hl). rewrite Hdf in Hl |- *.
    exists st1. split; [done|]. split; [|done].
    mrun. by rewrite Hl.
  - rewrite E. exists st1. by split_and!.
Qed.


Lemma keep_alnum_app s t : keep_alnum (s +:+ t) = keep_alnum s +:+ keep_alnum t.
Proof.
  induction s as [|c s IH]; [done|].
  change (String c s +:+ t) with (String c (s +:+ t)). cbn [keep_alnum].
  rewrite IH. by destruct (is_alnum c).
Qed.

Lemma ascii_case_alnum c :
  is_alnum (ascii_lower c) = is_alnum c
  ∧ is_alnum (ascii_upper c) = is_alnum c
  ∧ ascii_upper (ascii_lower c) = ascii_upper c
  ∧ ascii_upper (ascii_upper c) = ascii_upper c.
Proof. by destruct c as [[] [] [] [] [] [] [] []]. Qed.

Lemma clean_code_lower s : clean_code (lower s) = clean_code s.
Proof.
  unfold clean_code. induction s as [|c s IH]; [done|].
  cbn [lower keep_alnum]. destruct (ascii_case_alnum c) as (-> & _ & Hu & _).
  destruct (is_alnum c); [|done]. cbn [upper]. by rewrite Hu, IH.
Qed.

Lemma clean_code_upper s : clean_code (upper s) = clean_code s.
Proof.
  unfold clean_code. induction s as [|c s IH]; [done|].
  cbn [upper keep_alnum]. destruct (ascii_case_alnum c) as (_ & -> & _ & Hu).
  destruct (is_alnum c); [|done]. cbn [upper]. by rewrite Hu, IH.
Qed.

Lemma clean_code_drop s1 c s2 :
  is_alnum c = false → clean_code (s1 +:+ String c s2) = clean_code (s1 +:+ s2).
Proof.
  intros Hc. unfold clean_code. rewrite !keep_alnum_app. cbn [keep_alnum].
  by rewrite Hc.
Qed.

(** The league filter sees the code through its cleaned form only. *)
Lemma events_of_same_code fx s t season_year :
  s ≠ ""%string → t ≠ ""%string → clean_code s = clean_code t →
  events_of fx (PStr s) season_year = events_of fx (PStr t) season_year.
Proof.
  intros Hs Ht Hst. unfold events_of. cbn [truthy].
  rewrite !bool_decide_false by done. cbn [negb]. by rewrite Hst.
Qed.

Lemma list_events_same_result a b a' b' st :
  (∀ fx, events_of fx a b = events_of fx a' b') →
  list_events a b st = list_events a' b' st.
Proof.
  intros Heq. unfold list_events. rewrite !M_bind_run.
  destruct (fixtures st) as [[l|e] st1]; [|done].
  rewrite !M_bind_run. destruct (deref l st1) as [[df|e] st2]; [|done].
  unfold lift. by rewrite Heq.
Qed.

(** X2. The league code of [list_events] counts through its letters and
    digits only, whatever their case: a code lists the same events as any
    code with the same cleaned form, as the code in lower case, as the code
    in upper case, and as the code with a character that is no letter or
    digit taken out ("ITA.1", "ita.1", "ITA1"). *)
Theorem list_events_league_code_form (s t : string) season_year st :
  s ≠ ""%string → t ≠ ""%string →
  clean_code s = clean_code t
  ∨ t = lower s
  ∨ t = upper s
  ∨ (∃ s1 c s2, s = s1 +:+ String c s2 ∧ t = s1 +:+ s2 ∧ is_alnum c = false) →
  list_events (PStr s) season_year st = list_events (PStr t) season_year st.
Proof.
  intros Hs Ht Hst. apply list_events_same_result. intros fx.
  apply events_of_same_code; [done..|].
  destruct Hst as [Hst | [-> | [-> | (s1 & c & s2 & -> & -> & Hc)]]].
  - done.
  - by rewrite clean_code_lower.
  - by rewrite clean_code_upper.
  - by apply clean_code_drop.
Qed.

(** X3. When [list_events] raises, on an instance whose fixtures load: a league
    code that is set and is no text is a [TypeError]; otherwise fixtures
    without an [eventId] column are a [KeyError], whatever the filters; and
    otherwise the call returns. *)
Theorem list_events_raises league_code season_year st fx :
  cache_wf st →
  base_table st "fixtures" = Some fx →
  let r := (list_events league_code season_year st).1 in
  (truthy league_code = true → (∀ s, league_code ≠ PStr s) → r = Raise TypeError)
  ∧ (truthy league_code = false ∨ (∃ s, league_code = PStr s) →
     "eventId" ∉ columns fx → r = Raise (KeyError (MissingLabel "eventId")))
  ∧ (truthy league_code = false ∨ (∃ s, league_code = PStr s) →
     "eventId" ∈ columns fx → is_ok r = true).
Proof.
  intros Hwf Hfx r.
  destruct (list_events_run league_code season_year st Hwf) as (st' & _ & Hrun & _).
  unfold r. rewrite Hrun, Hfx, events_of_rows. cbn [fst]. unfold in_columns.
  split_and!.
  - intros Ht Hno. rewrite Ht.
    destruct league_code as [z|f|s|]; try done. by destruct (Hno s).
  - intros Hl Hcol. rewrite bool_decide_false by done.
    destruct Hl as [-> | [s ->]]; [done|]. by rewrite andb_false_r.
  - intros Hl Hcol. rewrite bool_decide_true by done.
    destruct Hl as [-> | [s ->]]; [done|]. by rewrite andb_false_r.
Qed.

(** X1. With no filter [list_events] lists the [eventId] cell of every row of
    the fixtures, in order; a filter that is [None], the empty text or zero
    is no filter; and whatever the filters, what is listed is a sublist of
    that. *)
Theorem list_events_filters_only_remove st fx :
  cache_wf st →
  base_table st "fixtures" = Some fx →
  "eventId" ∈ columns fx →
  let all := (λ r, cell r "eventId") <$> rows fx in
  (∀ league_code season_year,
     truthy league_code = false → truthy season_year = false →
     (list_events league_code season_year st).1 = Ok all)
  ∧ (∀ league_code season_year out,
       (list_events league_code season_year st).1 = Ok out → sublist out all).
Proof.
  intros Hwf Hfx Hcol all. split.
  - intros lc sy Hl Hs.
    destruct (list_events_run lc sy st Hwf) as (st' & _ & -> & _).
    rewrite Hfx, events_of_rows. cbn [fst]. rewrite Hl. cbn [andb].
    unfold in_columns. rewrite bool_decide_true by done. f_equal. unfold all.
    f_equal. unfold listed. rewrite Hl, Hs. cbn.
    induction (rows fx) as [|r rs IH]; [done|].
    rewrite filter_cons. rewrite decide_True by done. by rewrite IH.
  - intros lc sy out.
    destruct (list_events_run lc sy st Hwf) as (st' & _ & -> & _).
    rewrite Hfx, events_of_rows. cbn [fst].
    destruct (truthy lc && _); [done|].
    unfold in_columns. rewrite bool_decide_true by done. intros [= <-].
    apply fmap_sublist, sublist_filter.
Qed.

(** X4. The season filter of [list_events] compares texts: a season year given
    as a number filters as its decimal text does; and when no row of the
    fixtures has exactly the text of the season year under [season], nothing
    is listed (a season "2024-2025" is not listed for "2024"). *)
Theorem list_events_season_is_text league_code st fx :
  cache_wf st →
  base_table st "fixtures" = Some fx →
  (∀ z, z ≠ 0 →
     list_events league_code (PInt z) st
     = list_events league_code (PStr (pretty z)) st)
  ∧ (∀ season_year out,
       truthy season_year = true →
       (∀ r, r ∈ rows fx → py_str (got_cell fx r "season") ≠ py_str season_year) →
       (list_events league_code season_year st).1 = Ok out →
       out = []).
Proof.
  intros Hwf Hfx. split.
  - intros z Hz. apply list_events_same_result. intros fx'.
    unfold events_of. cbn [truthy py_str].
    assert (pretty z ≠ ""%string) as Hne.
    { destruct z as [|p|p]; [done| |done].
      change (pretty (Z.pos p)) with (pretty (N.pos p)).
      destruct (pretty_N_digits (N.pos p)) as (_ & Hne & _).
      intros E. by rewrite E in Hne. }
    rewrite bool_decide_false by done.
    by rewrite (proj2 (Z.eqb_neq z 0) Hz).
  - intros sy out Hsy Hno.
    destruct (list_events_run league_code sy st Hwf) as (st' & _ & -> & _).
    rewrite Hfx, events_of_rows. cbn [fst].
    destruct (truthy league_code && _); [done|].
    destruct (in_columns "eventId" fx); [|done]. intros [= <-].
    assert (filter (λ r, listed fx league_code sy r = true) (rows fx) = []) as ->; [|done].
    induction (rows fx) as [|r rs IH]; [done|].
    rewrite filter_cons, decide_False.
    + apply IH. intros r' Hr'. apply Hno. by right.
    + unfold listed, season_selects. rewrite Hsy.
      rewrite (bool_decide_false (py_str _ = _)) by (apply Hno; by left).
      by rewrite andb_false_r.
Qed.


Lemma filter_first_unique {A B} `{EqDecision B} (key : A → B) (rs : list A) r :
  NoDup (key <$> rs) → r ∈ rs →
  head (filter (λ r', key r' = key r) rs) = Some r.
Proof.
  intros Hnd Hr. induction rs as [|r0 rs IH]; [by apply not_elem_of_nil in Hr|].
  rewrite fmap_cons in Hnd. apply NoDup_cons in Hnd as [Hr0 Hnd].
  rewrite filter_cons. destruct (decide (key r0 = key r)) as [Hk|Hk].
  - cbn. f_equal. apply elem_of_cons in Hr as [->|Hr]; [done|].
    exfalso. apply Hr0. rewrite Hk. by apply list_elem_of_fmap_2.
  - apply elem_of_cons in Hr as [->|Hr]; [done|]. by apply IH.
Qed.

Lemma as_series_text fx r0 c r :
  c ∈ columns fx → r ∈ rows fx → is_numeric (cell r c) = false →
  as_series fx r0 = r0.
Proof.
  intros Hc Hr Hn. unfold as_series.
  assert (forallb (λ c, forallb (λ r', is_numeric (cell r' c)) (rows fx)) (columns fx)
          = false) as ->; [|done].
  apply not_true_is_false. intros Hall.
  rewrite forallb_forall in Hall.
  specialize (Hall c (proj1 (list_elem_of_In _ _) Hc)).
  rewrite forallb_forall in Hall.
  specialize (Hall r (proj1 (list_elem_of_In _ _) Hr)). congruence.
Qed.

(** X5. An event that [list_events] lists for a season year is one the
    resolver files under that year: on fixtures with the columns [eventId]
    and [season] and no [seasonYear], where no two rows have the same id and
    some cell is no number, every id listed for the year [y] resolves to
    the season year [y]. *)
Theorem listed_event_resolves_to_season st fx (y : N) league_code season_year out e :
  cache_wf st →
  base_table st "fixtures" = Some fx →
  "eventId" ∈ columns fx → "seasonYear" ∉ columns fx → "season" ∈ columns fx →
  NoDup ((λ r, _id_str (cell r "eventId")) <$> rows fx) →
  (∃ c r, c ∈ columns fx ∧ r ∈ rows fx ∧ is_numeric (cell r c) = false) →
  truthy season_year = true →
  py_str season_year = pretty y →
  (list_events league_code season_year st).1 = Ok out →
  e ∈ out →
  fst <$> (_derive_season_league_code e st).1 = Ok (Z.of_N y).
Proof.
  intros Hwf Hfx Hid Hsy Hseason Hnd (c & rt & Hc & Hrt & Htext) Htruthy Hy Hout He.
  destruct (list_events_run league_code season_year st Hwf) as (st1 & _ & Hrun & _).
  rewrite Hrun, Hfx, events_of_rows in Hout. cbn [fst] in Hout.
  destruct (truthy league_code && _); [done|].
  unfold in_columns in Hout. rewrite bool_decide_true in Hout by done.
  injection Hout as <-.
  apply list_elem_of_fmap in He as (r & -> & [Hlisted Hr]%list_elem_of_filter).
  assert (py_str (cell r "season") = pretty y) as Hcell.
  { unfold listed in Hlisted. rewrite Htruthy in Hlisted.
    apply andb_true_iff in Hlisted as [_ Hs]. unfold season_selects in Hs.
    apply bool_decide_eq_true in Hs. unfold got_cell, in_columns in Hs.
    rewrite bool_decide_true in Hs by done. congruence. }
  destruct (derive_run (cell r "eventId") st Hwf) as (st2 & _ & -> & _).
  rewrite Hfx. cbn [fst]. unfold season_league_of.
  assert (filter (λ c, c ∈ columns fx) id_candidates
          = "eventId"%string :: filter (λ c, c ∈ columns fx) (tail id_candidates)) as ->.
  { unfold id_candidates. rewrite filter_cons. by rewrite decide_True. }
  cbn [find_event_row].
  pose proof (filter_first_unique (λ r, _id_str (cell r "eventId")) (rows fx) r Hnd Hr)
    as Hhead.
  destruct (filter _ (rows fx)) as [|r0 rest]; [done|]. injection Hhead as ->.
  rewrite (as_series_text fx r c rt Hc Hrt Htext).
  unfold in_columns. rewrite bool_decide_false, bool_decide_true by done.
  rewrite Hcell.
  destruct (pretty_N_digits y) as (Hdig & _).
  destruct (split_first_digits (pretty y) "" Hdig) as [-> _].
  by rewrite py_int_of_str_pretty.
Qed.

End ListEvents.


(** ** The detail accessors *)

Section Accessors.
Context `{!Library}.

(** An accessor in terms of its two parts, the resolver and the loader,
    both run on the instance as it is before the call. *)
Lemma detail_parts subfolder stem event_id st :
  cache_wf st →
  (detail_for_event subfolder stem event_id st).1
  = '(season_year, league_code) ← (_derive_season_league_code event_id st).1;
    df ← (_load_files_by_pattern subfolder
            (partition_prefix stem season_year league_code) st).1;
    Ok (if negb (df_empty df) && in_columns "eventId" df
        then filter_eq df "eventId" event_id
        else df).
Proof.
  intros Hwf.
  destruct (detail_run subfolder stem event_id st Hwf) as (s1 & _ & -> & Hno).
  destruct (derive_run event_id st Hwf) as (s2 & _ & -> & _).
  cbn [fst]. destruct (base_table st "fixtures") as [fx|]; [done|].
  by destruct ((fixtures st).1).
Qed.


(** No cell of another kind than the id equals it. *)
Lemma filter_other_kind event_id (rs : list row) :
  (∀ r, r ∈ rs →
     match event_id with
     | PStr _ => ∀ t, cell r "eventId" ≠ PStr t
     | PInt _ | PFloat _ => is_numeric (cell r "eventId") = false
     | PNone => True
     end) →
  filter (λ r, py_eq (cell r "eventId") event_id) rs = [].
Proof.
  intros Hkind. induction rs as [|r rs IH]; [done|].
  rewrite filter_cons, decide_False.
  - apply IH. intros r' Hr'. apply Hkind. by right.
  - specialize (Hkind r (list_elem_of_here _ _)).
    intros Hp. apply Is_true_true in Hp.
    destruct event_id as [z|f|s|], (cell r "eventId") as [z'|f'|s'|];
      cbn in *; try done; by destruct (Hkind s').
Qed.

(** An id of one kind and a partition of the other. *)
Lemma detail_other_kind subfolder stem event_id st y lc df :
  cache_wf st →
  (_derive_season_league_code event_id st).1 = Ok (y, lc) →
  (_load_files_by_pattern subfolder (partition_prefix stem y lc) st).1 = Ok df →
  "eventId" ∈ columns df →
  (∀ r, r ∈ rows df →
     match event_id with
     | PStr _ => ∀ t, cell r "eventId" ≠ PStr t
     | PInt _ | PFloat _ => is_numeric (cell r "eventId") = false
     | PNone => True
     end) →
  (detail_for_event subfolder stem event_id st).1 = Ok (mkDF (columns df) []).
Proof.
  intros Hwf Hres Hload Hcol Hkind. rewrite detail_parts, Hres by done.
  cbn. rewrite Hload. cbn. f_equal.
  pose proof (filter_other_kind event_id (rows df) Hkind) as Hnone.
  unfold filter_eq. rewrite Hnone.
  destruct (negb (df_empty df) && in_columns "eventId" df) eqn:E; [done|].
  unfold in_columns in E. rewrite bool_decide_true, andb_true_r in E by done.
  apply negb_false_iff in E. unfold df_empty in E.
  apply orb_true_iff in E as [E|E]; apply bool_decide_eq_true in E.
  - rewrite E in Hcol. by apply not_elem_of_nil in Hcol.
  - destruct df as [cols rs]; cbn in *. by rewrite E.
Qed.

(** X7. [==] tells text from numbers: an accessor called with a text id
    returns no row of a partition whose [eventId] cells are no text, called
    with a number it returns no row of a partition whose [eventId] cells are
    no numbers, and called with [None] it returns no row at all. *)
Theorem accessor_text_and_number_never_meet subfolder stem event_id st y lc df :
  cache_wf st →
  (_derive_season_league_code event_id st).1 = Ok (y, lc) →
  (_load_files_by_pattern subfolder (partition_prefix stem y lc) st).1 = Ok df →
  "eventId" ∈ columns df →
  (∀ r, r ∈ rows df →
     match event_id with
     | PStr _ => ∀ t, cell r "eventId" ≠ PStr t
     | PInt _ | PFloat _ => is_numeric (cell r "eventId") = false
     | PNone => True
     end) →
  (detail_for_event subfolder stem event_id st).1 = Ok (mkDF (columns df) []).
Proof. apply detail_other_kind. Qed.

(** X8. An accessor fails as its parts do and not otherwise: with the exception
    of the resolver when the resolver raises, else with the exception of the
    loader when the loader raises (a missing folder is a
    [FileNotFoundError]), and else it returns. *)
Theorem accessor_raises_like_its_parts subfolder stem event_id st :
  cache_wf st →
  let r := (detail_for_event subfolder stem event_id st).1 in
  match (_derive_season_league_code event_id st).1 with
  | Raise e => r = Raise e
  | Ok (y, lc) =>
      (folders (root_dir st) !! subfolder = None →
         r = Raise (FileNotFoundError subfolder))
      ∧ match (_load_files_by_pattern subfolder (partition_prefix stem y lc) st).1 with
        | Raise e => r = Raise e
        | Ok _ => is_ok r = true
        end
  end.
Proof.
  intros Hwf r. unfold r. rewrite detail_parts by done.
  destruct ((_derive_season_league_code event_id st).1) as [[y lc]|e]; [|done].
  cbn. split.
  - intros Hno. by rewrite load_missing_folder.
  - by destruct ((_load_files_by_pattern subfolder _ st).1).
Qed.

(** X9. Once the fixtures are cached, an accessor looks at the disk for the
    entries of its own folder and for nothing else: on any other disk with
    the same entries in that folder it returns the same. The partitions are
    read anew at every call, the fixtures are not. *)
Theorem accessor_reads_its_folder_only subfolder stem event_id st l fs :
  cache_wf st →
  _cache st !! "fixtures" = Some l →
  folders fs !! subfolder = folders (root_dir st) !! subfolder →
  (detail_for_event subfolder stem event_id (set_root_dir fs st)).1
  = (detail_for_event subfolder stem event_id st).1.
Proof.
  intros Hwf Hc Hdir.
  assert (cache_wf (set_root_dir fs st)) as Hwf' by done.
  destruct (detail_run subfolder stem event_id st Hwf) as (s1 & _ & -> & _).
  destruct (detail_run subfolder stem event_id _ Hwf') as (s2 & _ & -> & _).
  cbn [fst].
  assert (base_table (set_root_dir fs st) "fixtures" = base_table st "fixtures") as ->.
  { unfold base_table. cbn. by rewrite Hc. }
  assert ((fixtures (set_root_dir fs st)).1 = (fixtures st).1) as ->.
  { unfold fixtures, _load_base_table. mrun. cbn. by rewrite Hc. }
  destruct (base_table st "fixtures") as [fx|]; [|done].
  destruct (season_league_of fx event_id) as [[y lc]|]; [|done]. cbn.
  rewrite !load_files_run. cbn. by rewrite Hdir.
Qed.

End Accessors.


(** ** The partition resolver *)


Section ResolverMore.
Context `{!Library}.



(** X11. The league code of an id the fixtures hold, in row [r]: the text of
    the cell under the first of [leagueId], [midsizeName], [league] and
    [league_code] that the fixtures have, a missing cell reading "nan"; and
    [None] when they have none of the four, which names the partition
    [stem_year_None]. *)
Theorem league_code_precedence event_id st fx r y lc :
  cache_wf st →
  base_table st "fixtures" = Some fx →
  find_event_row fx (_id_str event_id)
    (filter (λ c, c ∈ columns fx) id_candidates) = Some r →
  (_derive_season_league_code event_id st).1 = Ok (y, lc) →
  ("leagueId" ∈ columns fx → lc = Some (py_str (cell r "leagueId")))
  ∧ ("leagueId" ∉ columns fx → "midsizeName" ∈ columns fx →
       lc = Some (py_str (cell r "midsizeName")))
  ∧ ("leagueId" ∉ columns fx → "midsizeName" ∉ columns fx → "league" ∈ columns fx →
       lc = Some (py_str (cell r "league")))
  ∧ ("leagueId" ∉ columns fx → "midsizeName" ∉ columns fx → "league" ∉ columns fx →
     "league_code" ∈ columns fx →
       lc = Some (py_str (cell r "league_code")))
  ∧ ("leagueId" ∉ columns fx → "midsizeName" ∉ columns fx → "league" ∉ columns fx →
     "league_code" ∉ columns fx →
       lc = None
       ∧ ∀ stem, partition_prefix stem y lc = stem +:+ "_" +:+ pretty y +:+ "_None")
  ∧ (∀ c, lc = Some (py_str (cell r c)) → isna (cell r c) = true →
       lc = Some "nan"%string ∨ lc = Some "None"%string).
Proof.
  intros Hwf Hfx Hrow.
  destruct (derive_run event_id st Hwf) as (st' & _ & -> & _).
  rewrite Hfx. cbn [fst]. unfold season_league_of. rewrite Hrow.
  destruct (if in_columns "seasonYear" fx then _ else _) as [y'|]; [|done].
  cbn. intros [= -> <-]. unfold league_candidates.
  split_and!.
  1-5: intros; repeat case_decide; done.
  - intros c -> Hna. destruct (cell r c) as [z|[]|s|]; try done; auto.
Qed.

End ResolverMore.


(** ** The partitioned file loader, further *)

(** The frames of a load that returns. *)
Lemma load_files_frames subfolder pattern st entries df :
  folders (root_dir st) !! subfolder = Some entries →
  (_load_files_by_pattern subfolder pattern st).1 = Ok df →
  let frames := entries ≫= λ e, frames_or_nil (entry_frames pattern e) in
  df = match frames with [] => empty_frame | _ => pd_concat frames end.
Proof.
  intros Hdir. rewrite (load_files_result _ _ _ _ Hdir).
  destruct (read_entries pattern entries []) as [fs|] eqn:Hread; [|done].
  cbn. intros [= <-].
  apply read_entries_ok_inv in Hread as Hok.
  rewrite read_entries_ok in Hread by done. by injection Hread as <-.
Qed.

Lemma elem_of_concat {A} (x : A) (ls : list (list A)) :
  x ∈ concat ls ↔ ∃ l, x ∈ l ∧ l ∈ ls.
Proof.
  induction ls as [|l ls IH]; cbn.
  - split; [by intros ?%not_elem_of_nil|]. by intros (l & _ & ?%not_elem_of_nil).
  - rewrite elem_of_app, IH. split.
    + intros [Hx|(l' & Hx & Hl')]; [exists l|exists l']; split; try done.
      * apply list_elem_of_here.
      * by apply list_elem_of_further.
    + intros (l' & Hx & [->|Hl']%elem_of_cons); [by left|right; by exists l'].
Qed.

Lemma length_concat_sum {A} (ls : list (list A)) :
  length (concat ls) = sum_list (length <$> ls).
Proof. induction ls as [|l ls IH]; [done|]. cbn. by rewrite length_app, IH. Qed.

Lemma cell_conform cols rs r c :
  c ∈ cols →
  cell (conform cols rs r) c
  = if float_column rs c then to_float_cell (cell r c) else cell r c.
Proof.
  intros Hc. unfold cell at 1, conform.
  rewrite (lookup_row_over
    (λ c, if float_column rs c then to_float_cell (cell r c) else cell r c)).
  by rewrite decide_True.
Qed.

(** X12. A load that returns keeps every row of every file it read, in the
    order it read them: as many rows as the files have together, over the
    labels of all the files, each once; and the cells as the files have
    them, but that an int becomes a float in a column that holds floats. *)
Theorem load_keeps_every_row subfolder pattern st entries df :
  folders (root_dir st) !! subfolder = Some entries →
  (_load_files_by_pattern subfolder pattern st).1 = Ok df →
  let frames := entries ≫= λ e, frames_or_nil (entry_frames pattern e) in
  n_rows df = sum_list (n_rows <$> frames)
  ∧ NoDup (columns df)
  ∧ (∀ c, c ∈ columns df ↔ ∃ f, f ∈ frames ∧ c ∈ columns f)
  ∧ (∀ i r, concat (rows <$> frames) !! i = Some r →
       ∃ r', rows df !! i = Some r'
         ∧ ∀ c, c ∈ columns df →
             cell r' c = cell r c ∨ cell r' c = to_float_cell (cell r c)).
Proof.
  intros Hdir Hload frames.
  pose proof (load_files_frames _ _ _ _ _ Hdir Hload) as ->. fold frames.
  destruct frames as [|f fs] eqn:Hfs.
  { cbn. split_and!; [done|constructor| |done].
    intros c. split; [by intros ?%not_elem_of_nil|].
    by intros (f & ?%not_elem_of_nil & _). }
  rewrite <-Hfs. clear Hfs. unfold pd_concat, n_rows. cbn [rows columns].
  split_and!.
  - by rewrite length_fmap, length_concat_sum, <-list_fmap_compose.
  - apply NoDup_dedup.
  - intros c. rewrite elem_of_dedup, elem_of_concat. split.
    + intros (cs & Hc & (f' & -> & Hf')%list_elem_of_fmap). by exists f'.
    + intros (f' & Hf' & Hc). exists (columns f'). split; [done|].
      by apply list_elem_of_fmap_2.
  - intros i r Hi. rewrite list_lookup_fmap, Hi. cbn. eexists. split; [done|].
    intros c Hc. rewrite cell_conform by done.
    destruct (float_column _ c); auto.
Qed.

(** X13. The first file that does not read makes the whole load fail, with the
    exception of that file, whatever the files before it gave: a table file
    that [read_csv] refuses, an archive that does not open, a table in an
    archive that [read_csv] refuses. *)
Theorem load_fails_on_first_bad_file subfolder pattern st es1 fname f es2 e :
  folders (root_dir st) !! subfolder = Some (es1 ++ (fname, f) :: es2) →
  Forall (λ e, is_ok (entry_frames pattern e) = true) es1 →
  startswith fname pattern = true →
  (endswith (lower fname) ".csv" = true ∧ as_csv f = Raise e)
  ∨ (endswith (lower fname) ".csv" = false ∧ endswith (lower fname) ".zip" = true
     ∧ (as_zip f = Raise e
        ∨ ∃ ms1 inner ms2,
            as_zip f = Ok (ms1 ++ (inner, Raise e) :: ms2)
            ∧ endswith (lower inner) ".csv" = true
            ∧ Forall (λ m, is_ok (member_frames m) = true) ms1)) →
  _load_files_by_pattern subfolder pattern st = (Raise e, st).
Proof.
  intros Hdir Hes1 Hstart Hbad. rewrite load_files_run, Hdir. f_equal.
  rewrite read_entries_app, read_entries_ok by done. cbn [mbind result_bind].
  rewrite read_entries_cons.
  assert (entry_frames pattern (fname, f) = Raise e) as ->; [|done].
  unfold entry_frames. cbn [fst snd]. rewrite Hstart. cbn [negb].
  destruct Hbad as [[-> ->]|(-> & -> & Hzip)]; [done|].
  destruct Hzip as [->|(ms1 & inner & ms2 & -> & Hinner & Hms1)]; [done|].
  cbn [mbind result_bind]. rewrite read_members_app.
  assert (∀ acc, ∃ fs, read_members ms1 acc = Ok fs) as Hok.
  { clear -Hms1. induction Hms1 as [|m ms Hm _ IH]; intros acc; [by eexists|].
    rewrite read_members_cons. destruct (member_frames m); [|done]. apply IH. }
  destruct (Hok []) as [fs ->]. cbn [mbind result_bind].
  rewrite read_members_cons. unfold member_frames. cbn [fst snd].
  by rewrite Hinner.
Qed.

(** X14. The loader looks at the name of an entry for two things only, whether
    it starts with the prefix, as it is written, and how it ends once in
    lower case: with other names that pass the same tests the load gives
    the same ([x.CSV] for [x.csv]). *)
Theorem load_sees_names_through_tests subfolder pattern st entries entries' :
  folders (root_dir st) !! subfolder = Some entries →
  Forall2 (λ e e',
      e.2 = e'.2
      ∧ startswith e.1 pattern = startswith e'.1 pattern
      ∧ endswith (lower e.1) ".csv" = endswith (lower e'.1) ".csv"
      ∧ endswith (lower e.1) ".zip" = endswith (lower e'.1) ".zip")
    entries entries' →
  (_load_files_by_pattern subfolder pattern (with_folder subfolder entries' st)).1
  = (_load_files_by_pattern subfolder pattern st).1.
Proof.
  intros Hdir Hsame.
  rewrite (load_files_result _ _ _ _ Hdir).
  rewrite (load_files_result _ _ _ _ (folders_with_folder _ _ _)).
  f_equal. clear Hdir. generalize (@nil DataFrame).
  induction Hsame as [|[n g] [n' g'] es es' (Hf & Hs & Hc & Hz) _ IH]; intros acc;
    [done|].
  rewrite !read_entries_cons. cbn [fst snd] in *. subst g'.
  assert (entry_frames pattern (n', g) = entry_frames pattern (n, g)) as ->.
  { unfold entry_frames. cbn [fst snd]. by rewrite Hs, Hc, Hz. }
  destruct (entry_frames pattern (n, g)); [|done]. apply IH.
Qed.


(** ** The base table store, further *)

(** A call that raises: why, and what it cost. *)
Lemma load_raise_cases name st e st' :
  _load_base_table name st = (Raise e, st') →
  _cache st !! name = None
  ∧ _cache st' = _cache st ∧ heap st' = heap st
  ∧ root_dir st' = root_dir st ∧ autocache st' = autocache st
  ∧ match BASE_TABLES !! name with
    | None => e = KeyError (UnknownBaseTable name) ∧ io_count st' = io_count st
    | Some fname =>
        match base_data (root_dir st) !! fname with
        | None => e = FileNotFoundError fname ∧ io_count st' = S (io_count st)
        | Some (Raise e') => e = e' ∧ io_count st' = S (S (io_count st))
        | Some (Ok _) => False
        end
    end.
Proof.
  unfold _load_base_table, base_path_exists, read_csv_base. mrun.
  destruct (_cache st !! name) as [lc|] eqn:Hc; [done|].
  destruct (BASE_TABLES !! name) as [fname|].
  2:{ intros [= <- <-]. by split_and!. }
  cbn [root_dir set_io_count].
  destruct (base_data (root_dir st) !! fname) as [[df|e']|] eqn:Hf.
  - rewrite bool_decide_true by by eexists. cbn. rewrite Hf. cbn.
    by destruct (autocache st).
  - rewrite bool_decide_true by by eexists. cbn. rewrite Hf.
    intros [= <- <-]. by split_and!.
  - rewrite bool_decide_false by (by intros [??]). cbn.
    intros [= <- <-]. by split_and!.
Qed.

(** X15. A call that fails leaves the instance as it was, but for the count of
    file accesses: nothing is cached and no object is made, so the next call
    tries the disk again. An unknown table name is a [KeyError] before any
    file is touched, a missing file a [FileNotFoundError] after one access,
    a file that does not read the exception of [read_csv] after two. *)
Theorem failed_load_changes_nothing name st e st' :
  _load_base_table name st = (Raise e, st') →
  _cache st' = _cache st ∧ heap st' = heap st
  ∧ root_dir st' = root_dir st ∧ autocache st' = autocache st
  ∧ match BASE_TABLES !! name with
    | None => e = KeyError (UnknownBaseTable name) ∧ io_count st' = io_count st
    | Some fname =>
        match base_data (root_dir st) !! fname with
        | None => e = FileNotFoundError fname ∧ io_count st' = S (io_count st)
        | Some (Raise e') => e = e' ∧ io_count st' = S (S (io_count st))
        | Some (Ok _) => False
        end
    end.
Proof. intros H. by apply load_raise_cases in H as (_ & ? & ? & ? & ? & ?). Qed.

(** With [autocache] off the cache stays empty whatever the caller does. *)
Lemma no_autocache_step w w' :
  autocache w.1 = false ∧ _cache w.1 = ∅ ∧ cache_wf w.1 →
  caller_step w w' →
  autocache w'.1 = false ∧ _cache w'.1 = ∅ ∧ cache_wf w'.1.
Proof.
  intros (Hac & Hc & Hwf) Hstep.
  assert (∀ st, _cache st = ∅ → cache_wf st) as Hempty.
  { intros st Hst n l. by rewrite Hst, lookup_empty. }
  destruct Hstep as [n st own l st' Hload|n st own e st' Hload|l f st own Hl|fs st own];
    cbn in *.
  - destruct (load_base_table_cases n st)
      as [(lc & Hcn & Hrun)|[(Hcn & e & k & Hrun)|(Hcn & df & Hrun)]].
    + by rewrite Hc, lookup_empty in Hcn.
    + rewrite Hrun in Hload. done.
    + rewrite Hrun in Hload. injection Hload as _ <-.
      cbn [fst autocache _cache]. rewrite Hac.
      split_and!; [done..|]. by apply Hempty.
  - apply load_raise_cases in Hload as (_ & Hc' & _ & _ & Hac' & _).
    rewrite Hc', Hac'. split_and!; [done..|]. apply Hempty. congruence.
  - split_and!; [done..|]. by apply Hempty.
  - split_and!; [done..|]. by apply Hempty.
Qed.

Lemma no_autocache_steps w w' :
  autocache w.1 = false ∧ _cache w.1 = ∅ ∧ cache_wf w.1 →
  rtc caller_step w w' →
  autocache w'.1 = false ∧ _cache w'.1 = ∅ ∧ cache_wf w'.1.
Proof. induction 2; eauto using no_autocache_step. Qed.

(** X16. On an instance made with [autocache] off, whatever the caller has done
    since (calls, changes in place to the objects it was given, changes to
    the disk), a call of [_load_base_table] reads the file again, with two
    accesses, returns the table the file holds now, and caches nothing. *)
Theorem uncached_load_rereads fs st0 st own name fname df :
  __init__ (Some fs) false = Ok st0 →
  rtc caller_step (st0, ∅) (st, own) →
  BASE_TABLES !! name = Some fname →
  base_data (root_dir st) !! fname = Some (Ok df) →
  ∃ l st', _load_base_table name st = (Ok l, st')
    ∧ heap st' !! l = Some df
    ∧ io_count st' = S (S (io_count st))
    ∧ _cache st' = ∅.
Proof.
  intros [= <-] Hsteps Hname Hfile.
  apply no_autocache_steps in Hsteps as (Hac & Hc & Hwf); [|by split_and!].
  cbn in Hac, Hc, Hwf.
  destruct (load_base_table_cases name st)
    as [(lc & Hcn & Hrun)|[(Hcn & e & k & Hrun)|(Hcn & df' & Hrun)]].
  - by rewrite Hc, lookup_empty in Hcn.
  - exfalso. apply load_raise_cases in Hrun as (_ & _ & _ & _ & _ & Hcase).
    by rewrite Hname, Hfile in Hcase.
  - pose proof Hrun as Hrun'.
    apply load_base_table_run in Hrun' as (_ & _ & _ & Hl); [|done].
    unfold base_table in Hl. rewrite Hcn, Hname, Hfile in Hl.
    eexists _, _. split; [exact Hrun|]. split; [exact Hl|].
    cbn. by rewrite Hac.
Qed.

(** X17. Loading a table leaves every table as it was: after a call for one
    name, returned or raised, a call for any name does what it would have
    done before, it returns a table with the same content or raises the
    same exception. *)
Theorem loads_do_not_interfere n1 n2 st r1 st1 :
  cache_wf st →
  _load_base_table n1 st = (r1, st1) →
  match _load_base_table n2 st1, _load_base_table n2 st with
  | (Ok l, st2), (Ok l', st2') =>
      is_Some (heap st2 !! l) ∧ heap st2 !! l = heap st2' !! l'
  | (Raise e, _), (Raise e', _) => e = e'
  | _, _ => False
  end.
Proof.
  intros Hwf Hload.
  apply load_base_table_run in Hload as (Hst & _); [|done].
  destruct Hst as (Hwf1 & Hroot & _ & Htab).
  destruct (_load_base_table n2 st1) as [[l|e] st2] eqn:E1;
    destruct (_load_base_table n2 st) as [[l'|e'] st2'] eqn:E2.
  - apply load_base_table_run in E1 as (_ & _ & Hs1 & Hl1); [|done].
    apply load_base_table_run in E2 as (_ & _ & Hs2 & Hl2); [|done].
    rewrite Hl1, Hl2, Htab. by rewrite Htab in Hs1.
  - apply load_base_table_run in E1 as (_ & _ & Hs1 & _); [|done].
    apply load_base_table_run in E2 as (_ & Hno); [|done].
    rewrite Htab, Hno in Hs1. by destruct Hs1.
  - apply load_base_table_run in E1 as (_ & Hno); [|done].
    apply load_base_table_run in E2 as (_ & _ & Hs2 & _); [|done].
    rewrite <-Htab, Hno in Hs2. by destruct Hs2.
  - apply load_raise_cases in E1 as (_ & _ & _ & _ & _ & H1).
    apply load_raise_cases in E2 as (_ & _ & _ & _ & _ & H2).
    rewrite Hroot in H1.
    destruct (BASE_TABLES !! n2) as [fname|]; [|destruct H1, H2; congruence].
    destruct (base_data (root_dir st) !! fname) as [[df|e0]|];
      [done|destruct H1, H2; congruence..].
Qed.


(** ** The join engine, further *)

(** Where the labels of a merge come from. *)
Lemma merge_left_columns left right key out c :
  merge_left left right key = Ok out →
  c ∈ columns out →
  (∃ c0, c0 ∈ columns left ∧ (c = c0 ∨ c = c0 +:+ "_x"))
  ∨ (∃ c0, c0 ∈ columns right ∧ c0 ≠ key ∧ (c = c0 ∨ c = c0 +:+ "_y")).
Proof.
  unfold merge_left.
  destruct (negb _); [done|].
  destruct (has_dup _ || has_dup _); [done|].
  destruct (has_dup _); [done|].
  intros [= <-]. cbn [columns]. rewrite elem_of_app.
  intros [(c0 & -> & Hc0)%list_elem_of_fmap|(c0 & -> & Hc0)%list_elem_of_fmap].
  - left. exists c0. split; [done|]. case_bool_decide; auto.
  - right. apply list_elem_of_filter in Hc0 as [Hne Hc0]. exists c0.
    split_and!; [done..|]. case_bool_decide; auto.
Qed.

(** A label with a suffix of the merge is not [teamId]. *)
Lemma not_suffixed_teamId c0 :
  c0 +:+ "_x" ≠ "teamId"%string ∧ c0 +:+ "_y" ≠ "teamId"%string.
Proof.
  assert (∀ sfx, list_ascii_of_string sfx ≠ list_ascii_of_string "Id" →
            String.length sfx = 2%nat → c0 +:+ sfx ≠ "teamId"%string) as Hgen.
  { intros sfx Hne Hlen Heq.
    apply (f_equal list_ascii_of_string) in Heq.
    rewrite list_ascii_of_string_app in Heq.
    change (list_ascii_of_string "teamId")
      with (list_ascii_of_string "team" ++ list_ascii_of_string "Id") in Heq.
    apply app_inj_2 in Heq as [_ Heq]; [done|].
    destruct sfx as [|a [|b [|? ?]]]; done. }
  split; by apply Hgen.
Qed.

(** Membership in a list that is written out. *)
Ltac in_fixed_list H :=
  repeat (apply elem_of_cons in H as [->|H]); [..|by apply not_elem_of_nil in H].

Section JoinsMore.
Context `{!Library}.

Lemma astype_str_columns c df : columns (astype_str c df) = columns df.
Proof. done. Qed.

Lemma keys_as_str_columns df : columns (keys_as_str df) = columns df.
Proof.
  unfold keys_as_str; cbn.
  repeat (destruct (in_columns _ _); rewrite ?astype_str_columns); done.
Qed.

(** The players table as the join takes it: the columns kept, renamed. *)
Lemma players_side_ok (players : DataFrame) :
  let keep :=
    filter (λ c, c ∈ columns players)
      ["athleteId"; "shortName"; "displayName"; "nationality"]%string in
  ∃ right,
    rename_columns
      (filter (λ kv : string * string, kv.1 ∈ keep)
         [("shortName", "playerShortName"); ("displayName", "playerName");
          ("nationality", "playerNationality")]%string)
      (select keep players) = Ok right
    ∧ ("athleteId" ∈ columns right → "athleteId" ∈ columns players).
Proof.
  intros keep. unfold rename_columns.
  destruct (has_dup _) eqn:Hdup.
  { exfalso. revert Hdup. unfold keep. cbn [select columns].
    rewrite !filter_cons, !filter_nil.
    repeat case_decide; by vm_compute. }
  eexists. split; [done|]. cbn [columns select].
  intros (c & Hc & Hin)%list_elem_of_fmap. symmetry in Hc.
  apply rename_label_to in Hc as ->.
  - by apply list_elem_of_filter in Hin as [? _].
  - intros p [_ Hp]%list_elem_of_filter. in_fixed_list Hp; by cbn.
Qed.

(** X18. Statistics that are not empty and have no [athleteId] column cannot be
    merged, and neither can any when the players table has none: the join
    on the key raises [KeyError]. *)
Theorem merge_needs_athlete_id D st players :
  cache_wf st →
  df_empty D = false →
  base_table st "players" = Some players →
  "athleteId" ∉ columns D ∨ "athleteId" ∉ columns players →
  (merge_player_stats D st).1 = Raise (KeyError (MissingLabel "athleteId")).
Proof.
  intros Hwf Hne Hp Hmiss.
  pose proof (merge_player_stats_run D st Hwf Hne) as Hrun. cbn zeta in Hrun.
  rewrite Hp in Hrun.
  assert (join_players (keys_as_str D) players
          = Raise (KeyError (MissingLabel "athleteId"))) as Hjoin.
  { unfold join_players.
    set (players' := if in_columns "athleteId" players then _ else _).
    assert (columns players' = columns players) as Hcols
      by (unfold players'; by destruct (in_columns _ _)).
    destruct (players_side_ok players') as (right & -> & Hkey).
    cbn [mbind result_bind]. unfold merge_left, in_columns.
    rewrite keys_as_str_columns, Hcols in *.
    destruct Hmiss as [Hd|Hd].
    - by rewrite (bool_decide_false _ Hd).
    - rewrite (bool_decide_false ("athleteId" ∈ columns right)) by tauto.
      by rewrite andb_false_r. }
  by rewrite Hjoin in Hrun.
Qed.

Lemma join_position_columns out0 lineup out c :
  join_position out0 lineup = Ok out →
  c ∈ columns out →
  c ∉ position_candidates → c ≠ "position"%string →
  (∀ c0, c0 +:+ "_x" ≠ c ∧ c0 +:+ "_y" ≠ c) →
  c ∈ columns out0.
Proof.
  unfold join_position. intros Hjoin Hc Hpos Hposition Hsfx.
  destruct (negb (df_empty lineup) && in_columns "athleteId" lineup);
    [|by injection Hjoin as <-].
  destruct (head _) as [pos_col|] eqn:Hhead; [|by injection Hjoin as <-].
  apply result_bind_ok in Hjoin as (merged & Hm & Hren).
  apply rename_columns_rows in Hren as [_ Hcols]. rewrite Hcols in Hc.
  apply list_elem_of_fmap in Hc as (c1 & Hc1 & Hin). symmetry in Hc1.
  apply rename_label_to in Hc1 as ->.
  2:{ intros p Hp. apply list_elem_of_singleton in Hp as ->. by cbn. }
  assert (pos_col ∈ position_candidates) as Hcand.
  { apply head_Some_elem_of in Hhead.
    by apply list_elem_of_filter in Hhead as [_ ?]. }
  destruct (merge_left_columns _ _ _ _ _ Hm Hin)
    as [(c0 & Hc0 & [-> | ->]) | (c0 & Hc0 & Hne & Heq)]; [done| |].
  - by destruct (proj1 (Hsfx c0)).
  - exfalso. cbn in Hc0. in_fixed_list Hc0; [done|].
    destruct Heq as [-> | ->]; [done|]. by destruct (proj2 (Hsfx pos_col)).
Qed.

(** X19. The statistics come back without their [teamId] column: when the teams
    table has a [teamId] column, the join keeps one column of that name and
    the [drop] that follows removes it. *)
Theorem merge_drops_team_id D st teams out :
  cache_wf st →
  df_empty D = false →
  base_table st "teams" = Some teams →
  "teamId" ∈ columns teams →
  (merge_player_stats D st).1 = Ok out →
  "teamId" ∉ columns out.
Proof.
  intros Hwf Hne Ht Hcol Hout.
  pose proof (merge_player_stats_run D st Hwf Hne) as Hrun. cbn zeta in Hrun.
  rewrite Hout, Ht in Hrun.
  destruct (base_table st "players") as [P|]; [|done].
  destruct (join_players (keys_as_str D) P) as [out1|]; [|done].
  destruct (join_teams out1 teams) as [out2|] eqn:Hteams; [|done].
  assert ("teamId" ∉ columns out2) as Hno.
  { unfold join_teams, in_columns in Hteams.
    rewrite bool_decide_true in Hteams by done.
    apply result_bind_ok in Hteams as (right & _ & Hm).
    apply result_bind_ok in Hm as (merged & _ & [= <-]).
    cbn. rewrite list_elem_of_filter. by intros [? _]. }
  assert (∀ lineup, join_position out2 lineup = Ok out → "teamId" ∉ columns out)
    as Hpos.
  { intros lineup Hj Hin. apply Hno.
    apply (join_position_columns _ _ _ _ Hj Hin); [|done|].
    - unfold position_candidates. intros Hc.
      repeat (apply elem_of_cons in Hc as [Hc|Hc]; [discriminate Hc|]).
      by apply not_elem_of_nil in Hc.
    - intros c0. apply not_suffixed_teamId. }
  destruct (first_event_id (keys_as_str D)) as [eid|];
    [|by injection Hrun as <-].
  case_bool_decide; [by injection Hrun as <-|].
  destruct (base_table st "fixtures") as [fx|]; [|done].
  symmetry in Hrun. apply result_bind_ok in Hrun as (lineup & _ & Hj).
  by eapply Hpos.
Qed.


(** The statistics with their keys as text, at the event id. *)
Lemma keys_as_str_event_id D :
  "eventId" ∈ columns D →
  (λ r, cell r "eventId") <$> rows (keys_as_str D)
  = (λ r, PStr (py_str (cell r "eventId"))) <$> rows D.
Proof.
  intros Hcol. unfold keys_as_str. cbn [foldl].
  set (D1 := if in_columns "athleteId" D then _ else _).
  set (D2 := if in_columns "teamId" D1 then _ else _).
  assert (columns D1 = columns D) as Hc1 by (unfold D1; by destruct (in_columns _ _)).
  assert (columns D2 = columns D) as Hc2
    by (unfold D2; destruct (in_columns "teamId" D1); by rewrite ?astype_str_columns).
  assert ((λ r, cell r "eventId") <$> rows D1 = (λ r, cell r "eventId") <$> rows D)
    as Hr1.
  { unfold D1. destruct (in_columns _ _); [|done]. cbn.
    rewrite <-list_fmap_compose. apply list_fmap_ext. intros _ r _. cbn.
    unfold cell at 1. by rewrite lookup_insert_ne. }
  assert ((λ r, cell r "eventId") <$> rows D2 = (λ r, cell r "eventId") <$> rows D)
    as Hr2.
  { rewrite <-Hr1. unfold D2. destruct (in_columns "teamId" D1); [|done]. cbn.
    rewrite <-list_fmap_compose. apply list_fmap_ext. intros _ r _. cbn.
    unfold cell at 1. by rewrite lookup_insert_ne. }
  unfold in_columns. rewrite Hc2, bool_decide_true by done. cbn.
  rewrite <-list_fmap_compose.
  trans ((λ v, PStr (py_str v)) <$> ((λ r, cell r "eventId") <$> rows D2)).
  - rewrite <-list_fmap_compose. apply list_fmap_ext. intros _ r _. cbn.
    unfold cell at 1. by rewrite lookup_insert_eq.
  - by rewrite Hr2, <-list_fmap_compose.
Qed.

(** The event id the position step looks up: the text of the [eventId]
    cell of the first row, missing or not. *)
Lemma first_event_id_keys D r0 rs :
  rows D = r0 :: rs → "eventId" ∈ columns D →
  first_event_id (keys_as_str D) = Some (py_str (cell r0 "eventId")).
Proof.
  intros Hrows Hcol. pose proof (keys_as_str_event_id D Hcol) as Hcells.
  rewrite Hrows in Hcells.
  destruct (rows (keys_as_str D)) as [|k0 ks] eqn:Hk; [done|].
  injection Hcells as Hk0 _.
  unfold first_event_id, in_columns.
  rewrite keys_as_str_columns, bool_decide_true, Hk by done.
  cbn [existsb]. rewrite Hk0. cbn [isna negb orb andb].
  rewrite filter_cons, decide_True by (by rewrite Hk0). cbn. by rewrite Hk0.
Qed.


(** X21. When the lineup files hold their event ids as numbers, as [read_csv]
    gives them, the position step finds no lineup, for it asks for the id
    as text: the merge returns the statistics joined with the players and
    the teams, and no position. *)
Theorem merge_adds_no_position_for_numeric_lineup_ids D st players teams r0 rs y lc L :
  cache_wf st →
  rows D = r0 :: rs → "eventId" ∈ columns D →
  base_table st "players" = Some players →
  base_table st "teams" = Some teams →
  (_derive_season_league_code (PStr (py_str (cell r0 "eventId"))) st).1 = Ok (y, lc) →
  (_load_files_by_pattern "lineup_data" (partition_prefix "lineup" y lc) st).1 = Ok L →
  "eventId" ∈ columns L →
  (∀ r, r ∈ rows L → ∀ t, cell r "eventId" ≠ PStr t) →
  (merge_player_stats D st).1
  = (out ← join_players (keys_as_str D) players; join_teams out teams).
Proof.
  intros Hwf Hrows HcolD HP HT Hres Hload Hcol Hnum.
  pose proof (first_event_id_keys D r0 rs Hrows HcolD) as Hev.
  set (eid := py_str (cell r0 "eventId")) in *.
  assert (df_empty D = false) as Hne.
  { unfold df_empty. rewrite Hrows.
    rewrite (bool_decide_false (_ :: _ = [])) by done.
    rewrite bool_decide_false; [done|]. intros E. rewrite E in HcolD.
    by apply not_elem_of_nil in HcolD. }
  pose proof (merge_player_stats_run D st Hwf Hne) as Hrun. cbn zeta in Hrun.
  rewrite HP, HT, Hev in Hrun.
  destruct (join_players (keys_as_str D) players) as [out1|]; [|done].
  cbn [mbind result_bind].
  destruct (join_teams out1 teams) as [out2|]; [|done].
  case_bool_decide; [done|].
  destruct (base_table st "fixtures") as [fx|] eqn:Hfx.
  2:{ exfalso. destruct (derive_run (PStr eid) st Hwf) as (s1 & _ & Hd & Hno).
      rewrite Hd, Hfx in Hres. cbn in Hres. specialize (Hno Hfx).
      by destruct ((fixtures st).1). }
  rewrite Hrun. unfold lineup_for_event.
  rewrite detail_parts, Hres by done. cbn. rewrite Hload. cbn.
  assert (df_empty (if negb (df_empty L) && in_columns "eventId" L
                    then filter_eq L "eventId" (PStr eid) else L) = true) as Hempty.
  { destruct (df_empty L) eqn:HL; [done|]. unfold in_columns.
    rewrite bool_decide_true by done. cbn.
    unfold filter_eq, df_empty. cbn.
    rewrite (filter_other_kind (PStr eid)) by done.
    by rewrite orb_true_r. }
  unfold join_position. by rewrite Hempty.
Qed.

End JoinsMore.


(** ** The quality probe *)

Section ProbeProperties.
Context `{!Library}.

(** An accessor after other accessors: the state it leaves is as good as
    the one it found, and on an instance whose fixtures load its result is
    the one it gives on the instance as it was at first. *)
Lemma detail_step subfolder stem event_id st0 st :
  cache_wf st0 → stable st0 st →
  is_Some (base_table st0 "fixtures") →
  ∃ st', stable st0 st'
    ∧ detail_for_event subfolder stem event_id st
      = ((detail_for_event subfolder stem event_id st0).1, st').
Proof.
  intros Hwf0 Hst Hfx.
  destruct (detail_run subfolder stem event_id st (proj1 Hst)) as (st' & Hst' & Hrun & _).
  exists st'. split; [by eapply stable_trans|].
  rewrite <-(detail_result_stable subfolder stem event_id st0 st) by done.
  by rewrite Hrun.
Qed.

(** The probe in terms of the four accessors, each run on the instance as
    it is before the probe. *)
Lemma probe_run eid st :
  cache_wf st →
  let c := (commentary_for_event eid st).1 in
  let k := (key_events_for_event eid st).1 in
  let l := (lineup_for_event eid st).1 in
  let p := (player_stats_for_event eid st).1 in
  (∀ why, c ≠ Raise (OutsideModel why) ∧ k ≠ Raise (OutsideModel why)
          ∧ l ≠ Raise (OutsideModel why) ∧ p ≠ Raise (OutsideModel why)) →
  (probe eid st).1
  = match c, k, l, p with
    | Ok c, Ok k, Ok l, Ok p => Ok (eid, has_rows c, has_rows k, has_rows l, has_rows p)
    | _, _, _, _ => Ok (eid, false, false, false, false)
    end.
Proof.
  intros Hwf c k l p Hmodel.
  assert (∀ e : exn, (∀ why, e ≠ OutsideModel why) →
            ∀ st' : repo,
              (match e with
               | OutsideModel why => (Raise (OutsideModel why), st')
               | _ => (Ok (eid, false, false, false, false), st')
               end : result (pyval * bool * bool * bool * bool) * repo).1
              = Ok (eid, false, false, false, false)) as Hcaught.
  { intros e He st'. destruct e; try done. by destruct (He why). }
  unfold probe, commentary_for_event, key_events_for_event, lineup_for_event,
    player_stats_for_event in *.
  destruct (base_table st "fixtures") as [fx|] eqn:Hfx.
  2:{ pose proof (detail_raises_without_fixtures "commentary_data" "commentary" eid st
                    Hwf Hfx) as Hc.
      fold c in Hc. rewrite M_bind_run.
      destruct (detail_for_event "commentary_data" "commentary" eid st)
        as [[dc|e] s1] eqn:E; [done|].
      subst c. cbn in *. rewrite Hcaught; [done|].
      intros why ->. by destruct (Hmodel why) as (? & _). }
  assert (is_Some (base_table st "fixtures")) as Hsome by by eexists.
  destruct (detail_step "commentary_data" "commentary" eid st st Hwf
              (stable_refl st Hwf) Hsome) as (s1 & Hs1 & E1).
  rewrite M_bind_run, E1. fold c.
  destruct c as [dc|e] eqn:Ec.
  2:{ rewrite Hcaught; [done|]. intros why ->. by destruct (Hmodel why) as (? & _). }
  destruct (detail_step "keyEvents_data" "keyEvents" eid st s1 Hwf Hs1 Hsome)
    as (s2 & Hs2 & E2).
  rewrite M_bind_run, E2. fold k.
  destruct k as [dk|e] eqn:Ek.
  2:{ rewrite Hcaught; [done|].
      intros why ->. by destruct (Hmodel why) as (_ & ? & _). }
  destruct (detail_step "lineup_data" "lineup" eid st s2 Hwf Hs2 Hsome)
    as (s3 & Hs3 & E3).
  rewrite M_bind_run, E3. fold l.
  destruct l as [dl|e] eqn:El.
  2:{ rewrite Hcaught; [done|].
      intros why ->. by destruct (Hmodel why) as (_ & _ & ? & _). }
  destruct (detail_step "playerStats_data" "playerStats" eid st s3 Hwf Hs3 Hsome)
    as (s4 & Hs4 & E4).
  rewrite M_bind_run, E4. fold p.
  destruct p as [dp|e] eqn:Ep; [done|].
  rewrite Hcaught; [done|].
  intros why ->. by destruct (Hmodel why) as (_ & _ & _ & ?).
Qed.

(** X22. The row of flags the probe makes for an id: when the four accessors
    return, whether each returned rows; and the row with every flag off as
    soon as one of them raises, whatever the others returned. *)
Theorem probe_all_or_nothing eid st :
  cache_wf st →
  let c := (commentary_for_event eid st).1 in
  let k := (key_events_for_event eid st).1 in
  let l := (lineup_for_event eid st).1 in
  let p := (player_stats_for_event eid st).1 in
  (∀ why, c ≠ Raise (OutsideModel why) ∧ k ≠ Raise (OutsideModel why)
          ∧ l ≠ Raise (OutsideModel why) ∧ p ≠ Raise (OutsideModel why)) →
  (probe eid st).1
  = match c, k, l, p with
    | Ok c, Ok k, Ok l, Ok p => Ok (eid, has_rows c, has_rows k, has_rows l, has_rows p)
    | _, _, _, _ => Ok (eid, false, false, false, false)
    end.
Proof. apply probe_run. Qed.

(** X23. The probe passes the ids as text. For an id that resolves, when the
    partitions of the four accessors load and hold their event ids as
    numbers, as [read_csv] gives them, the probe reports that the event has
    no commentary, no key events, no lineup and no statistics, whatever the
    partitions hold. *)
Theorem probe_reports_nothing_for_text_ids (s : string) st y lc :
  cache_wf st →
  (_derive_season_league_code (PStr s) st).1 = Ok (y, lc) →
  Forall (λ '(subfolder, stem),
      ∃ df, (_load_files_by_pattern subfolder (partition_prefix stem y lc) st).1 = Ok df
            ∧ "eventId" ∈ columns df
            ∧ ∀ r, r ∈ rows df → ∀ t, cell r "eventId" ≠ PStr t)
    [("commentary_data", "commentary"); ("keyEvents_data", "keyEvents");
     ("lineup_data", "lineup"); ("playerStats_data", "playerStats")]%string →
  (probe (PStr s) st).1 = Ok (PStr s, false, false, false, false).
Proof.
  intros Hwf Hres Hparts.
  assert (∀ subfolder stem,
    (∃ df, (_load_files_by_pattern subfolder (partition_prefix stem y lc) st).1 = Ok df
           ∧ "eventId" ∈ columns df
           ∧ ∀ r, r ∈ rows df → ∀ t, cell r "eventId" ≠ PStr t) →
    ∃ cols, (detail_for_event subfolder stem (PStr s) st).1 = Ok (mkDF cols []))
    as Hnone.
  { intros subfolder stem (df & Hload & Hcol & Hnum). exists (columns df).
    by apply (detail_other_kind subfolder stem (PStr s) st y lc df). }
  apply Forall_cons in Hparts as [(cc & Hc)%Hnone Hparts].
  apply Forall_cons in Hparts as [(ck & Hk)%Hnone Hparts].
  apply Forall_cons in Hparts as [(cl & Hl)%Hnone Hparts].
  apply Forall_cons in Hparts as [(cp & Hp)%Hnone _].
  rewrite probe_run by
    (try done; unfold commentary_for_event, key_events_for_event, lineup_for_event,
       player_stats_for_event; rewrite Hc, Hk, Hl, Hp; done).
  unfold commentary_for_event, key_events_for_event, lineup_for_event,
    player_stats_for_event. rewrite Hc, Hk, Hl, Hp.
  unfold has_rows, df_empty. cbn. by rewrite !orb_true_r.
Qed.

(** X24. The ids the probe samples are found: the text of a cell of the id
    column the caller picks, a cell that holds text or an integer of
    magnitude below 2^53, is an id the resolver finds a row for. *)
Theorem sampled_id_is_found fx c r :
  pick fx id_candidates = Some c →
  r ∈ rows fx →
  (∃ s, cell r c = PStr s) ∨ (∃ z, cell r c = PInt z ∧ Z.abs z < 2 ^ 53) →
  is_Some (find_event_row fx (_id_str (PStr (py_str (cell r c))))
             (filter (λ c, c ∈ columns fx) id_candidates)).
Proof.
  intros Hpick Hr Hcell.
  assert (_id_str (PStr (py_str (cell r c))) = _id_str (cell r c)) as ->.
  { destruct Hcell as [[s ->]|(z & -> & Hz)]; [done|].
    destruct (id_str_integer z Hz) as (H1 & H2 & _). cbn [py_str]. congruence. }
  destruct (find_event_row fx _ _) as [row|] eqn:Hfind; [by eexists|].
  exfalso. rewrite find_event_row_None in Hfind.
  apply (Hfind c r); [|done..].
  unfold pick in Hpick. by apply head_Some_elem_of in Hpick.
Qed.

End ProbeProperties.


(** ** The normal form of league names *)

Lemma replace_all_chars (chs : list ascii) (s : list ascii) :
  foldl (λ s ch, replace_by_space ch s) s chs
  = (λ c, foldl (λ c ch, if Ascii.eqb c ch then " "%char else c) c chs) <$> s.
Proof.
  revert s. induction chs as [|ch chs IH]; intros s; cbn [foldl].
  - by rewrite list_fmap_id.
  - rewrite IH. unfold replace_by_space. by rewrite <-list_fmap_compose.
Qed.

Lemma lower_chars (l : list ascii) :
  list_ascii_of_string (lower (string_of_list_ascii l)) = ascii_lower <$> l.
Proof. induction l as [|c l IH]; [done|]. cbn. by rewrite IH. Qed.

(** [norm] character by character. *)
Lemma norm_text_chars s :
  norm_text s
  = if forallb is_ascii (list_ascii_of_string s) then
      Ok (string_of_list_ascii
            (join_space (split_ws (norm_char <$> list_ascii_of_string s) [])))
    else Raise (OutsideModel "text that is not ASCII").
Proof.
  unfold norm_text. destruct (forallb _ _); [|done].
  by rewrite replace_all_chars, lower_chars, <-list_fmap_compose.
Qed.

(** A character of the text [norm] splits is ASCII and is changed by no
    replacement and not by [lower]; it is no separator. *)
Lemma norm_char_fixed c :
  is_ascii c = true →
  is_ascii (norm_char c) = true
  ∧ norm_char (norm_char c) = norm_char c
  ∧ ascii_lower (norm_char c) = norm_char c
  ∧ norm_char c ∉ norm_separators.
Proof.
  destruct c as [[|] [|] [|] [|] [|] [|] [|] [|]]; intros Ha;
    try discriminate Ha;
    (split_and!; [reflexivity..|]);
    (intros Hin; repeat (apply elem_of_cons in Hin as [Hin|Hin]; [discriminate Hin|]);
     by apply not_elem_of_nil in Hin).
Qed.

Lemma space_is_norm_char : norm_char " " = " "%char ∧ is_ascii " " = true.
Proof. done. Qed.

Lemma split_ws_words s acc :
  Forall (λ c, py_isspace c = false) acc →
  Forall is_word (split_ws s acc).
Proof.
  revert acc. induction s as [|c s IH]; intros acc Hacc; cbn [split_ws].
  - destruct acc; [constructor|]. constructor; [done|constructor].
  - destruct (py_isspace c) eqn:Hc.
    + destruct acc as [|a acc']; [by apply IH|].
      constructor; [done|by apply IH].
    + apply IH. apply Forall_app. by repeat constructor.
Qed.

Lemma split_ws_chars s acc w c :
  w ∈ split_ws s acc → c ∈ w → c ∈ acc ∨ c ∈ s.
Proof.
  revert acc. induction s as [|a s IH]; intros acc; cbn [split_ws].
  - destruct acc as [|a0 acc']; [by intros ?%not_elem_of_nil|].
    intros ->%list_elem_of_singleton. auto.
  - destruct (py_isspace a).
    + destruct acc as [|a0 acc'].
      * intros Hw Hc. destruct (IH [] Hw Hc) as [?%not_elem_of_nil|?]; [done|].
        right. by right.
      * intros [->|Hw]%elem_of_cons Hc; [by left|].
        destruct (IH [] Hw Hc) as [?%not_elem_of_nil|?]; [done|]. right. by right.
    + intros Hw Hc. destruct (IH _ Hw Hc) as [[?|Hin]%elem_of_app|?].
      * by left.
      * apply list_elem_of_singleton in Hin as ->. right. by left.
      * right. by right.
Qed.

Lemma split_ws_word_first w rest acc :
  Forall (λ c, py_isspace c = false) w →
  split_ws (w ++ rest) acc = split_ws rest (acc ++ w).
Proof.
  revert acc. induction w as [|c w IH]; intros acc Hw.
  - by rewrite app_nil_r.
  - apply Forall_cons in Hw as [Hc Hw]. cbn [app split_ws]. rewrite Hc.
    rewrite IH by done. by rewrite <-app_assoc.
Qed.

(** Round trip: the words joined, split again. *)
Lemma split_join words :
  Forall is_word words → split_ws (join_space words) [] = words.
Proof.
  induction 1 as [|w ws [Hne Hw] Hws IH]; [done|].
  destruct ws as [|w' ws'].
  - cbn [join_space]. rewrite <-(app_nil_r w), split_ws_word_first by done.
    cbn. rewrite app_nil_r. destruct w; [by destruct Hne|done].
  - change (join_space (w :: w' :: ws')) with (w ++ " "%char :: join_space (w' :: ws')).
    rewrite split_ws_word_first by done. cbn [app split_ws].
    change (py_isspace " ") with true. cbn iota. rewrite IH.
    destruct w; [by destruct Hne|done].
Qed.

Lemma join_space_chars words c :
  c ∈ join_space words → c = " "%char ∨ ∃ w, w ∈ words ∧ c ∈ w.
Proof.
  induction words as [|w ws IH]; [by intros ?%not_elem_of_nil|].
  destruct ws as [|w' ws'].
  - cbn. intros Hc. right. exists w. split; [apply list_elem_of_here|done].
  - change (join_space (w :: w' :: ws')) with (w ++ " "%char :: join_space (w' :: ws')).
    intros [Hc|[->|Hc]%elem_of_cons]%elem_of_app.
    + right. exists w. split; [apply list_elem_of_here|done].
    + by left.
    + destruct (IH Hc) as [->|(w0 & Hw0 & Hc0)]; [by left|].
      right. exists w0. split; [by apply list_elem_of_further|done].
Qed.

Section NormalForm.
Context `{!Library}.

(** X25. [norm] gives a normal form: what it returns is ASCII words in lower
    case with none of the separators in them, joined by single spaces, and
    [norm] leaves it as it is. *)
Theorem norm_is_idempotent x t :
  norm x = Ok t →
  norm (PStr t) = Ok t
  ∧ ∃ words,
      list_ascii_of_string t = join_space words
      ∧ Forall (λ w, is_word w
                     ∧ Forall (λ c, is_ascii c = true ∧ ascii_lower c = c
                                    ∧ c ∉ norm_separators) w) words.
Proof.
  unfold norm. cbn [py_str]. rewrite !norm_text_chars.
  destruct (forallb is_ascii (list_ascii_of_string (py_str x))) eqn:Hascii; [|done].
  intros [= <-]. rewrite list_ascii_of_string_of_list_ascii.
  set (s := list_ascii_of_string (py_str x)) in *.
  set (words := split_ws (norm_char <$> s) []).
  assert (Forall is_word words) as Hwords by by apply split_ws_words.
  assert (∀ w c, w ∈ words → c ∈ w → ∃ c0, is_ascii c0 = true ∧ c = norm_char c0)
    as Himage.
  { intros w c Hw Hc.
    destruct (split_ws_chars _ _ _ _ Hw Hc) as [?%not_elem_of_nil|Hin]; [done|].
    apply list_elem_of_fmap in Hin as (c0 & -> & Hc0). exists c0. split; [|done].
    rewrite forallb_forall in Hascii. apply Hascii. by apply list_elem_of_In. }
  assert (∀ c, c ∈ join_space words →
            is_ascii c = true ∧ norm_char c = c) as Hfixed.
  { intros c [->|(w & Hw & Hc)]%join_space_chars; [done|].
    destruct (Himage w c Hw Hc) as (c0 & Hc0 & ->).
    by destruct (norm_char_fixed c0 Hc0) as (? & ? & _). }
  split.
  - assert (forallb is_ascii (join_space words) = true) as ->.
    { apply forallb_forall. intros c Hc%list_elem_of_In. by apply Hfixed. }
    assert (norm_char <$> join_space words = join_space words) as ->.
    { rewrite <-(list_fmap_id (join_space words)) at 2.
      apply list_fmap_ext. intros _ c Hc%list_elem_of_lookup_2. by apply Hfixed. }
    by rewrite split_join.
  - exists words. split; [done|].
    apply Forall_forall. intros w Hw. split.
    + by eapply Forall_forall in Hwords.
    + apply Forall_forall. intros c Hc.
      destruct (Himage w c Hw Hc) as (c0 & Hc0 & ->).
      by destruct (norm_char_fixed c0 Hc0) as (? & _ & ? & ?).
Qed.

End NormalForm.


(* ================================================================= *)
(** * The sample dataset: examples, witnesses and counterexamples *)

#[local] Existing Instance sample_library.

Lemma new_repo_wf fs ac : cache_wf (mkRepo fs ac ∅ [] 0%nat).
Proof. intros name l Hl. cbn in Hl. by rewrite lookup_empty in Hl. Defined.

Example resolve_sample :
  (_derive_season_league_code (PStr "100") sample_repo).1
  = Ok (2024, Some "ITA.1"%string).
Proof. vm_compute. reflexivity. Qed.



(** C2. The statistics name match 999, which the fixtures do not have: the
    resolver's [KeyError] comes out of [merge_player_stats]. *)
Theorem merge_raises_on_unknown_event :
  df_empty sample_stats_unknown_event = false
  ∧ first_event_id (keys_as_str sample_stats_unknown_event) = Some "999"%string
  ∧ (lineup_for_event (PStr "999") sample_repo_unique).1
    = Raise (KeyError (EventNotInFixtures (PStr "999")))
  ∧ (merge_player_stats sample_stats_unknown_event sample_repo_unique).1
    = Raise (KeyError (EventNotInFixtures (PStr "999")))
  ∧ (merge_player_stats sample_stats sample_repo_unique).1
    = Ok (mkDF ["athleteId"; "eventId"; "goals"; "playerName"; "teamName"]%string
            [record [("athleteId", PStr "7"); ("eventId", PStr "100");
                     ("goals", PInt 2); ("playerName", PStr "A. Rossi");
                     ("teamName", PStr "Torino")]%string]).
Proof. vm_compute. auto 6. Qed.

(** C3, as stated, fails: the two files of the plays folder, listed one way
    and the other, give the two rows in two orders. *)
Lemma load_depends_on_order :
  sample_plays_entries ≡ₚ reverse sample_plays_entries
  ∧ (_load_files_by_pattern "plays_data" "plays_2024_ITA.1" sample_repo).1
    ≠ (_load_files_by_pattern "plays_data" "plays_2024_ITA.1"
         (with_folder "plays_data" (reverse sample_plays_entries) sample_repo)).1.
Proof.
  split; [apply Permutation_swap|].
  intros Heq.
  apply (f_equal (λ r, (λ row, cell row "playId") <$> rows (frame_of r))) in Heq.
  vm_compute in Heq. discriminate.
Qed.

Lemma load_order_permutes_witness :
  let st := sample_repo in
  let df := frame_of (_load_files_by_pattern "plays_data" "plays_2024_ITA.1" st).1 in
  (∀ st', folders (root_dir st') !! "plays_data"%string = Some sample_plays_entries →
     (_load_files_by_pattern "plays_data" "plays_2024_ITA.1" st').1 = Ok df)
  ∧ ∃ df',
      (_load_files_by_pattern "plays_data" "plays_2024_ITA.1"
         (with_folder "plays_data" (reverse sample_plays_entries) st)).1 = Ok df'
      ∧ rows df' ≡ₚ rows df
      ∧ columns df' ≡ₚ columns df.
Proof.
  intros st df.
  apply (load_order_permutes "plays_data" "plays_2024_ITA.1" st
           sample_plays_entries (reverse sample_plays_entries) df).
  - vm_compute. reflexivity.
  - apply Permutation_swap.
  - vm_compute. reflexivity.
Defined.

(** C4. The fixtures hold match 100 and the commentary file holds the ids
    100 and 200 as numbers, as [pd.read_csv] reads them. The resolver finds
    the partition of the text "100"; the accessor, asked for the text "100",
    returns no row, and asked for the number 100 returns the one row. *)
Theorem commentary_for_text_id_is_empty :
  (_derive_season_league_code (PStr "100") sample_repo).1
  = Ok (2024, Some "ITA.1"%string)
  ∧ (_load_files_by_pattern "commentary_data" "commentary_2024_ITA.1" sample_repo).1
    = Ok sample_commentary
  ∧ (commentary_for_event (PStr "100") sample_repo).1
    = Ok (mkDF ["eventId"; "text"]%string [])
  ∧ (commentary_for_event (PInt 100) sample_repo).1
    = Ok (mkDF ["eventId"; "text"]%string
            [record [("eventId", PInt 100); ("text", PStr "Kick off")]%string]).
Proof. vm_compute. auto. Qed.




Lemma cached_load_repeats_witness :
  let st := sample_repo in
  let st1 := (_load_base_table "teams" st).2 in
  let st2 := set_root_dir sample_disk_without_teams
               (set_heap (alter drop_rows 1%nat) st1) in
  heap st2 !! 1%nat = Some (drop_rows sample_teams)
  ∧ ∃ l2 st3 df,
      _load_base_table "teams" st2 = (Ok l2, st3)
      ∧ io_count st3 = io_count st2
      ∧ root_dir st3 = root_dir st2
      ∧ heap st1 !! 1%nat = Some df
      ∧ heap st3 !! l2 = Some df.
Proof.
  intros st st1 st2. split; [vm_compute; reflexivity|].
  apply (cached_load_repeats "teams" st ∅ 1%nat st1 st2 ({[1%nat]} ∪ ∅)).
  - apply new_repo_wf.
  - reflexivity.
  - intros l Hl. by apply not_elem_of_empty in Hl.
  - intros n lc _. apply not_elem_of_empty.
  - vm_compute. reflexivity.
  - eapply rtc_l; [apply (step_mutate 1%nat drop_rows); apply elem_of_union_l,
                     elem_of_singleton; reflexivity|].
    eapply rtc_l; [apply (step_disk sample_disk_without_teams)|].
    apply rtc_refl.
Defined.

Lemma load_no_match_is_empty_witness :
  _load_files_by_pattern "plays_data" "plays_1999_ITA.1" sample_repo
  = (Ok empty_frame, sample_repo)
  ∧ n_rows empty_frame = 0%nat.
Proof.
  apply (load_no_match_is_empty "plays_data" "plays_1999_ITA.1" sample_repo
           sample_plays_entries).
  - vm_compute. reflexivity.
  - repeat constructor.
Defined.

Lemma load_skips_other_names_witness :
  let st := sample_repo in
  let archive := zip_file [("README.md"%string, Raise (ParserError "not a table"));
                           ("events.csv"%string, Ok sample_plays_a)] in
  (_load_files_by_pattern "keyEvents_data" "keyEvents_2024" st).1
  = (_load_files_by_pattern "keyEvents_data" "keyEvents_2024"
       (with_folder "keyEvents_data" [("keyEvents_2024_ITA.1.zip"%string, archive)] st)).1
  ∧ (_load_files_by_pattern "keyEvents_data" "keyEvents_2024" st).1
    = (_load_files_by_pattern "keyEvents_data" "keyEvents_2024"
         (with_folder "keyEvents_data"
            [("keyEvents_2024_ITA.1.txt"%string, other_file);
             ("keyEvents_2024_ITA.1.zip"%string,
              mkFile (as_csv archive) (Ok [("events.csv"%string, Ok sample_plays_a)]))]
            st)).1
  ∧ (_load_files_by_pattern "keyEvents_data" "keyEvents_2024" st).1
    = Ok sample_plays_a.
Proof.
  intros st archive.
  destruct (load_skips_other_names "keyEvents_data" "keyEvents_2024" st)
    as [Hentry Hmember].
  split_and!.
  - apply (Hentry [] "keyEvents_2024_ITA.1.txt"%string other_file
             [("keyEvents_2024_ITA.1.zip"%string, archive)]);
      vm_compute; reflexivity.
  - apply (Hmember [("keyEvents_2024_ITA.1.txt"%string, other_file)]
             "keyEvents_2024_ITA.1.zip"%string archive []
             [] "README.md"%string (Raise (ParserError "not a table"))
             [("events.csv"%string, Ok sample_plays_a)]);
      vm_compute; reflexivity.
  - vm_compute. reflexivity.
Defined.


(** ** The further properties on the sample dataset *)

#[local] Existing Instance sample_library.

(** Decidable facts about the sample data, by evaluation. *)
Ltac by_eval :=
  match goal with
  | |- ?P => refine (bool_decide_unpack P _); vm_compute; exact I
  end.

Lemma list_events_league_code_form_witness :
  list_events (PStr "ITA.1") PNone sample_repo_calendar
  = list_events (PStr "ita1") PNone sample_repo_calendar
  ∧ (list_events (PStr "ita1") PNone sample_repo_calendar).1
    = Ok [PInt 100; PInt 102].
Proof.
  split; [|vm_compute; reflexivity].
  apply (list_events_league_code_form "ITA.1" "ita1" PNone sample_repo_calendar).
  - discriminate.
  - discriminate.
  - left. vm_compute. reflexivity.
Defined.

Lemma list_events_raises_witness :
  (list_events PNone PNone sample_repo).1 = Raise (KeyError (MissingLabel "eventId"))
  ∧ (list_events (PInt 5) PNone sample_repo).1 = Raise TypeError
  ∧ is_ok (list_events (PStr "ita.1") (PInt 2024) sample_repo_calendar).1 = true.
Proof.
  split_and!.
  - apply (list_events_raises PNone PNone sample_repo sample_fixtures).
    + apply new_repo_wf.
    + vm_compute. reflexivity.
    + left. reflexivity.
    + by_eval.
  - apply (list_events_raises (PInt 5) PNone sample_repo sample_fixtures).
    + apply new_repo_wf.
    + vm_compute. reflexivity.
    + reflexivity.
    + discriminate.
  - apply (list_events_raises (PStr "ita.1") (PInt 2024) sample_repo_calendar
             sample_calendar).
    + apply new_repo_wf.
    + vm_compute. reflexivity.
    + right. by eexists.
    + by_eval.
Defined.

Lemma list_events_filters_only_remove_witness :
  (list_events (PStr "") (PInt 0) sample_repo_calendar).1
  = Ok [PInt 100; PInt 101; PInt 102]
  ∧ (list_events (PStr "ita.1") (PInt 2024) sample_repo_calendar).1 = Ok [PInt 100]
  ∧ sublist [PInt 100] [PInt 100; PInt 101; PInt 102].
Proof.
  destruct (list_events_filters_only_remove sample_repo_calendar sample_calendar)
    as [Hall Hsub].
  - apply new_repo_wf.
  - vm_compute. reflexivity.
  - by_eval.
  - split_and!.
    + apply (Hall (PStr "") (PInt 0)); reflexivity.
    + vm_compute. reflexivity.
    + apply (Hsub (PStr "ita.1") (PInt 2024)). vm_compute. reflexivity.
Defined.

Lemma list_events_season_is_text_witness :
  list_events PNone (PInt 2024) sample_repo_calendar
  = list_events PNone (PStr (pretty 2024)) sample_repo_calendar
  ∧ (list_events PNone (PStr "2024-2025") sample_repo_calendar).1 = Ok [].
Proof.
  destruct (list_events_season_is_text PNone sample_repo_calendar sample_calendar)
    as [Hnum Hnone].
  - apply new_repo_wf.
  - vm_compute. reflexivity.
  - split.
    + apply (Hnum 2024). discriminate.
    + assert (∃ out, (list_events PNone (PStr "2024-2025") sample_repo_calendar).1 = Ok out)
        as [out Hout] by (eexists; vm_compute; reflexivity).
      rewrite Hout. f_equal.
      apply (Hnone (PStr "2024-2025") out); [reflexivity| |exact Hout].
      intros r Hr. cbn in Hr.
      repeat (apply elem_of_cons in Hr as [->|Hr]; [vm_compute; discriminate|]).
      by apply not_elem_of_nil in Hr.
Defined.

Lemma listed_event_resolves_to_season_witness :
  (list_events (PStr "ita.1") (PInt 2024) sample_repo_calendar).1 = Ok [PInt 100]
  ∧ fst <$> (_derive_season_league_code (PInt 100) sample_repo_calendar).1 = Ok 2024.
Proof.
  split; [vm_compute; reflexivity|].
  apply (listed_event_resolves_to_season sample_repo_calendar sample_calendar 2024%N
           (PStr "ita.1") (PInt 2024) [PInt 100] (PInt 100)).
  - apply new_repo_wf.
  - vm_compute. reflexivity.
  - by_eval.
  - by_eval.
  - by_eval.
  - by_eval.
  - exists "leagueId"%string, (record [("eventId", PInt 100); ("season", PInt 2024);
                                      ("leagueId", PStr "ita.1")]%string).
    split_and!; [by_eval|by_eval|vm_compute; reflexivity].
  - reflexivity.
  - vm_compute. reflexivity.
  - vm_compute. reflexivity.
  - by_eval.
Defined.


Lemma accessor_text_and_number_never_meet_witness :
  (commentary_for_event (PStr "100") sample_repo).1
  = Ok (mkDF ["eventId"; "text"]%string []).
Proof.
  apply (accessor_text_and_number_never_meet "commentary_data" "commentary" (PStr "100")
           sample_repo 2024 (Some "ITA.1"%string)
           (frame_of (_load_files_by_pattern "commentary_data"
                        "commentary_2024_ITA.1" sample_repo).1)).
  - apply new_repo_wf.
  - vm_compute. reflexivity.
  - vm_compute. reflexivity.
  - by_eval.
  - intros r Hr. vm_compute in Hr.
    repeat (apply elem_of_cons in Hr as [->|Hr]; [intros t; vm_compute; discriminate|]).
    by apply not_elem_of_nil in Hr.
Defined.

Lemma accessor_raises_like_its_parts_witness :
  (commentary_for_event (PStr "999") sample_repo).1
  = Raise (KeyError (EventNotInFixtures (PStr "999")))
  ∧ (commentary_for_event (PInt 100) sample_repo_calendar).1
    = Raise (FileNotFoundError "commentary_data").
Proof.
  split.
  - pose proof (accessor_raises_like_its_parts "commentary_data" "commentary"
                  (PStr "999") sample_repo (new_repo_wf _ _)) as Hparts.
    cbn zeta in Hparts.
    change ((_derive_season_league_code (PStr "999") sample_repo).1)
      with (@Raise (Z * option string) (KeyError (EventNotInFixtures (PStr "999"))))
      in Hparts.
    exact Hparts.
  - pose proof (accessor_raises_like_its_parts "commentary_data" "commentary"
                  (PInt 100) sample_repo_calendar (new_repo_wf _ _)) as Hparts.
    cbn zeta in Hparts.
    change ((_derive_season_league_code (PInt 100) sample_repo_calendar).1)
      with (@Ok (Z * option string) (2024, Some "ita.1"%string)) in Hparts.
    cbn iota in Hparts. destruct Hparts as [Hmissing _].
    apply Hmissing. reflexivity.
Defined.

Lemma fixtures_loaded_wf : cache_wf (fixtures sample_repo).2.
Proof.
  destruct (load_base_table_run "fixtures" sample_repo
              (fixtures sample_repo).1 (fixtures sample_repo).2 (new_repo_wf _ _))
    as [(Hwf & _) _]; [apply surjective_pairing|exact Hwf].
Defined.

Lemma accessor_reads_its_folder_only_witness :
  let st := (fixtures sample_repo).2 in
  base_data sample_disk_without_teams ≠ base_data (root_dir st)
  ∧ (commentary_for_event (PInt 100) (set_root_dir sample_disk_without_teams st)).1
    = (commentary_for_event (PInt 100) st).1.
Proof.
  intros st. split.
  - intros Heq. apply (f_equal (λ m, m !! "teams.csv"%string)) in Heq.
    vm_compute in Heq. discriminate.
  - apply (accessor_reads_its_folder_only "commentary_data" "commentary" (PInt 100)
             st 0%nat sample_disk_without_teams).
    + apply fixtures_loaded_wf.
    + vm_compute. reflexivity.
    + vm_compute. reflexivity.
Defined.


Lemma league_code_precedence_witness :
  (_derive_season_league_code (PInt 100) sample_repo).1 = Ok (2024, Some "ITA.1"%string)
  ∧ ("leagueId"%string ∈ columns sample_fixtures →
       Some "ITA.1"%string
       = Some (py_str (cell (record [("id", PInt 100); ("season", PStr "2024-2025");
                                     ("leagueId", PStr "ITA.1")]%string) "leagueId"))).
Proof.
  split; [vm_compute; reflexivity|].
  apply (league_code_precedence (PInt 100) sample_repo sample_fixtures
           (record [("id", PInt 100); ("season", PStr "2024-2025");
                    ("leagueId", PStr "ITA.1")]%string) 2024 (Some "ITA.1"%string)).
  - apply new_repo_wf.
  - vm_compute. reflexivity.
  - vm_compute. reflexivity.
  - vm_compute. reflexivity.
Defined.

Lemma load_keeps_every_row_witness :
  let df := frame_of (_load_files_by_pattern "plays_data" "plays_2024" sample_repo).1 in
  let frames :=
    sample_plays_entries ≫= λ e, frames_or_nil (entry_frames "plays_2024" e) in
  frames = [sample_plays_a; sample_plays_b]
  ∧ n_rows df = sum_list (n_rows <$> frames)
  ∧ NoDup (columns df)
  ∧ (∀ c, c ∈ columns df ↔ ∃ f, f ∈ frames ∧ c ∈ columns f)
  ∧ (∀ i r, concat (rows <$> frames) !! i = Some r →
       ∃ r', rows df !! i = Some r'
         ∧ ∀ c, c ∈ columns df →
             cell r' c = cell r c ∨ cell r' c = to_float_cell (cell r c)).
Proof.
  intros df frames. split; [vm_compute; reflexivity|].
  apply (load_keeps_every_row "plays_data" "plays_2024" sample_repo
           sample_plays_entries df).
  - vm_compute. reflexivity.
  - vm_compute. reflexivity.
Defined.

Lemma load_fails_on_first_bad_file_witness :
  _load_files_by_pattern "plays_data" "plays_2024"
    (with_folder "plays_data" sample_bad_entries sample_repo)
  = (Raise (ParserError "not a table"),
     with_folder "plays_data" sample_bad_entries sample_repo).
Proof.
  apply (load_fails_on_first_bad_file "plays_data" "plays_2024"
           (with_folder "plays_data" sample_bad_entries sample_repo)
           [("plays_2024_ITA.1_a.csv"%string, csv_file sample_plays_a)]
           "plays_2024_ITA.1_b.csv" other_file [] (ParserError "not a table")).
  - vm_compute. reflexivity.
  - constructor; [vm_compute; reflexivity|constructor].
  - vm_compute. reflexivity.
  - left. split; vm_compute; reflexivity.
Defined.

Lemma load_sees_names_through_tests_witness :
  (_load_files_by_pattern "plays_data" "plays_2024"
     (with_folder "plays_data" sample_plays_entries_upper sample_repo)).1
  = (_load_files_by_pattern "plays_data" "plays_2024" sample_repo).1.
Proof.
  apply (load_sees_names_through_tests "plays_data" "plays_2024" sample_repo
           sample_plays_entries sample_plays_entries_upper).
  - vm_compute. reflexivity.
  - repeat (constructor; [split_and!; vm_compute; reflexivity|]). constructor.
Defined.

Lemma failed_load_changes_nothing_witness :
  let st := sample_repo in
  let st' := (_load_base_table "venues" st).2 in
  (_load_base_table "venues" st).1 = Raise (FileNotFoundError "venues.csv")
  ∧ _cache st' = _cache st ∧ heap st' = heap st
  ∧ root_dir st' = root_dir st ∧ autocache st' = autocache st
  ∧ match BASE_TABLES !! "venues"%string with
    | None => FileNotFoundError "venues.csv" = KeyError (UnknownBaseTable "venues")
              ∧ io_count st' = io_count st
    | Some fname =>
        match base_data (root_dir st) !! fname with
        | None => FileNotFoundError "venues.csv" = FileNotFoundError fname
                  ∧ io_count st' = S (io_count st)
        | Some (Raise e') => FileNotFoundError "venues.csv" = e'
                             ∧ io_count st' = S (S (io_count st))
        | Some (Ok _) => False
        end
    end.
Proof.
  intros st st'. split; [vm_compute; reflexivity|].
  apply (failed_load_changes_nothing "venues" st (FileNotFoundError "venues.csv") st').
  vm_compute. reflexivity.
Defined.

Lemma uncached_load_rereads_witness :
  let st0 := mkRepo (sample_disk sample_players) false ∅ [] 0%nat in
  let st := (_load_base_table "teams" st0).2 in
  ∃ l st', _load_base_table "teams" st = (Ok l, st')
    ∧ heap st' !! l = Some sample_teams
    ∧ io_count st' = S (S (io_count st))
    ∧ _cache st' = ∅.
Proof.
  intros st0 st.
  apply (uncached_load_rereads (sample_disk sample_players) st0 st ({[1%nat]} ∪ ∅)
           "teams" "teams.csv" sample_teams).
  - reflexivity.
  - eapply rtc_l; [|apply rtc_refl].
    apply (step_load "teams" st0 ∅ 1%nat st). vm_compute. reflexivity.
  - vm_compute. reflexivity.
  - vm_compute. reflexivity.
Defined.

Lemma loads_do_not_interfere_witness :
  match _load_base_table "players" (_load_base_table "teams" sample_repo).2,
        _load_base_table "players" sample_repo with
  | (Ok l, st2), (Ok l', st2') =>
      is_Some (heap st2 !! l) ∧ heap st2 !! l = heap st2' !! l'
  | (Raise e, _), (Raise e', _) => e = e'
  | _, _ => False
  end.
Proof.
  apply (loads_do_not_interfere "teams" "players" sample_repo
           (_load_base_table "teams" sample_repo).1
           (_load_base_table "teams" sample_repo).2).
  - apply new_repo_wf.
  - apply surjective_pairing.
Defined.

Lemma merge_needs_athlete_id_witness :
  (merge_player_stats sample_stats_no_athlete sample_repo_unique).1
  = Raise (KeyError (MissingLabel "athleteId")).
Proof.
  apply (merge_needs_athlete_id sample_stats_no_athlete sample_repo_unique
           sample_players_unique).
  - apply new_repo_wf.
  - vm_compute. reflexivity.
  - vm_compute. reflexivity.
  - left. by_eval.
Defined.

Lemma merge_drops_team_id_witness :
  let out := frame_of (merge_player_stats sample_stats sample_repo_unique).1 in
  "teamId"%string ∈ columns sample_stats
  ∧ columns out = ["athleteId"; "eventId"; "goals"; "playerName"; "teamName"]%string
  ∧ "teamId"%string ∉ columns out.
Proof.
  intros out. split; [by_eval|]. split; [vm_compute; reflexivity|].
  apply (merge_drops_team_id sample_stats sample_repo_unique sample_teams out).
  - apply new_repo_wf.
  - vm_compute. reflexivity.
  - vm_compute. reflexivity.
  - by_eval.
  - vm_compute. reflexivity.
Defined.


Lemma merge_adds_no_position_for_numeric_lineup_ids_witness :
  n_rows (frame_of (_load_files_by_pattern "lineup_data" "lineup_2024_ITA.1"
                      sample_repo_full).1) = 1%nat
  ∧ (merge_player_stats sample_stats sample_repo_full).1
    = (out ← join_players (keys_as_str sample_stats) sample_players_unique;
       join_teams out sample_teams)
  ∧ columns <$> (merge_player_stats sample_stats sample_repo_full).1
    = Ok ["athleteId"; "eventId"; "goals"; "playerName"; "teamName"]%string.
Proof.
  split; [vm_compute; reflexivity|]. split; [|vm_compute; reflexivity].
  apply (merge_adds_no_position_for_numeric_lineup_ids sample_stats sample_repo_full
           sample_players_unique sample_teams
           (record [("athleteId", PInt 7); ("teamId", PInt 1); ("eventId", PInt 100);
                    ("goals", PInt 2)]%string) []
           2024 (Some "ITA.1"%string)
           (frame_of (_load_files_by_pattern "lineup_data" "lineup_2024_ITA.1"
                        sample_repo_full).1)).
  - apply new_repo_wf.
  - reflexivity.
  - by_eval.
  - vm_compute. reflexivity.
  - vm_compute. reflexivity.
  - vm_compute. reflexivity.
  - vm_compute. reflexivity.
  - by_eval.
  - intros r Hr. vm_compute in Hr.
    repeat (apply elem_of_cons in Hr as [->|Hr]; [intros t; vm_compute; discriminate|]).
    by apply not_elem_of_nil in Hr.
Defined.

Lemma probe_all_or_nothing_witness :
  (probe (PInt 100) sample_repo).1 = Ok (PInt 100, true, true, false, false)
  ∧ (probe (PInt 100) sample_repo_calendar).1 = Ok (PInt 100, false, false, false, false).
Proof.
  split.
  - rewrite (probe_all_or_nothing (PInt 100) sample_repo).
    + vm_compute. reflexivity.
    + apply new_repo_wf.
    + intros why. split_and!; vm_compute; discriminate.
  - rewrite (probe_all_or_nothing (PInt 100) sample_repo_calendar).
    + vm_compute. reflexivity.
    + apply new_repo_wf.
    + intros why. split_and!; vm_compute; discriminate.
Defined.

Lemma probe_reports_nothing_for_text_ids_witness :
  (probe (PInt 100) sample_repo_full).1 = Ok (PInt 100, true, true, true, true)
  ∧ (probe (PStr "100") sample_repo_full).1 = Ok (PStr "100", false, false, false, false).
Proof.
  split; [vm_compute; reflexivity|].
  apply (probe_reports_nothing_for_text_ids "100" sample_repo_full 2024
           (Some "ITA.1"%string)).
  - apply new_repo_wf.
  - vm_compute. reflexivity.
  - repeat (constructor;
      [eexists; split; [vm_compute; reflexivity|]; split; [by_eval|];
       intros r Hr; vm_compute in Hr;
       repeat (apply elem_of_cons in Hr as [->|Hr];
               [intros t; vm_compute; discriminate|]);
       by apply not_elem_of_nil in Hr|]).
    constructor.
Defined.

Lemma sampled_id_is_found_witness :
  pick sample_fixtures id_candidates = Some "id"%string
  ∧ is_Some (find_event_row sample_fixtures (_id_str (PStr "100"))
               (filter (λ c, c ∈ columns sample_fixtures) id_candidates)).
Proof.
  split; [vm_compute; reflexivity|].
  apply (sampled_id_is_found sample_fixtures "id"
           (record [("id", PInt 100); ("season", PStr "2024-2025");
                    ("leagueId", PStr "ITA.1")]%string)).
  - vm_compute. reflexivity.
  - by_eval.
  - right. exists 100. split; [vm_compute; reflexivity|]. vm_compute. reflexivity.
Defined.

Lemma norm_is_idempotent_witness :
  norm (PStr "ITA.1 (Serie_A)") = Ok "ita 1 serie a"%string
  ∧ norm (PStr "ita 1 serie a") = Ok "ita 1 serie a"%string
  ∧ ∃ words,
      list_ascii_of_string "ita 1 serie a" = join_space words
      ∧ Forall (λ w, is_word w
                     ∧ Forall (λ c, is_ascii c = true ∧ ascii_lower c = c
                                    ∧ c ∉ norm_separators) w) words.
Proof.
  split; [vm_compute; reflexivity|].
  apply (norm_is_idempotent (PStr "ITA.1 (Serie_A)") "ita 1 serie a").
  vm_compute. reflexivity.
Defined.
